(** * Motion-control backend (backend/server.js): model and properties

    The Express server of backend/server.js is embedded function by
    function.  JavaScript values that the code inspects dynamically
    (JSON payloads of the external API, environment variables, form
    fields) are kept as a small value type with the truthiness and
    property-access rules the code relies on.  Effects (files on disk,
    outbound calls, the clock) are threaded through a state monad with
    exceptions in which the state survives a throw, as in JavaScript. *)

From stdpp Require Import base decidable option list strings pretty gmap.
From Stdlib Require Import ZArith Lia Ascii.

#[local] Set Warnings "-clear-no-such-hyp".

Local Open Scope string_scope.
Local Open Scope Z_scope.

(** ** JavaScript strings

    A JavaScript string is a sequence of 16-bit code units.  It is kept
    as the bytes that UTF-8 gives each unit taken as a code point: one
    byte for a unit below 128, two below 2048, three from there on, so
    that a character outside the basic plane is its two surrogates of
    three bytes each.  ASCII text is itself, equality and concatenation
    are those of the bytes, and a byte below 128 is never part of a
    longer unit. *)

Module Text.

Definition code (c : ascii) : N := N_of_ascii c.

Definition bytes (cs : list N) : string :=
  String.string_of_list_ascii (ascii_of_N <$> cs).

(** The number of bytes of the unit that starts with byte [c]. *)
Definition unit_width (c : ascii) : nat :=
  if (code c <? 128)%N then 1%nat else if (code c <? 224)%N then 2%nat else 3%nat.

Fixpoint take_bytes (n : nat) (s : string) : string :=
  match n, s with
  | S n', String c rest => String c (take_bytes n' rest)
  | _, _ => EmptyString
  end.

Fixpoint drop_bytes (n : nat) (s : string) : string :=
  match n, s with
  | S n', String _ rest => drop_bytes n' rest
  | _, _ => s
  end.

(** String.prototype.slice(0, n): the first [n] code units. *)
Fixpoint slice_to (n : nat) (s : string) : string :=
  match n, s with
  | S n', String c _ =>
      take_bytes (unit_width c) s +:+ slice_to n' (drop_bytes (unit_width c) s)
  | _, _ => EmptyString
  end.

(** WhiteSpace and LineTerminator of ECMAScript, which
    String.prototype.trim strips: TAB, LF, VT, FF, CR, SP, U+00A0,
    U+1680, U+2000 to U+200A, U+2028, U+2029, U+202F, U+205F, U+3000
    and U+FEFF. *)
Definition white_space : list string :=
  [ bytes [9]; bytes [10]; bytes [11]; bytes [12]; bytes [13]; bytes [32];
    bytes [194; 160];
    bytes [225; 154; 128];
    bytes [226; 128; 128]; bytes [226; 128; 129]; bytes [226; 128; 130];
    bytes [226; 128; 131]; bytes [226; 128; 132]; bytes [226; 128; 133];
    bytes [226; 128; 134]; bytes [226; 128; 135]; bytes [226; 128; 136];
    bytes [226; 128; 137]; bytes [226; 128; 138];
    bytes [226; 128; 168]; bytes [226; 128; 169]; bytes [226; 128; 175];
    bytes [226; 129; 159];
    bytes [227; 128; 128];
    bytes [239; 187; 191] ]%N.

(** [s] without the prefix [pre], when it starts with it. *)
Fixpoint strip_prefix (pre s : string) : option string :=
  match pre, s with
  | EmptyString, _ => Some s
  | String a pre', String b s' => if Ascii.eqb a b then strip_prefix pre' s' else None
  | String _ _, EmptyString => None
  end.

(** [s] without the first of [pats] it starts with. *)
Fixpoint strip_any (pats : list string) (s : string) : option string :=
  match pats with
  | [] => None
  | pat :: rest =>
      match strip_prefix pat s with
      | Some s' => Some s'
      | None => strip_any rest s
      end
  end.

(** Strips leading members of [pats]; every step removes a byte at
    least, so the length of the string is fuel enough. *)
Fixpoint strip_leading (pats : list string) (fuel : nat) (s : string) : string :=
  match fuel with
  | O => s
  | S fuel' =>
      match strip_any pats s with
      | Some s' => strip_leading pats fuel' s'
      | None => s
      end
  end.

Definition trim_start (s : string) : string :=
  strip_leading white_space (String.length s) s.

(** From the end: the same on the reversed bytes.  A unit of white
    space at the end of the bytes is a unit of the string, since its
    first byte starts a unit wherever it stands. *)
Definition trim_end (s : string) : string :=
  String.rev (strip_leading (String.rev <$> white_space) (String.length s) (String.rev s)).

(** String.prototype.trim *)
Definition trim (s : string) : string := trim_end (trim_start s).

End Text.

(** ** JavaScript values *)

Module Js.

(** A parsed JSON document, plus [undefined].  An object keeps its
    members in source order; a later duplicate key overrides an earlier
    one, as JSON.parse does. *)
#[warnings="-register-all"]
Inductive value : Type :=
| Undefined
| Null
| Bool (b : bool)
| Num (n : Z)
| Str (s : string)
| Arr (xs : list value)
| Obj (members : list (string * value)).

(** ToBoolean.  Only integer-valued numbers are represented; every other
    number is truthy, like any non-zero integer. *)
Definition truthy (v : value) : bool :=
  match v with
  | Undefined | Null => false
  | Bool b => b
  | Num n => negb (n =? 0)
  | Str s => negb (String.eqb s "")
  | Arr _ | Obj _ => true
  end.

Fixpoint lookup_from (found : value) (k : string)
    (members : list (string * value)) : value :=
  match members with
  | [] => found
  | (k', v) :: rest => lookup_from (if String.eqb k k' then v else found) k rest
  end.

Definition lookup_member (k : string) (members : list (string * value)) : value :=
  lookup_from Undefined k members.

(** Outcome of an expression that may throw. *)
Inductive completion (E A : Type) : Type :=
| Normal (a : A)
| Throw (e : E).
Arguments Normal {E A} a.
Arguments Throw {E A} e.

(** [v.k] for a named property [k] that no prototype defines:
    a TypeError on undefined and null, the member of an object,
    undefined on everything else. *)
Definition get (v : value) (k : string) : completion string value :=
  match v with
  | Undefined | Null => Throw ("TypeError: Cannot read properties of " +:+ k)
  | Obj members => Normal (lookup_member k members)
  | _ => Normal Undefined
  end.

(** [v?.k] *)
Definition get_opt (v : value) (k : string) : value :=
  match v with
  | Obj members => lookup_member k members
  | _ => Undefined
  end.

(** [v?.[0]] *)
Definition first_opt (v : value) : value :=
  match v with
  | Arr (x :: _) => x
  | Obj members => lookup_member "0" members
  | Str (String c rest) => Str (Text.slice_to 1 (String c rest))
  | _ => Undefined
  end.

(** [v !== 'lit'] *)
Definition strict_ne_str (v : value) (lit : string) : bool :=
  match v with
  | Str s => negb (String.eqb s lit)
  | _ => true
  end.

End Js.

(** ** CORS origin callback (server.js, lines 25-40) *)

Module Cors.

Definition allowedOrigins : list string :=
  [ "https://celebrated-heliotrope-1bcaaf.netlify.app";
    "http://localhost:3000";
    "http://localhost:5500";
    "http://127.0.0.1:5500" ].

(** What the callback is called with: [callback(null, true)] or
    [callback(new Error(msg))]. *)
Inductive verdict : Type :=
| Allow
| Reject (message : string).

(** Array.prototype.includes on strings. *)
Definition includes (xs : list string) (x : string) : bool :=
  existsb (String.eqb x) xs.

(** The [origin] function.  [None] is a request without Origin header;
    [!origin] also holds for the empty string. *)
Definition origin (o : option string) : verdict :=
  match o with
  | None => Allow
  | Some s =>
      if String.eqb s "" then Allow
      else if includes allowedOrigins s then Allow
      else Reject "Not allowed by CORS"
  end.

End Cors.

(** ** Names of stored uploads and of remote objects
       (server.js, lines 44-52 and 153) *)

Module Naming.

(** A number printed by JavaScript string concatenation; the numbers
    concerned are non-negative integers below 1e21, printed in decimal. *)
Definition num_to_string (n : N) : string := pretty n.

Section Filename.
(** path.extname of Node, which is not part of the repository. *)
Variable extname : string → string.

(** multer's [filename] callback.  [now] is Date.now(), [rnd] is
    Math.round(Math.random() * 1E9). *)
Definition filename (now rnd : N) (originalname : string) : string :=
  let uniqueSuffix := num_to_string now +:+ "-" +:+ num_to_string rnd in
  uniqueSuffix +:+ extname originalname.
End Filename.

(** Decimal digits, and strings that do not start with one; used to
    take names and keys apart again. *)
Definition is_digit (c : ascii) : bool :=
  (48 <=? nat_of_ascii c)%nat && (nat_of_ascii c <=? 57)%nat.

Fixpoint all_digits (s : string) : bool :=
  match s with
  | EmptyString => true
  | String c rest => is_digit c && all_digits rest
  end.

Definition no_leading_digit (s : string) : bool :=
  match s with
  | EmptyString => true
  | String c _ => negb (is_digit c)
  end.

(** The object key built in uploadToS3. *)
Definition s3_key (now : N) (fileName : string) : string :=
  "kling-uploads/" +:+ num_to_string now +:+ "-" +:+ fileName.

End Naming.

(** ** Signed credentials (server.js, lines 86-120), pure part *)

Module Jwt.

(** The [payload] object of generateJwtToken. *)
Record payload : Type := {
  iss : string;
  exp : Z;
  nbf : Z
}.

(** A signed token, kept symbolic: the header, the claims of the
    payload it was made from, the issued-at claim that jwt.sign adds,
    and the key of its HS256 signature. *)
Record token : Type := {
  alg : string;
  typ : string;
  claims : payload;
  iat : Z;
  signing_key : string
}.

(** String.prototype.trim *)
Definition trim_start (s : string) : string := Text.trim_start s.
Definition trim (s : string) : string := Text.trim s.

(** [x.trim()] on an environment variable, which is a string or
    undefined. *)
Definition trim_env (name : string) (x : option string) : Js.completion string string :=
  match x with
  | Some s => Js.Normal (trim s)
  | None => Js.Throw ("TypeError: Cannot read properties of undefined (reading 'trim'), " +:+ name)
  end.

(** Math.floor(ms / 1000) *)
Definition seconds (ms : N) : Z := Z.of_N ms / 1000.

(** [currentTime], from a reading of Date.now() in milliseconds. *)
Definition currentTime (now : N) : Z := seconds now.

(** What jwt.sign(payload, key, { algorithm: 'HS256', header: {alg, typ} })
    of the jsonwebtoken package makes of the key before it reads the
    clock: an empty key is refused, and so is a text that Node's
    crypto.createPrivateKey takes for a private key ([is_private_key]),
    which no HS algorithm may sign with. *)
Definition check_key (is_private_key : string → bool) (key : string)
    : Js.completion string unit :=
  if String.eqb key "" then Js.Throw "secretOrPrivateKey must have a value"
  else if is_private_key key then
    Js.Throw "secretOrPrivateKey must be a symmetric key when using HS256"
  else Js.Normal ().

(** The token jwt.sign then returns: the payload as given, and an
    issued-at claim from the package's own reading of Date.now(), as no
    noTimestamp option is passed. *)
Definition signed (p : payload) (key : string) (now : N) : token :=
  {| alg := "HS256"; typ := "JWT"; claims := p; iat := seconds now; signing_key := key |}.

End Jwt.

(** ** Effects: disk, outbound calls, clock *)

Module Eff.
Import Js.

(** A thrown error.  [response] is present on the errors axios raises
    when the peer answered with an error status. *)
Record error : Type := {
  message : string;
  stack : string;
  response : option (Z * value)   (* status, data *)
}.

Definition Error (msg : string) : error :=
  {| message := msg; stack := "Error: " +:+ msg; response := None |}.

(** Request headers built by getAuthHeaders. *)
Record headers : Type := {
  content_type : string;
  bearer : Jwt.token        (* Authorization: Bearer <token> *)
}.

(** Outbound calls and tool runs, in the order they are started. *)
Inductive call : Type :=
| S3Put (key : string) (contentType : string)
| KlingPost (h : headers) (payload : value)
| KlingGet (h : headers) (taskId : string)
| VideoGet (url : value)
| Ffmpeg (input logo output : string).

Record world : Type := {
  disk : gset string;     (* absolute paths of the regular files that exist *)
  calls : list call;      (* most recent last *)
  ticks : nat             (* readings of the clock and of Math.random so far *)
}.

(** A computation of a request handler whose mutable local is of type
    [L]; the local and the world survive a throw. *)
Definition M (L A : Type) : Type := L * world → completion error A * (L * world).

Definition ret {L A} (a : A) : M L A := λ s, (Normal a, s).
Definition throw {L A} (e : error) : M L A := λ s, (Throw e, s).
Definition bind {L A B} (m : M L A) (k : A → M L B) : M L B :=
  λ s, match m s with
       | (Normal a, s') => k a s'
       | (Throw e, s') => (Throw e, s')
       end.
(** [try { m } catch (error) { h error }] *)
Definition try_catch {L A} (m : M L A) (h : error → M L A) : M L A :=
  λ s, match m s with
       | (Normal a, s') => (Normal a, s')
       | (Throw e, s') => h e s'
       end.
(** An expression of [Js] used where it may throw. *)
Definition lift {L A} (c : completion string A) : M L A :=
  match c with
  | Normal a => ret a
  | Throw msg => throw (Error msg)
  end.

#[global] Instance M_ret {L} : MRet (M L) := @ret L.
#[global] Instance M_bind {L} : MBind (M L) := λ A B k m, bind m k.

Definition get_world {L} : M L world := λ s, (Normal (snd s), s).
Definition get_local {L} : M L L := λ s, (Normal (fst s), s).
Definition set_local {L} (l : L) : M L unit := λ s, (Normal (), (l, snd s)).
Definition record {L} (c : call) : M L unit :=
  λ s, let w := snd s in
       (Normal (), (fst s, {| disk := disk w; calls := calls w ++ [c]; ticks := ticks w |})).
Definition set_disk {L} (d : gset string) : M L unit :=
  λ s, let w := snd s in
       (Normal (), (fst s, {| disk := d; calls := calls w; ticks := ticks w |})).
Definition tick {L} : M L nat :=
  λ s, let w := snd s in
       (Normal (ticks w), (fst s, {| disk := disk w; calls := calls w; ticks := S (ticks w) |})).

(** [for (const x of xs) { body x }] *)
Fixpoint for_of {L A} (xs : list A) (body : A → M L unit) : M L unit :=
  match xs with
  | [] => ret ()
  | x :: rest => bind (body x) (λ _, for_of rest body)
  end.

(** Answer of an axios call. *)
Inductive axios_result : Type :=
| Answer (data : value)                      (* 2xx, response.data *)
| HttpError (status : Z) (data : value)      (* rejected, error.response set *)
| NetError (msg : string).                   (* rejected, no response *)

(** How the external tool ends: on failure the output file may or may
    not have been created. *)
Inductive tool_result : Type :=
| ToolOk
| ToolFail (msg : string) (output_left : bool).

(** Configuration read from the process environment at start-up, and
    the two directories relative paths and __dirname refer to. *)
Record config : Type := {
  KLING_API_BASE : string;
  KLING_ACCESS_KEY : option string;
  KLING_SECRET_KEY : option string;
  env_S3_ENABLED : option string;
  env_NODE_ENV : option string;
  cwd : string;
  dirname : string
}.

(** What the surroundings answer.  Remote peers and the tool see the
    calls made so far, the last one being the call they answer. *)
Record environment : Type := {
  date_now : nat → N;                      (* Date.now() at the k-th reading *)
  math_random : nat → N;                   (* Math.round(Math.random() * 1E9) *)
  extname : string → string;               (* path.extname *)
  s3_send : list call → option string;     (* None: stored; Some msg: rejected *)
  getSignedUrl : string → completion string string;
  axios : list call → axios_result;
  execFile : list call → tool_result;
  writeFile_ok : string → bool;
  setHeader_ok : string → bool;
  isDirectory : string → bool;             (* directories besides those that lead to a file
                                              of the disk or to the one made at start-up *)
  createPrivateKey : string → bool         (* crypto.createPrivateKey accepts the text *)
}.

End Eff.

(** ** The server (backend/server.js) *)

Module Server.
Import Js Eff.

(** An uploaded file as multer describes it in req.files. *)
Record file : Type := {
  fieldname : string;
  originalname : string;
  mimetype : string;
  size : Z;
  path : string
}.

(** req.files after upload.fields: each key is present only when a file
    of that field arrived, and holds one file (maxCount 1). *)
Record files : Type := {
  image : option file;
  video : option file
}.

(** req.body: text fields are strings, absent ones undefined. *)
Record body : Type := {
  prompt : option string;
  character_orientation : option string;
  mode : option string;
  keep_original_sound : option string
}.

Record request : Type := {
  req_files : option files;
  req_body : body
}.

(** res.status(s).json(b) *)
Record res : Type := {
  status : Z;
  json : value
}.

(** What a download request is answered with: a JSON response, or the
    headers of a video followed by the piped file. *)
Inductive reply : Type :=
| Json (r : res)
| Stream (file : string) (disposition : string).

(** A file part of an incoming multipart request. *)
Record part : Type := {
  part_field : string;
  part_originalname : string;
  part_mimetype : string;
  part_size : Z
}.

(** What multer meets in a multipart body besides the text fields it
    puts into req.body, in the order of the body: a file part, or the
    point where its reading fails, with the message of the error.  It
    fails on a text field whose name or value is beyond busboy's limits
    ("Field name too long", "Field value too long"), on a field without
    a name, and on a body that is not well formed ("Unexpected end of
    form" and the like). *)
Inductive entry : Type :=
| FilePart (p : part)
| Broken (msg : string).

(** The errors of express.json() (body-parser), each with the status it
    carries. *)
Inductive body_error : Type :=
| EntityParseFailed        (* 400, the body is not JSON *)
| RequestAborted           (* 400 *)
| RequestSizeInvalid       (* 400, the body does not match Content-Length *)
| EntityTooLarge           (* 413, the body is above 100kb *)
| CharsetUnsupported       (* 415 *)
| EncodingUnsupported      (* 415 *)
| StreamEncodingSet        (* 500 *)
| StreamNotReadable.       (* 500 *)

Definition body_error_status (e : body_error) : Z :=
  match e with
  | EntityParseFailed | RequestAborted | RequestSizeInvalid => 400
  | EntityTooLarge => 413
  | CharsetUnsupported | EncodingUnsupported => 415
  | StreamEncodingSet | StreamNotReadable => 500
  end.

Definition body_error_message (e : body_error) : string :=
  match e with
  | EntityParseFailed => "Unexpected token in JSON"
  | RequestAborted => "request aborted"
  | RequestSizeInvalid => "request size did not match content length"
  | EntityTooLarge => "request entity too large"
  | CharsetUnsupported => "unsupported charset"
  | EncodingUnsupported => "unsupported content encoding"
  | StreamEncodingSet => "stream encoding should not be set"
  | StreamNotReadable => "stream is not readable"
  end.

(** An incoming POST.  When it is multipart: what multer meets in it,
    in the order of the body, and its text fields as multer leaves them
    in req.body when it reads the body to its end.  When it is not: the
    error express.json() raises on its body, if it has a JSON body and
    that fails. *)
Record incoming : Type := {
  in_parts : option (list entry);
  in_body : body;
  in_json : option body_error
}.

Inductive upload_result : Type :=
| Passed (req : request)
| Failed (msg : string).

Definition str_or_undefined (o : option string) : value :=
  match o with
  | Some s => Str s
  | None => Undefined
  end.

(** [a || b] *)
Definition or_else (a b : value) : value := if truthy a then a else b.

Definition starts_with_slash (p : string) : bool :=
  match p with
  | String "/"%char _ => true
  | _ => false
  end.

Definition MiB : Z := 1024 * 1024.

Section WithEnvironment.
Variable cfg : config.
Variable env : environment.
Context {L : Type}.

(** A path as the fs functions see it: relative paths are taken from
    the working directory. *)
Definition resolve (p : string) : string :=
  if starts_with_slash p then p else cwd cfg +:+ "/" +:+ p.

(** path.join(dir, name), for a name without separators or dot
    segments. *)
Definition path_join (dir name : string) : string := dir +:+ "/" +:+ name.

Definition uploadsDir : string := path_join (dirname cfg) "uploads".
Definition LOGO_PATH : string := path_join (path_join (dirname cfg) "assets") "logo.png".

Definition on_disk (p : string) (w : world) : bool :=
  bool_decide (resolve p ∈ disk w).

(** The file [f] lies below the directory [d]. *)
Definition below (d f : string) : bool :=
  match Text.strip_prefix d f with
  | Some (String "/"%char (String _ _)) => true
  | _ => false
  end.

(** Whether the directory exists: the uploads directory that the server
    makes when it starts (server.js, lines 18-22) or a directory above
    it, a directory that holds a file of the disk, or one the
    surroundings hold. *)
Definition is_directory (p : string) (w : world) : bool :=
  String.eqb (resolve p) uploadsDir
  || below (resolve p) uploadsDir
  || bool_decide (set_Exists (λ f, below (resolve p) f = true) (disk w))
  || isDirectory env (resolve p).

(** fs.existsSync, which holds of files and of directories. *)
Definition existsSync (p : string) : M L bool :=
  w ← get_world; ret (on_disk p w || is_directory p w).

(** fs.promises.unlink: fails on a path that does not exist. *)
Definition unlink (p : string) : M L unit :=
  w ← get_world;
  if on_disk p w then set_disk (disk w ∖ {[resolve p]})
  else throw (Error ("ENOENT: no such file or directory, unlink " +:+ p)).

(** fs.promises.readFile, as far as success and failure go. *)
Definition readFile (p : string) : M L unit :=
  w ← get_world;
  if on_disk p w then ret ()
  else throw (Error ("ENOENT: no such file or directory, open " +:+ p)).

(** fs.promises.stat *)
Definition stat (p : string) : M L unit :=
  w ← get_world;
  if on_disk p w then ret ()
  else throw (Error ("ENOENT: no such file or directory, stat " +:+ p)).

(** fs.promises.writeFile *)
Definition writeFile (p : string) : M L unit :=
  if writeFile_ok env p then (w ← get_world; set_disk (disk w ∪ {[resolve p]}))
  else throw (Error ("ENOSPC: no space left on device, write " +:+ p)).

Definition Date_now : M L N := k ← tick; ret (date_now env k).
Definition Math_random : M L N := k ← tick; ret (math_random env k).

(** await of an axios call that has just been recorded. *)
Definition await_axios : M L value :=
  w ← get_world;
  match axios env (calls w) with
  | Answer data => ret data
  | HttpError st data =>
      throw {| message := "Request failed with status code " +:+ pretty st;
               stack := "AxiosError";
               response := Some (st, data) |}
  | NetError msg => throw (Error msg)
  end.

(** *** generateJwtToken, getAuthHeaders *)

(** jwt.sign: the key is checked first, the clock is read for the
    issued-at claim afterwards. *)
Definition jwt_sign (p : Jwt.payload) (key : string) : M L Jwt.token :=
  lift (Jwt.check_key (createPrivateKey env) key);;
  now ← Date_now;
  ret (Jwt.signed p key now).

Definition generateJwtToken : M L Jwt.token :=
  now ← Date_now;
  let currentTime := Jwt.currentTime now in
  issuer ← lift (Jwt.trim_env "KLING_ACCESS_KEY" (KLING_ACCESS_KEY cfg));
  let payload :=
    {| Jwt.iss := issuer;
       Jwt.exp := currentTime + 1800;
       Jwt.nbf := currentTime - 5 |} in
  key ← lift (Jwt.trim_env "KLING_SECRET_KEY" (KLING_SECRET_KEY cfg));
  token ← jwt_sign payload key;
  ret token.

Definition getAuthHeaders : M L headers :=
  token ← generateJwtToken;
  ret {| content_type := "application/json"; bearer := token |}.

(** *** uploadToS3, cleanupFiles *)

(** process.env.S3_ENABLED === 'true'; the client object is null
    exactly when this is false. *)
Definition S3_ENABLED : bool :=
  match env_S3_ENABLED cfg with
  | Some s => String.eqb s "true"
  | None => false
  end.

Definition uploadToS3 (filePath fileName contentType : string) : M L string :=
  if negb S3_ENABLED then throw (Error "S3 is not configured")
  else
    try_catch
      (readFile filePath;;
       now ← Date_now;
       let key := Naming.s3_key now fileName in
       record (S3Put key contentType);;
       w ← get_world;
       match s3_send env (calls w) with
       | Some msg => throw (Error msg)
       | None =>
           presignedUrl ← lift (getSignedUrl env key);
           ret presignedUrl
       end)
      (λ error, throw (Error ("Failed to upload to S3: " +:+ message error))).

Definition cleanupFiles (fs : list file) : M L unit :=
  for_of fs (λ f, try_catch (unlink (path f)) (λ _, ret ())).

End WithEnvironment.

Section Handlers.
Variable cfg : config.
Variable env : environment.

(** *** POST /api/generate: the multer stage (server.js, lines 44-59, 208-211)

    multer is a dependency of the server; what is kept of it is what
    it does for disk storage with [limits.fileSize] and [fields] of
    maxCount 1: a part without a file name is passed over, a file is
    written under the destination with the name the [filename]
    callback returns, a file of a field that is not expected or
    already filled aborts the upload, a file whose size reaches the
    limit aborts the upload, so does a failure in reading the body, and
    an aborted upload removes the files already written and hands the
    error to Express without calling the route handler. *)

Definition fileSize : Z := 100 * 1024 * 1024.

Definition abort_upload {L} (stored : list file) (msg : string) : M L upload_result :=
  for_of stored (λ f, try_catch (unlink cfg (path f)) (λ _, ret ()));;
  ret (Failed msg).

(** The disk storage engine: the destination and filename callbacks,
    then the write into the destination, which multer does not create
    when [destination] is a function. *)
Definition store_part {L} (p : part) : M L file :=
  now ← Date_now env;
  rnd ← Math_random env;
  let name := Naming.filename (extname env) now rnd (part_originalname p) in
  let dest := "uploads/" +:+ name in
  w ← get_world;
  if is_directory cfg env "uploads" w then
    set_disk (disk w ∪ {[resolve cfg dest]});;
    ret {| fieldname := part_field p;
           originalname := part_originalname p;
           mimetype := part_mimetype p;
           size := part_size p;
           path := dest |}
  else throw (Error ("ENOENT: no such file or directory, open " +:+ dest)).

Fixpoint multer_parts {L} (parts : list entry) (acc : files) (stored : list file)
    : M L (upload_result + files) :=
  match parts with
  | [] => ret (inr acc)
  | Broken msg :: _ => r ← abort_upload stored msg; ret (inl r)
  | FilePart p :: rest =>
      if String.eqb (part_originalname p) "" then multer_parts rest acc stored
      else
        let expected :=
          if String.eqb (part_field p) "image" then bool_decide (image acc = None)
          else if String.eqb (part_field p) "video" then bool_decide (video acc = None)
          else false in
        if negb expected then
          r ← abort_upload stored "Unexpected field"; ret (inl r)
        else
          written ← try_catch (f ← store_part p; ret (inr f)) (λ e, ret (inl (message e)));
          match written with
          | inl msg => r ← abort_upload stored msg; ret (inl r)
          | inr f =>
              if part_size p >=? fileSize then
                r ← abort_upload (stored ++ [f]) "File too large"; ret (inl r)
              else
                let acc' :=
                  if String.eqb (part_field p) "image"
                  then {| image := Some f; video := video acc |}
                  else {| image := image acc; video := Some f |} in
                multer_parts rest acc' (stored ++ [f])
          end
  end.

(** upload.fields([{ name: 'image', maxCount: 1 }, { name: 'video', maxCount: 1 }]) *)
Definition upload_fields {L} (i : incoming) : M L upload_result :=
  match in_parts i with
  | None => ret (Passed {| req_files := None; req_body := in_body i |})
  | Some parts =>
      r ← multer_parts parts {| image := None; video := None |} [];
      match r with
      | inl failed => ret failed
      | inr fs => ret (Passed {| req_files := Some fs; req_body := in_body i |})
      end
  end.

(** Express answers an error that no middleware handles with the
    status the error carries, and with 500 when it carries none, as
    neither multer's nor the CORS callback's does; the body is an error
    page, kept as the error's message. *)
Definition express_error (msg : string) : res :=
  {| status := 500; json := Str msg |}.

Definition express_body_error (e : body_error) : res :=
  {| status := body_error_status e; json := Str (body_error_message e) |}.

(** express.json() of line 41, which stands in front of every route: it
    reads a body only when the request declares JSON, which a multipart
    request does not. *)
Definition express_json (i : incoming) : option body_error :=
  match in_parts i with
  | Some _ => None
  | None => in_json i
  end.

(** *** POST /api/generate: the route handler (server.js, lines 211-342) *)

Definition bad_request (msg : string) : res :=
  {| status := 400;
     json := Obj [("success", Bool false); ("message", Str msg)] |}.

Definition generate_catch (error : Eff.error) : M (list file) res :=
  uploadedFiles ← get_local;
  cleanupFiles cfg uploadedFiles;;
  match response error with
  | Some (st, data) =>
      if truthy data then
        ret {| status := (if st =? 0 then 500 else st);
               json := Obj [("success", Bool false);
                            ("message", or_else (get_opt data "message") (Str "Kling AI API error"));
                            ("code", get_opt data "code");
                            ("details", data)] |}
      else
        ret {| status := 500;
               json := Obj [("success", Bool false);
                            ("message", or_else (Str (message error)) (Str "Internal server error"));
                            ("error", match env_NODE_ENV cfg with
                                      | Some "development" => Str (stack error)
                                      | _ => Undefined
                                      end)] |}
  | None =>
      ret {| status := 500;
             json := Obj [("success", Bool false);
                          ("message", or_else (Str (message error)) (Str "Internal server error"));
                          ("error", match env_NODE_ENV cfg with
                                    | Some "development" => Str (stack error)
                                    | _ => Undefined
                                    end)] |}
  end.

Definition generate_try (req : request) : M (list file) res :=
  match req_files req with
  | None => ret (bad_request "Both image and video files are required")
  | Some fs =>
      match image fs, video fs with
      | Some imageFile, Some videoFile =>
          uploadedFiles ← get_local;
          set_local (uploadedFiles ++ [imageFile; videoFile])%list;;
          if size imageFile >? 10 * 1024 * 1024 then
            ret (bad_request "Image file must be less than 10MB")
          else if size videoFile >? 100 * 1024 * 1024 then
            ret (bad_request "Video file must be less than 100MB")
          else
            let b := req_body req in
            let prompt := default "" (prompt b) in
            let character_orientation := str_or_undefined (character_orientation b) in
            let mode := str_or_undefined (mode b) in
            let keep_original_sound := default "yes" (keep_original_sound b) in
            if negb (truthy character_orientation) || negb (truthy mode) then
              ret (bad_request "character_orientation and mode are required")
            else
              imageUrl ← uploadToS3 cfg env
                (path imageFile) (originalname imageFile) (mimetype imageFile);
              videoUrl ← uploadToS3 cfg env
                (path videoFile) (originalname videoFile) (mimetype videoFile);
              let requestPayload :=
                Obj [("prompt", or_else (Str prompt) Undefined);
                     ("image_url", Str imageUrl);
                     ("video_url", Str videoUrl);
                     ("character_orientation", character_orientation);
                     ("mode", mode);
                     ("keep_original_sound", Str keep_original_sound)] in
              h ← getAuthHeaders cfg env;
              record (KlingPost h requestPayload);;
              response_data ← await_axios env;
              uploadedFiles ← get_local;
              cleanupFiles cfg uploadedFiles;;
              data ← lift (get response_data "data");
              task_id ← lift (get data "task_id");
              task_status ← lift (get data "task_status");
              created_at ← lift (get data "created_at");
              task_info ← lift (get data "task_info");
              ret {| status := 200;
                     json := Obj [("success", Bool true);
                                  ("message", Str "Video generation task created successfully");
                                  ("task_id", task_id);
                                  ("task_status", task_status);
                                  ("created_at", created_at);
                                  ("external_task_id", get_opt task_info "external_task_id")] |}
      | _, _ => ret (bad_request "Both image and video files are required")
      end
  end.

Definition generate_handler (req : request) : M (list file) res :=
  try_catch (generate_try req) generate_catch.

(** The route behind express.json(): the multer stage, then the
    handler with a fresh [uploadedFiles] array.  [None] stands for a
    request that is left without an answer. *)
Definition post_generate (i : incoming) (w : world) : option res * world :=
  match express_json i with
  | Some e => (Some (express_body_error e), w)
  | None =>
      match upload_fields i ((), w) with
      | (Normal (Passed req), (_, w1)) =>
          match generate_handler req ([], w1) with
          | (Normal r, (_, w2)) => (Some r, w2)
          | (Throw _, (_, w2)) => (None, w2)
          end
      | (Normal (Failed msg), (_, w1)) => (Some (express_error msg), w1)
      | (Throw _, (_, w1)) => (None, w1)
      end
  end.

(** *** GET /api/task/:taskId (server.js, lines 345-383) *)

Definition task_handler (taskId : string) : M unit res :=
  try_catch
    (h ← getAuthHeaders cfg env;
     record (KlingGet h taskId);;
     response_data ← await_axios env;
     data ← lift (get response_data "data");
     ret {| status := 200;
            json := Obj [("success", Bool true); ("data", data)] |})
    (λ error,
       match response error with
       | Some (st, data) =>
           if truthy data then
             ret {| status := (if st =? 0 then 500 else st);
                    json := Obj [("success", Bool false);
                                 ("message", or_else (get_opt data "message")
                                               (Str "Failed to fetch task status"));
                                 ("code", get_opt data "code")] |}
           else
             ret {| status := 500;
                    json := Obj [("success", Bool false);
                                 ("message", or_else (Str (message error))
                                               (Str "Internal server error"))] |}
       | None =>
           ret {| status := 500;
                  json := Obj [("success", Bool false);
                               ("message", or_else (Str (message error))
                                             (Str "Internal server error"))] |}
       end).

(** *** GET /api/download/:taskId (server.js, lines 392-509) *)

Definition failure (st : Z) (msg : string) : reply :=
  Json {| status := st;
          json := Obj [("success", Bool false); ("message", Str msg)] |}.

(** The loop of the [end] listener and of the catch block. *)
Definition unlink_all (tempFiles : list string) : M (list string) unit :=
  for_of tempFiles (λ f, try_catch (unlink cfg f) (λ _, ret ())).

(** The external tool: on success the output file exists. *)
Definition run_ffmpeg (tempInput tempOutput : string) : M (list string) unit :=
  record (Ffmpeg tempInput (LOGO_PATH cfg) tempOutput);;
  w ← get_world;
  match execFile env (calls w) with
  | ToolOk => set_disk (disk w ∪ {[resolve cfg tempOutput]})
  | ToolFail msg output_left =>
      (if output_left then set_disk (disk w ∪ {[resolve cfg tempOutput]}) else ret ());;
      throw (Error ("ffmpeg failed: " +:+ msg))
  end.

Definition quoted (s : string) : string :=
  String "034"%char (s +:+ String "034"%char EmptyString).

(** String.prototype.slice(0, n) *)
Definition take_chars (n : nat) (s : string) : string := Text.slice_to n s.

Definition download_try (taskId : string) : M (list string) reply :=
  h ← getAuthHeaders cfg env;
  record (KlingGet h taskId);;
  response_data ← await_axios env;
  taskData ← lift (get response_data "data");
  task_status ← lift (get taskData "task_status");
  if strict_ne_str task_status "succeed" then
    ret (failure 400 "Video is not ready yet")
  else
    let videoUrl :=
      get_opt (first_opt (get_opt (get_opt taskData "task_result") "videos")) "url" in
    if negb (truthy videoUrl) then
      ret (failure 404 "No video URL found for this task")
    else
      logo ← existsSync cfg env (LOGO_PATH cfg);
      if negb logo then
        ret (failure 500 "Logo file not found on server")
      else
        t1 ← Date_now env;
        let tempInput :=
          path_join (uploadsDir cfg)
            ("temp-input-" +:+ taskId +:+ "-" +:+ Naming.num_to_string t1 +:+ ".mp4") in
        t2 ← Date_now env;
        let tempOutput :=
          path_join (uploadsDir cfg)
            ("temp-output-" +:+ taskId +:+ "-" +:+ Naming.num_to_string t2 +:+ ".mp4") in
        tempFiles ← get_local;
        set_local (tempFiles ++ [tempInput; tempOutput])%list;;
        record (VideoGet videoUrl);;
        _ ← await_axios env;
        writeFile cfg env tempInput;;
        run_ffmpeg tempInput tempOutput;;
        stat cfg tempOutput;;
        let disposition :=
          "attachment; filename=" +:+ quoted ("eros-universe-" +:+ take_chars 8 taskId +:+ ".mp4") in
        if setHeader_ok env disposition then ret (Stream tempOutput disposition)
        else throw (Error "Invalid character in header content").

(** Nothing is sent before the try block ends, so [res.headersSent]
    is false whenever the catch block runs. *)
Definition download_catch (error : Eff.error) : M (list string) reply :=
  tempFiles ← get_local;
  unlink_all tempFiles;;
  ret (failure 500 (if String.eqb (message error) ""
                    then "Failed to process video download"
                    else message error)).

Definition download_handler (taskId : string) : M (list string) reply :=
  try_catch (download_try taskId) download_catch.

(** What becomes of the read stream piped into the response.  The
    handler listens to [end] and [error] only; a stream that the
    client abandons emits neither. *)
Inductive stream_event : Type :=
| StreamEnd
| StreamError
| Abandoned.

Definition on_end : M (list string) unit :=
  tempFiles ← get_local; unlink_all tempFiles.

(** console.error and res.end() *)
Definition on_error : M (list string) unit := ret ().

Definition listeners (ev : stream_event) : M (list string) unit :=
  match ev with
  | StreamEnd => on_end
  | StreamError => on_error
  | Abandoned => ret ()
  end.

(** A whole download: the handler with a fresh [tempFiles] array and,
    when it started a stream, the event the stream ends with. *)
Definition get_download (taskId : string) (ev : stream_event) (w : world)
    : option reply * world :=
  match download_handler taskId ([], w) with
  | (Normal (Stream f d), s1) =>
      (Some (Stream f d), snd (snd (listeners ev s1)))
  | (Normal (Json r), (_, w1)) => (Some (Json r), w1)
  | (Throw _, (_, w1)) => (None, w1)
  end.

(** *** Middleware in front of the routes (server.js, lines 31-41, 62)

    cors, express.json and express.static are dependencies; what is
    kept of them is what they do with the options of server.js on a
    POSIX file system.

    cors answers an OPTIONS request itself once the origin callback
    allows it, and hands the callback's error to Express.

    Express matches the mount path /uploads without regard to case, up
    to a path separator or the end of the path, and hands the rest of
    the path to the middleware.

    express.static('uploads') answers GET and HEAD only.  It decodes
    the path below the mount point (decodeURIComponent), refuses a NUL,
    normalises the path (empty, . and .. segments), refuses what still
    holds a .. between separators, ignores a path whose last segment
    starts with a dot, and looks the rest up under the root, which is
    uploads below the working directory: a file is sent, a path with a
    slash at its end is answered from the index.html below it, a
    directory is answered with a redirection to the path with a slash
    appended.  Whatever it refuses, ignores or does not find goes on to
    the routes. *)

Record http_request : Type := {
  method : string;                 (* as Node hands it over, in upper case *)
  url_path : string;               (* path of the URL as sent, without the query *)
  origin : option string;          (* Origin header *)
  authorization : option string;   (* Authorization header *)
  json_error : option body_error   (* what express.json() raises on the body, if anything *)
}.

Inductive dispatch : Type :=
| Refused (r : res)                (* the error of the CORS callback, answered by Express *)
| Preflight                        (* answered 204 by cors *)
| BodyRefused (r : res)            (* the error of express.json(), answered by Express *)
| Served (file : string)           (* answered by the static route from this file *)
| Redirected (location : string)   (* 301 of the static route, before URL encoding *)
| Routed.                          (* passed on to the routes *)

(** Some segment of the path starts with a dot. *)
Fixpoint dot_segment (at_start : bool) (s : string) : bool :=
  match s with
  | EmptyString => false
  | String c rest =>
      if Ascii.eqb c "/" then dot_segment true rest
      else if at_start && Ascii.eqb c "." then true
      else dot_segment false rest
  end.

Definition lower (c : ascii) : ascii :=
  let n := Text.code c in
  if (65 <=? n)%N && (n <=? 90)%N then ascii_of_N (n + 32) else c.

(** [s] without the prefix [mount], compared without regard to case. *)
Fixpoint strip_mount (mount s : string) : option string :=
  match mount, s with
  | EmptyString, _ => Some s
  | String a mount', String b s' =>
      if Ascii.eqb a (lower b) then strip_mount mount' s' else None
  | String _ _, EmptyString => None
  end.

(** What is left of the path below the mount point /uploads, which has
    to end at a separator or at the end of the path; a separator right
    after the mount point goes with it when another one follows. *)
Definition below_mount (p : string) : option string :=
  match strip_mount "/uploads" p with
  | Some EmptyString => Some EmptyString
  | Some (String "/"%char (String "/"%char rest)) => Some (String "/"%char rest)
  | Some (String "/"%char rest) => Some (String "/"%char rest)
  | _ => None
  end.

Definition hex_digit (c : ascii) : option N :=
  let n := Text.code c in
  if (48 <=? n)%N && (n <=? 57)%N then Some (n - 48)%N
  else if (65 <=? n)%N && (n <=? 70)%N then Some (n - 55)%N
  else if (97 <=? n)%N && (n <=? 102)%N then Some (n - 87)%N
  else None.

(** A code unit, and a code point, as the string holds them. *)
Definition encode_unit (u : N) : string :=
  if (u <? 128)%N then Text.bytes [u]
  else if (u <? 2048)%N then Text.bytes [192 + u / 64; 128 + u mod 64]%N
  else Text.bytes [224 + u / 4096; 128 + (u / 64) mod 64; 128 + u mod 64]%N.

Definition encode_code_point (cp : N) : string :=
  if (cp <? 65536)%N then encode_unit cp
  else
    let v := (cp - 65536)%N in
    encode_unit (55296 + v / 1024)%N +:+ encode_unit (56320 + v mod 1024)%N.

(** Where decodeURIComponent stands: between characters, or inside the
    escapes of one character of several bytes, of which [need] are
    still to come, the next one between [lo] and [hi]. *)
Inductive decoding : Type :=
| Plain
| Seq (need : nat) (lo hi cp : N).

(** The first byte of a well-formed UTF-8 sequence of several bytes. *)
Definition lead (b : N) : option decoding :=
  if (194 <=? b)%N && (b <=? 223)%N then Some (Seq 1 128 191 (b mod 32))
  else if (b =? 224)%N then Some (Seq 2 160 191 0)
  else if (b =? 237)%N then Some (Seq 2 128 159 13)
  else if (225 <=? b)%N && (b <=? 239)%N then Some (Seq 2 128 191 (b mod 16))
  else if (b =? 240)%N then Some (Seq 3 144 191 0)
  else if (241 <=? b)%N && (b <=? 243)%N then Some (Seq 3 128 191 (b mod 8))
  else if (b =? 244)%N then Some (Seq 3 128 143 4)
  else None.

(** decodeURIComponent; [None] is its URIError. *)
Fixpoint decode_from (st : decoding) (s : string) : option string :=
  match s with
  | EmptyString =>
      match st with
      | Plain => Some EmptyString
      | Seq _ _ _ _ => None
      end
  | String c rest =>
      if Ascii.eqb c "%" then
        match rest with
        | String h1 (String h2 rest') =>
            match hex_digit h1, hex_digit h2 with
            | Some a, Some b =>
                let byte := (16 * a + b)%N in
                match st with
                | Plain =>
                    if (byte <? 128)%N then
                      String (ascii_of_N byte) <$> decode_from Plain rest'
                    else
                      match lead byte with
                      | Some st' => decode_from st' rest'
                      | None => None
                      end
                | Seq need lo hi cp =>
                    if (lo <=? byte)%N && (byte <=? hi)%N then
                      let cp' := (cp * 64 + byte mod 64)%N in
                      match need with
                      | O => None
                      | S O => String.append (encode_code_point cp') <$> decode_from Plain rest'
                      | S need' => decode_from (Seq need' 128 191 cp') rest'
                      end
                    else None
                end
            | _, _ => None
            end
        | _ => None
        end
      else
        match st with
        | Plain => String c <$> decode_from Plain rest
        | Seq _ _ _ _ => None
        end
  end.

Definition decodeURIComponent (s : string) : option string := decode_from Plain s.

Fixpoint has_nul (s : string) : bool :=
  match s with
  | EmptyString => false
  | String c rest => (Text.code c =? 0)%N || has_nul rest
  end.

Fixpoint ends_with_slash (s : string) : bool :=
  match s with
  | EmptyString => false
  | String c EmptyString => Ascii.eqb c "/"
  | String _ rest => ends_with_slash rest
  end.

(** String.prototype.split('/') *)
Fixpoint split_slash (s : string) : list string :=
  match s with
  | EmptyString => [EmptyString]
  | String c rest =>
      if Ascii.eqb c "/" then EmptyString :: split_slash rest
      else
        match split_slash rest with
        | seg :: segs => String c seg :: segs
        | [] => [String c EmptyString]
        end
  end.

(** path.normalize on a relative path, segment by segment, the
    segments kept so far in reverse: empty segments and . vanish, ..
    takes the segment before it away, or stays when there is none. *)
Definition normalize_step (kept : list string) (seg : string) : list string :=
  if String.eqb seg "" || String.eqb seg "." then kept
  else if String.eqb seg ".." then
    match kept with
    | before :: others => if String.eqb before ".." then seg :: kept else others
    | [] => [seg]
    end
  else seg :: kept.

Definition normalize_segments (segs : list string) : list string :=
  rev (fold_left normalize_step segs []).

Definition is_separator (c : ascii) : bool := Ascii.eqb c "/" || Ascii.eqb c "092".

(** send's test for a path that leads upwards,
    /(?:^|[\\/])\.\.(?:[\\/]|$)/, on one segment. *)
Fixpoint up_marker_from (boundary : bool) (s : string) : bool :=
  match s with
  | EmptyString => false
  | String c rest =>
      (boundary &&
       match s with
       | String "."%char (String "."%char EmptyString) => true
       | String "."%char (String "."%char (String d _)) => is_separator d
       | _ => false
       end)
      || up_marker_from (is_separator c) rest
  end.

Definition up_marker (seg : string) : bool := up_marker_from true seg.

Definition starts_with_dot (seg : string) : bool :=
  match seg with
  | String "."%char _ => true
  | _ => false
  end.

(** The segments below a directory, as a path. *)
Fixpoint join_segments (segs : list string) : string :=
  match segs with
  | [] => EmptyString
  | seg :: rest => "/" +:+ seg +:+ join_segments rest
  end.

Fixpoint collapse_leading_slashes (s : string) : string :=
  match s with
  | String "/"%char (String "/"%char _ as rest) => collapse_leading_slashes rest
  | _ => s
  end.

Inductive static_answer : Type :=
| StaticFile (file : string)
| StaticRedirect
| StaticNext.

(** express.static('uploads') on the path [rest] below the mount point. *)
Definition express_static (rest : string) (w : world) : static_answer :=
  match decodeURIComponent rest with
  | None => StaticNext
  | Some decoded =>
      if has_nul decoded then StaticNext
      else
        let segs :=
          if String.eqb decoded "" then []
          else normalize_segments (split_slash decoded) in
        if existsb up_marker segs then StaticNext
        else if negb (ends_with_slash decoded) && starts_with_dot (default "" (last segs))
        then StaticNext
        else
          let p := "uploads" +:+ join_segments segs in
          if ends_with_slash rest then
            if on_disk cfg (p +:+ "/index.html") w
            then StaticFile (resolve cfg (p +:+ "/index.html"))
            else StaticNext
          else if negb (ends_with_slash decoded) && on_disk cfg p w
          then StaticFile (resolve cfg p)
          else if is_directory cfg env p w then StaticRedirect
          else StaticNext
  end.

Definition app (r : http_request) (w : world) : dispatch :=
  match Cors.origin (origin r) with
  | Cors.Reject msg => Refused (express_error msg)
  | Cors.Allow =>
      if String.eqb (method r) "OPTIONS" then Preflight
      else
        match json_error r with
        | Some e => BodyRefused (express_body_error e)
        | None =>
            if String.eqb (method r) "GET" || String.eqb (method r) "HEAD" then
              match below_mount (url_path r) with
              | Some rest =>
                  match express_static rest w with
                  | StaticFile f => Served f
                  | StaticRedirect =>
                      Redirected (collapse_leading_slashes (url_path r +:+ "/"))
                  | StaticNext => Routed
                  end
              | None => Routed
              end
            else Routed
        end
  end.

End Handlers.

End Server.

(** ** Start-up (server.js, lines 512-530) *)

Module Boot.
Import Js Eff Server.

(** The check made once the server listens (server.js, lines 525-529):
    [!KLING_ACCESS_KEY || !KLING_SECRET_KEY], on which the warning about
    missing credentials is printed. *)
Definition credentials_warning (cfg : config) : bool :=
  negb (truthy (str_or_undefined (KLING_ACCESS_KEY cfg)))
  || negb (truthy (str_or_undefined (KLING_SECRET_KEY cfg))).

End Boot.

(** * Vocabulary of the properties *)

(** The world after one more clock reading. *)
Definition ticked (w : Eff.world) : Eff.world :=
  {| Eff.disk := Eff.disk w; Eff.calls := Eff.calls w; Eff.ticks := S (Eff.ticks w) |}.

(** The files the local array of a download names, as paths on the disk. *)
Definition named (cfg : Eff.config) (l : list string) : gset string :=
  list_to_set (Server.resolve cfg <$> l).

(** Whether the CORS stage lets a request through to the rest of the
    application. *)
Definition accepted (cfg : Eff.config) (env : Eff.environment)
    (r : Server.http_request) (w : Eff.world) : bool :=
  match Server.app cfg env r w with
  | Server.Refused _ => false
  | _ => true
  end.

(** The string has no path separator. *)
Fixpoint no_slash (s : string) : bool :=
  match s with
  | EmptyString => true
  | String c rest => negb (Ascii.eqb c "/") && no_slash rest
  end.

(** The keys of the objects put into the remote store, in call order. *)
Definition s3_keys (cs : list Eff.call) : list string :=
  omap (λ c, match c with Eff.S3Put key _ => Some key | _ => None end) cs.

(** The clock reading [ms], in milliseconds, falls into the second [t]. *)
Definition in_second (ms : N) (t : Z) : Prop :=
  1000 * t ≤ Z.of_N ms < 1000 * t + 1000.

(** The token was made at the [k]-th clock reading: its expiry is 1800
    seconds after the second of that reading and its not-before 5
    seconds before it, and its issued-at claim is the second of the
    reading that follows. *)
Definition issued_at (env : Eff.environment) (k : nat) (tok : Jwt.token) : Prop :=
  ∃ t t' : Z,
    in_second (Eff.date_now env k) t ∧
    in_second (Eff.date_now env (S k)) t' ∧
    Jwt.exp (Jwt.claims tok) = t + 1800 ∧
    Jwt.nbf (Jwt.claims tok) = t - 5 ∧
    Jwt.iat tok = t'.

(** The headers of a call to the external API. *)
Definition kling_headers (c : Eff.call) : option Eff.headers :=
  match c with
  | Eff.KlingPost h _ | Eff.KlingGet h _ => Some h
  | _ => None
  end.

(** From [w] to [w'] calls were only added, and every added call to the
    external API carries a token issued at a clock reading taken in
    between. *)
Definition fresh_tokens (env : Eff.environment) (w w' : Eff.world) : Prop :=
  (Eff.ticks w ≤ Eff.ticks w')%nat ∧
  ∃ added : list Eff.call,
    Eff.calls w' = (Eff.calls w ++ added)%list ∧
    ∀ c h, c ∈ added → kling_headers c = Some h →
      ∃ k : nat, (Eff.ticks w ≤ k < Eff.ticks w')%nat ∧ issued_at env k (Eff.bearer h).

(** A computation keeps tokens fresh from whatever state it starts in. *)
Definition keeps_fresh (env : Eff.environment) {L A} (m : Eff.M L A) : Prop :=
  ∀ s, fresh_tokens env (snd s) (snd (snd (m s))).

(** The world with another set of files. *)
Definition with_disk (d : gset string) (w : Eff.world) : Eff.world :=
  {| Eff.disk := d; Eff.calls := Eff.calls w; Eff.ticks := Eff.ticks w |}.

(** A form field that was not sent or was sent empty. *)
Definition blank (o : option string) : Prop := o = None ∨ o = Some "".

(** The request fails one of the checks of the route handler. *)
Definition violates (req : Server.request) : Prop :=
  match Server.req_files req with
  | None => True
  | Some fs =>
      match Server.image fs, Server.video fs with
      | Some i, Some v =>
          Server.size i > 10 * Server.MiB ∨ Server.size v > 100 * Server.MiB ∨
          blank (Server.character_orientation (Server.req_body req)) ∨
          blank (Server.mode (Server.req_body req))
      | _, _ => True
      end
  end.

(** The request passes every check of the route handler, with these
    two files. *)
Definition passes (req : Server.request) (i v : Server.file) : Prop :=
  Server.req_files req = Some {| Server.image := Some i; Server.video := Some v |} ∧
  Server.size i ≤ 10 * Server.MiB ∧ Server.size v ≤ 100 * Server.MiB ∧
  ¬ blank (Server.character_orientation (Server.req_body req)) ∧
  ¬ blank (Server.mode (Server.req_body req)).

(** [taskData.task_result?.videos?.[0]?.url] *)
Definition video_url (taskData : Js.value) : Js.value :=
  Js.get_opt (Js.first_opt (Js.get_opt (Js.get_opt taskData "task_result") "videos")) "url".

(** A name that is one path segment of the static route as it stands:
    not empty, without separator or NUL, not starting with a dot, and
    without a .. between backslashes. *)
Definition plain_name (name : string) : Prop :=
  name ≠ "" ∧ no_slash name = true ∧ Server.has_nul name = false ∧
  Server.starts_with_dot name = false ∧ Server.up_marker name = false.

(** The name with every percent sign escaped, as a URL has to carry it. *)
Fixpoint escape_percent (name : string) : string :=
  match name with
  | EmptyString => EmptyString
  | String c rest =>
      if Ascii.eqb c "%" then "%25" +:+ escape_percent rest
      else String c (escape_percent rest)
  end.

(** A path segment that path.normalize keeps. *)
Definition kept_segment (seg : string) : Prop :=
  seg ≠ "" ∧ seg ≠ "." ∧ no_slash seg = true.

(** A path segment that path.normalize keeps and that does not lead
    upwards. *)
Definition proper_segment (seg : string) : Prop :=
  seg ≠ "" ∧ seg ≠ "." ∧ seg ≠ ".." ∧ no_slash seg = true.

(** The download is answered in JSON with this status and this
    message, and success false. *)
Definition answered (run : option Server.reply * Eff.world) (st : Z) (msg : string) : Prop :=
  ∃ r, fst run = Some (Server.Json r) ∧
       Server.status r = st ∧
       Js.get_opt (Server.json r) "success" = Js.Bool false ∧
       Js.get_opt (Server.json r) "message" = Js.Str msg.

(** Nothing exists at the path of the logo. *)
Definition logo_absent (cfg : Eff.config) (env : Eff.environment) (w : Eff.world) : Prop :=
  Server.on_disk cfg (Server.LOGO_PATH cfg) w = false ∧
  Server.is_directory cfg env (Server.LOGO_PATH cfg) w = false.

(** The world once the headers have been signed, with two readings of
    the clock, and the status query, and nothing else, has been made. *)
Definition after_status_query (h : Eff.headers) (taskId : string) (w : Eff.world) : Eff.world :=
  {| Eff.disk := Eff.disk w;
     Eff.calls := Eff.calls w ++ [Eff.KlingGet h taskId];
     Eff.ticks := S (S (Eff.ticks w)) |}.

(** The world after an upload to the remote store has been started. *)
Definition after_put (key contentType : string) (w : Eff.world) : Eff.world :=
  {| Eff.disk := Eff.disk w;
     Eff.calls := Eff.calls w ++ [Eff.S3Put key contentType];
     Eff.ticks := S (Eff.ticks w) |}.

(** What the generation request of a submission says: the two URLs the
    remote store handed out, the form fields as they came, and the
    defaults of the optional ones. *)
Definition describes (p : Js.value) (b : Server.body) (imageUrl videoUrl : string) : Prop :=
  Js.get_opt p "image_url" = Js.Str imageUrl ∧
  Js.get_opt p "video_url" = Js.Str videoUrl ∧
  Js.get_opt p "character_orientation"
    = Server.str_or_undefined (Server.character_orientation b) ∧
  Js.get_opt p "mode" = Server.str_or_undefined (Server.mode b) ∧
  Js.get_opt p "keep_original_sound"
    = Js.Str (default "yes" (Server.keep_original_sound b)) ∧
  Js.get_opt p "prompt"
    = match Server.prompt b with
      | Some s => if String.eqb s "" then Js.Undefined else Js.Str s
      | None => Js.Undefined
      end.

(** The outbound calls a submission can have made, in order: the upload
    of the image, the upload of the video, the generation request. *)
Inductive submission_calls (env : Eff.environment) (b : Server.body) (i v : Server.file)
    : list Eff.call → Prop :=
| no_call : submission_calls env b i v []
| image_put (t1 : N) :
    submission_calls env b i v
      [Eff.S3Put (Naming.s3_key t1 (Server.originalname i)) (Server.mimetype i)]
| both_put (t1 t2 : N) :
    submission_calls env b i v
      [Eff.S3Put (Naming.s3_key t1 (Server.originalname i)) (Server.mimetype i);
       Eff.S3Put (Naming.s3_key t2 (Server.originalname v)) (Server.mimetype v)]
| request_sent (t1 t2 : N) (imageUrl videoUrl : string) (h : Eff.headers) (p : Js.value) :
    Eff.getSignedUrl env (Naming.s3_key t1 (Server.originalname i)) = Js.Normal imageUrl →
    Eff.getSignedUrl env (Naming.s3_key t2 (Server.originalname v)) = Js.Normal videoUrl →
    describes p b imageUrl videoUrl →
    submission_calls env b i v
      [Eff.S3Put (Naming.s3_key t1 (Server.originalname i)) (Server.mimetype i);
       Eff.S3Put (Naming.s3_key t2 (Server.originalname v)) (Server.mimetype v);
       Eff.KlingPost h p].

(** The call is the generation request. *)
Definition is_generation_request (c : option Eff.call) : Prop :=
  ∃ h p, c = Some (Eff.KlingPost h p).

(** A file as the upload stage hands it to the handler: in the slot of
    its field, below the size limit, stored under uploads/ with a
    generated name, and on the disk. *)
Definition well_stored (cfg : Eff.config) (env : Eff.environment) (field : string)
    (f : Server.file) (w : Eff.world) : Prop :=
  Server.fieldname f = field ∧
  Server.size f < Server.fileSize ∧
  (∃ now rnd, Server.path f
              = "uploads/" +:+ Naming.filename (Eff.extname env) now rnd (Server.originalname f)) ∧
  Server.on_disk cfg (Server.path f) w = true.

(** The file is what the upload stage made of one of these parts. *)
Definition from_part (parts : list Server.entry) (f : Server.file) : Prop :=
  ∃ p, Server.FilePart p ∈ parts ∧
       Server.fieldname f = Server.part_field p ∧
       Server.originalname f = Server.part_originalname p ∧
       Server.mimetype f = Server.part_mimetype p ∧
       Server.size f = Server.part_size p.

(** Both slots of req.files hold files made of these parts, where they
    hold one. *)
Definition slots_from (parts : list Server.entry) (fs : Server.files) : Prop :=
  (∀ f, Server.image fs = Some f → from_part parts f) ∧
  (∀ f, Server.video fs = Some f → from_part parts f).

(** Both slots of req.files hold well stored files, where they hold one. *)
Definition slots_well_stored (cfg : Eff.config) (env : Eff.environment)
    (fs : Server.files) (w : Eff.world) : Prop :=
  (∀ f, Server.image fs = Some f → well_stored cfg env "image" f w) ∧
  (∀ f, Server.video fs = Some f → well_stored cfg env "video" f w).

(** The number of members of the JSON object of an answer. *)
Definition members_count (r : Server.res) : nat :=
  match Server.json r with
  | Js.Obj members => length members
  | _ => 0%nat
  end.

(** The answer of the task route to what the external API said. *)
Definition task_answer (result : Eff.axios_result) (r : Server.res) : Prop :=
  match result with
  | Eff.Answer answer =>
      match Js.get answer "data" with
      | Js.Normal data =>
          r = {| Server.status := 200;
                 Server.json := Js.Obj [("success", Js.Bool true); ("data", data)] |}
      | Js.Throw _ =>
          Server.status r = 500 ∧ Js.get_opt (Server.json r) "success" = Js.Bool false
      end
  | Eff.HttpError st data =>
      Js.get_opt (Server.json r) "success" = Js.Bool false ∧
      if Js.truthy data then
        Server.status r = (if st =? 0 then 500 else st) ∧
        Js.get_opt (Server.json r) "message"
          = Server.or_else (Js.get_opt data "message") (Js.Str "Failed to fetch task status") ∧
        Js.get_opt (Server.json r) "code" = Js.get_opt data "code"
      else Server.status r = 500
  | Eff.NetError msg =>
      Server.status r = 500 ∧
      Js.get_opt (Server.json r) "success" = Js.Bool false ∧
      Js.get_opt (Server.json r) "message"
        = Js.Str (if String.eqb msg "" then "Internal server error" else msg)
  end.

(** The two temporary files of a download, by the clock readings their
    names are made from. *)
Definition temp_input (cfg : Eff.config) (taskId : string) (t : N) : string :=
  Server.path_join (Server.uploadsDir cfg)
    ("temp-input-" +:+ taskId +:+ "-" +:+ Naming.num_to_string t +:+ ".mp4").

Definition temp_output (cfg : Eff.config) (taskId : string) (t : N) : string :=
  Server.path_join (Server.uploadsDir cfg)
    ("temp-output-" +:+ taskId +:+ "-" +:+ Naming.num_to_string t +:+ ".mp4").





(** * Sample configurations, surroundings and requests *)

Definition localhost_request : Server.http_request :=
  {| Server.method := "GET";
     Server.url_path := "/api/health";
     Server.origin := Some "http://localhost:3000";
     Server.authorization := None;
     Server.json_error := None |}.

Definition sample_config : Eff.config :=
  {| Eff.KLING_API_BASE := "https://api.klingai.com";
     Eff.KLING_ACCESS_KEY := Some "access-key";
     Eff.KLING_SECRET_KEY := Some "secret-key";
     Eff.env_S3_ENABLED := Some "true";
     Eff.env_NODE_ENV := None;
     Eff.cwd := "/srv/backend";
     Eff.dirname := "/srv/backend" |}.

Definition empty_world : Eff.world :=
  {| Eff.disk := ∅; Eff.calls := []; Eff.ticks := 0%nat |}.

(** Stands in for path.extname on plain names such as [clip.mp4]. *)
Fixpoint suffix_from_last_dot (s : string) : string :=
  match s with
  | EmptyString => EmptyString
  | String c rest =>
      match suffix_from_last_dot rest with
      | EmptyString => if Ascii.eqb c "." then s else EmptyString
      | later => later
      end
  end.

(** Surroundings in which every clock reading falls into the same
    millisecond, successive random draws differ, and every remote peer
    answers favourably. *)
Definition same_millisecond : Eff.environment :=
  {| Eff.date_now := λ _, 1700000000000%N;
     Eff.math_random := λ k, N.of_nat k;
     Eff.extname := suffix_from_last_dot;
     Eff.s3_send := λ _, None;
     Eff.getSignedUrl := λ key, Js.Normal ("https://store.example/" +:+ key);
     Eff.axios := λ _, Eff.Answer
       (Js.Obj [("data", Js.Obj [("task_id", Js.Str "t-1");
                                 ("task_status", Js.Str "submitted")])]);
     Eff.execFile := λ _, Eff.ToolOk;
     Eff.writeFile_ok := λ _, true;
     Eff.setHeader_ok := λ _, true;
     Eff.isDirectory := λ _, false;
     Eff.createPrivateKey := λ _, false |}.

Definition submission (image_size video_size : Z) : Server.incoming :=
  {| Server.in_parts := Some
       [ Server.FilePart
           {| Server.part_field := "image"; Server.part_originalname := "face.png";
              Server.part_mimetype := "image/png"; Server.part_size := image_size |};
         Server.FilePart
           {| Server.part_field := "video"; Server.part_originalname := "clip.mp4";
              Server.part_mimetype := "video/mp4"; Server.part_size := video_size |} ];
     Server.in_body :=
       {| Server.prompt := None;
          Server.character_orientation := Some "image";
          Server.mode := Some "std";
          Server.keep_original_sound := None |};
     Server.in_json := None |}.

(** The request object the handler would see for a video of this size. *)
Definition oversized_request (video_size : Z) : Server.request :=
  {| Server.req_files := Some
       {| Server.image := Some
            {| Server.fieldname := "image"; Server.originalname := "face.png";
               Server.mimetype := "image/png"; Server.size := 1000;
               Server.path := "uploads/1700000000000-1.png" |};
          Server.video := Some
            {| Server.fieldname := "video"; Server.originalname := "clip.mp4";
               Server.mimetype := "video/mp4"; Server.size := video_size;
               Server.path := "uploads/1700000000000-3.mp4" |} |};
     Server.req_body :=
       {| Server.prompt := None;
          Server.character_orientation := Some "image";
          Server.mode := Some "std";
          Server.keep_original_sound := None |} |}.

(** An environment in which the two credentials are as given. *)
Definition with_credentials (access secret : option string) : Eff.config :=
  {| Eff.KLING_API_BASE := "https://api.klingai.com";
     Eff.KLING_ACCESS_KEY := access;
     Eff.KLING_SECRET_KEY := secret;
     Eff.env_S3_ENABLED := Some "true";
     Eff.env_NODE_ENV := None;
     Eff.cwd := "/srv/backend";
     Eff.dirname := "/srv/backend" |}.

Definition store_disabled : Eff.config :=
  {| Eff.KLING_API_BASE := "https://api.klingai.com";
     Eff.KLING_ACCESS_KEY := Some "access-key";
     Eff.KLING_SECRET_KEY := Some "secret-key";
     Eff.env_S3_ENABLED := Some "false";
     Eff.env_NODE_ENV := None;
     Eff.cwd := "/srv/backend";
     Eff.dirname := "/srv/backend" |}.

(** Surroundings in which the external API answers every request with
    [status_body], the video host delivers, and everything else
    succeeds. *)
Definition answering (status_body : Js.value) : Eff.environment :=
  {| Eff.date_now := λ _, 1700000000000%N;
     Eff.math_random := λ k, N.of_nat k;
     Eff.extname := suffix_from_last_dot;
     Eff.s3_send := λ _, None;
     Eff.getSignedUrl := λ key, Js.Normal ("https://store.example/" +:+ key);
     Eff.axios := λ cs,
       match last cs with
       | Some (Eff.VideoGet _) => Eff.Answer (Js.Str "video bytes")
       | _ => Eff.Answer status_body
       end;
     Eff.execFile := λ _, Eff.ToolOk;
     Eff.writeFile_ok := λ _, true;
     Eff.setHeader_ok := λ _, true;
     Eff.isDirectory := λ _, false;
     Eff.createPrivateKey := λ _, false |}.

Definition task_in_progress : Js.value :=
  Js.Obj [("code", Js.Num 0);
          ("data", Js.Obj [("task_id", Js.Str "task-1");
                           ("task_status", Js.Str "processing")])].

Definition task_succeeded : Js.value :=
  Js.Obj [("code", Js.Num 0);
          ("data", Js.Obj [("task_id", Js.Str "task-1");
                           ("task_status", Js.Str "succeed");
                           ("task_result",
                            Js.Obj [("videos",
                                     Js.Arr [Js.Obj [("url", Js.Str "https://cdn.example/v.mp4")]])])])].

Definition sample_headers : Eff.headers :=
  {| Eff.content_type := "application/json";
     Eff.bearer :=
       {| Jwt.alg := "HS256"; Jwt.typ := "JWT";
          Jwt.claims := {| Jwt.iss := "access-key"; Jwt.exp := 1700001800; Jwt.nbf := 1699999995 |};
          Jwt.iat := 1700000000;
          Jwt.signing_key := "secret-key" |} |}.

(** A disk that holds the logo and nothing else. *)
Definition logo_only : Eff.world :=
  {| Eff.disk := {[ "/srv/backend/assets/logo.png" ]}; Eff.calls := []; Eff.ticks := 0%nat |}.

Definition anonymous_fetch (name : string) : Server.http_request :=
  {| Server.method := "GET";
     Server.url_path := "/uploads/" +:+ name;
     Server.origin := None;
     Server.authorization := None;
     Server.json_error := None |}.

(** The disk while a submission is being handled: the logo and one
    stored upload. *)
Definition one_upload : Eff.world :=
  {| Eff.disk := {[ "/srv/backend/assets/logo.png";
                    "/srv/backend/uploads/1700000000000-1.png" ]};
     Eff.calls := [];
     Eff.ticks := 2%nat |}.


(** A submission as the upload stage hands it over. *)
Definition stored_image : Server.file :=
  {| Server.fieldname := "image"; Server.originalname := "face.png";
     Server.mimetype := "image/png"; Server.size := 1000;
     Server.path := "uploads/1700000000000-1.png" |}.

Definition stored_video : Server.file :=
  {| Server.fieldname := "video"; Server.originalname := "clip.mp4";
     Server.mimetype := "video/mp4"; Server.size := 2000;
     Server.path := "uploads/1700000000000-3.mp4" |}.

Definition stored_submission : Server.request :=
  {| Server.req_files := Some
       {| Server.image := Some stored_image; Server.video := Some stored_video |};
     Server.req_body :=
       {| Server.prompt := None;
          Server.character_orientation := Some "image";
          Server.mode := Some "std";
          Server.keep_original_sound := None |} |}.

(** The disk with the two files of [stored_submission]. *)
Definition two_uploads : Eff.world :=
  {| Eff.disk := {[ "/srv/backend/uploads/1700000000000-1.png";
                    "/srv/backend/uploads/1700000000000-3.mp4" ]};
     Eff.calls := [];
     Eff.ticks := 4%nat |}.

(** The server started from the directory above its own. *)
Definition started_elsewhere : Eff.config :=
  {| Eff.KLING_API_BASE := "https://api.klingai.com";
     Eff.KLING_ACCESS_KEY := Some "access-key";
     Eff.KLING_SECRET_KEY := Some "secret-key";
     Eff.env_S3_ENABLED := Some "true";
     Eff.env_NODE_ENV := None;
     Eff.cwd := "/srv";
     Eff.dirname := "/srv/backend" |}.

(** Surroundings in which the first reading of the clock is the last
    millisecond of a second and every reading comes a millisecond after
    the one before. *)
Definition second_boundary : Eff.environment :=
  {| Eff.date_now := λ k, (1700000000999 + N.of_nat k)%N;
     Eff.math_random := λ k, N.of_nat k;
     Eff.extname := suffix_from_last_dot;
     Eff.s3_send := λ _, None;
     Eff.getSignedUrl := λ key, Js.Normal ("https://store.example/" +:+ key);
     Eff.axios := λ _, Eff.Answer
       (Js.Obj [("data", Js.Obj [("task_id", Js.Str "t-1");
                                 ("task_status", Js.Str "submitted")])]);
     Eff.execFile := λ _, Eff.ToolOk;
     Eff.writeFile_ok := λ _, true;
     Eff.setHeader_ok := λ _, true;
     Eff.isDirectory := λ _, false;
     Eff.createPrivateKey := λ _, false |}.

(** * Properties *)

(** ** Decimal strings *)

Section Decimal.
Import Naming.

Lemma pretty_N_char_digit (x : N) : is_digit (pretty_N_char x) = true.
Proof. destruct x as [|p]; [reflexivity|]. by repeat (destruct p as [p|p|]; try reflexivity). Qed.

Lemma pretty_N_go_digits (x : N) (s : string) :
    all_digits s = true → all_digits (pretty_N_go x s) = true.
Proof.
    revert s. induction (N.lt_wf_0 x) as [x _ IH]; intros s Hs.
    destruct (decide (x = 0)%N) as [->|Hx]; [by rewrite pretty_N_go_0|].
    rewrite pretty_N_go_step by lia.
    apply IH; [apply N.div_lt; lia|].
    simpl. by rewrite pretty_N_char_digit, Hs.
Qed.

Lemma num_to_string_digits (n : N) : all_digits (num_to_string n) = true.
Proof.
    unfold num_to_string, pretty, pretty_N.
    case_decide; [reflexivity|]. by apply pretty_N_go_digits.
Qed.

Lemma append_empty_l (x : string) : "" +:+ x = x.
Proof. reflexivity. Qed.

Lemma append_cons (c : ascii) (a x : string) : String c a +:+ x = String c (a +:+ x).
Proof. reflexivity. Qed.

(** A run of digits followed by something that does not start with a
    digit splits in one way only. *)
Lemma digits_split (a b x y : string) :
    all_digits a = true → all_digits b = true →
    no_leading_digit x = true → no_leading_digit y = true →
    a +:+ x = b +:+ y → a = b ∧ x = y.
Proof.
    revert b. induction a as [|c a IH]; intros [|d b] Ha Hb Hx Hy Heq;
      rewrite ?append_empty_l, ?append_cons in Heq; simpl in *.
    - done.
    - subst x. simpl in Hx. apply andb_prop in Hb as [Hd _].
      by rewrite Hd in Hx.
    - subst y. simpl in Hy. apply andb_prop in Ha as [Hc _].
      by rewrite Hc in Hy.
    - apply andb_prop in Ha as [_ Ha]. apply andb_prop in Hb as [_ Hb].
      injection Heq as -> Heq.
      destruct (IH b Ha Hb Hx Hy Heq) as [-> ->]. done.
Qed.

Lemma num_to_string_inj (n m : N) : num_to_string n = num_to_string m → n = m.
Proof. apply pretty_N_inj. Qed.

(** [n-x] and [m-y] agree only when both parts agree. *)
Lemma dash_split (n m : N) (x y : string) :
    num_to_string n +:+ "-" +:+ x = num_to_string m +:+ "-" +:+ y → n = m ∧ x = y.
Proof.
    intros Heq.
    apply digits_split in Heq as [Hn Hxy];
      [|apply num_to_string_digits|apply num_to_string_digits|reflexivity|reflexivity].
    split; [by apply num_to_string_inj|].
    rewrite !append_cons, !append_empty_l in Hxy. by injection Hxy.
Qed.
End Decimal.

(** ** Origins *)

Section Origins.
Import Cors.

Lemma includes_elem_of (xs : list string) (x : string) :
    includes xs x = true ↔ x ∈ xs.
Proof.
    unfold includes. rewrite existsb_exists. setoid_rewrite <-list_elem_of_In.
    split.
    - intros (y & Hy & Heq). apply String.eqb_eq in Heq. by subst.
    - intros Hx. exists x. split; [done|apply String.eqb_refl].
Qed.

Lemma origin_some (s : string) :
    s ≠ "" →
    origin (Some s) = if includes allowedOrigins s then Allow else Reject "Not allowed by CORS".
Proof.
    intros Hs. unfold origin.
    destruct (String.eqb_spec s "") as [->|_]; [done|reflexivity].
Qed.
End Origins.

Lemma app_allow (cfg : Eff.config) (env : Eff.environment)
    (r : Server.http_request) (w : Eff.world) :
  Cors.origin (Server.origin r) = Cors.Allow → accepted cfg env r w = true.
Proof.
  unfold accepted, Server.app. intros ->.
  destruct (String.eqb _ "OPTIONS"); [reflexivity|].
  destruct (Server.json_error r); [reflexivity|].
  destruct (_ || _); [|reflexivity].
  destruct (Server.below_mount _); [|reflexivity].
  destruct (Server.express_static _ _ _ _); reflexivity.
Qed.

Lemma app_reject (cfg : Eff.config) (env : Eff.environment)
    (r : Server.http_request) (w : Eff.world) (msg : string) :
  Cors.origin (Server.origin r) = Cors.Reject msg →
  Server.app cfg env r w = Server.Refused (Server.express_error msg).
Proof. unfold Server.app. intros ->. reflexivity. Qed.

(** C7.  A request without Origin header is let through.  A request
    with a non-empty Origin header is let through exactly when the
    header is, character for character, one of the entries of
    [allowedOrigins]; otherwise the callback fails with "Not allowed by
    CORS" and the request is refused. *)
Theorem cors_allowlist (cfg : Eff.config) (env : Eff.environment)
    (r : Server.http_request) (w : Eff.world) :
  (Server.origin r = None → accepted cfg env r w = true) ∧
  (∀ s : string, Server.origin r = Some s → s ≠ "" →
     (accepted cfg env r w = true ↔ s ∈ Cors.allowedOrigins) ∧
     (Cors.origin (Some s) = Cors.Allow ↔ s ∈ Cors.allowedOrigins) ∧
     (s ∉ Cors.allowedOrigins →
        Cors.origin (Some s) = Cors.Reject "Not allowed by CORS" ∧
        Server.app cfg env r w = Server.Refused (Server.express_error "Not allowed by CORS"))).
Proof.
  split.
  - intros Ho. apply app_allow. rewrite Ho. reflexivity.
  - intros s Ho Hs.
    pose proof (origin_some s Hs) as Horigin.
    pose proof (includes_elem_of Cors.allowedOrigins s) as Hin.
    destruct (Cors.includes Cors.allowedOrigins s).
    + assert (s ∈ Cors.allowedOrigins) as Hs' by (apply Hin; reflexivity).
      split; [|split].
      * split; [intros _; exact Hs'|]. intros _. apply app_allow. by rewrite Ho.
      * split; [intros _; exact Hs'|]. intros _. exact Horigin.
      * intros Hn. destruct (Hn Hs').
    + assert (s ∉ Cors.allowedOrigins) as Hs'.
      { intros Hs'. apply Hin in Hs'. discriminate Hs'. }
      assert (Server.app cfg env r w = Server.Refused (Server.express_error "Not allowed by CORS"))
        as Happ by (apply app_reject; by rewrite Ho).
      split; [|split].
      * split; [|intros H; destruct (Hs' H)].
        unfold accepted. rewrite Happ. intros H. discriminate H.
      * split; [|intros H; destruct (Hs' H)].
        rewrite Horigin. intros H. discriminate H.
      * intros _. split; [exact Horigin|exact Happ].
Qed.

Lemma cors_allowlist_witness :
  accepted sample_config same_millisecond localhost_request empty_world = true.
Proof.
  destruct (cors_allowlist sample_config same_millisecond localhost_request empty_world) as [_ H].
  destruct (H "http://localhost:3000" eq_refl ltac:(discriminate)) as [Hacc _].
  apply Hacc. unfold Cors.allowedOrigins. repeat constructor.
Defined.

(** ** Names of uploads and keys of remote objects *)

Section Names.
Import Naming.

Lemma append_assoc (a b c : string) : (a +:+ b) +:+ c = a +:+ (b +:+ c).
Proof. induction a as [|x a IH]; [reflexivity|]. rewrite !append_cons. by rewrite IH. Qed.

Lemma filename_unfold (ext : string → string) (now rnd : N) (o : string) :
    filename ext now rnd o
    = num_to_string now +:+ "-" +:+ (num_to_string rnd +:+ ext o).
Proof. unfold filename. cbv zeta. by rewrite !append_assoc. Qed.

Lemma s3_key_unfold (now : N) (f : string) :
    s3_key now f = "kling-uploads/" +:+ (num_to_string now +:+ "-" +:+ f).
Proof. reflexivity. Qed.

Lemma extension_no_digit (e : string) :
    (e = "" ∨ ∃ r, e = String "." r) → no_leading_digit e = true.
Proof. intros [->|[r ->]]; reflexivity. Qed.
End Names.

(** C8, as stated, fails: two submissions with different payloads that
    are served within one millisecond put their files under the same
    remote keys. *)
Lemma same_millisecond_same_keys :
  submission 1000 2000 ≠ submission 3000 4000 ∧
  let w1 := snd (Server.post_generate sample_config same_millisecond
                   (submission 1000 2000) empty_world) in
  let w2 := snd (Server.post_generate sample_config same_millisecond
                   (submission 3000 4000) w1) in
  s3_keys (Eff.calls w2)
  = [ "kling-uploads/1700000000000-face.png"; "kling-uploads/1700000000000-clip.mp4";
      "kling-uploads/1700000000000-face.png"; "kling-uploads/1700000000000-clip.mp4" ].
Proof. split; [discriminate|]. vm_compute. reflexivity. Qed.

(** C8, amended.  Two stored upload names are equal exactly when they
    were made from the same clock reading (in milliseconds), the same
    random draw and the same extension; two remote keys are equal
    exactly when they were made from the same clock reading and the
    same display name.  Names and keys made in different milliseconds
    therefore never coincide. *)
Theorem names_and_keys_coincide_iff
    (ext : string → string)
    (Hext : ∀ p, ext p = "" ∨ ∃ r, ext p = String "." r)
    (now1 rnd1 now2 rnd2 : N) (o1 o2 : string) :
  (Naming.filename ext now1 rnd1 o1 = Naming.filename ext now2 rnd2 o2
   ↔ now1 = now2 ∧ rnd1 = rnd2 ∧ ext o1 = ext o2) ∧
  (Naming.s3_key now1 o1 = Naming.s3_key now2 o2 ↔ now1 = now2 ∧ o1 = o2).
Proof.
  split; split.
  - rewrite !filename_unfold. intros Heq.
    apply dash_split in Heq as [-> Heq].
    apply digits_split in Heq as [Hr He];
      [|apply num_to_string_digits|apply num_to_string_digits
       |apply extension_no_digit, Hext|apply extension_no_digit, Hext].
    apply num_to_string_inj in Hr. done.
  - intros (-> & -> & He). unfold Naming.filename. cbv zeta. by rewrite He.
  - rewrite !s3_key_unfold. intros Heq.
    apply (inj (String.append "kling-uploads/")) in Heq.
    by apply dash_split in Heq.
  - by intros [-> ->].
Qed.

Lemma names_and_keys_coincide_iff_witness :
  Naming.s3_key 1700000000000 "clip.mp4" = Naming.s3_key 1700000000001 "clip.mp4"
  ↔ 1700000000000%N = 1700000000001%N ∧ "clip.mp4" = "clip.mp4".
Proof.
  apply (names_and_keys_coincide_iff (λ _, ".mp4")
           (λ _, or_intror (ex_intro _ "mp4" eq_refl))
           1700000000000 0 1700000000001 0 "clip.mp4" "clip.mp4").
Defined.

(** ** Signed credentials *)

Section Fresh.
Import Js Eff Server.
Variable cfg : config.
Variable env : environment.

Lemma fresh_refl (w : world) : fresh_tokens env w w.
Proof.
  split; [lia|]. exists []. split; [by rewrite app_nil_r|].
  intros c h Hc. by apply elem_of_nil in Hc.
Qed.

Lemma fresh_trans (w1 w2 w3 : world) :
  fresh_tokens env w1 w2 → fresh_tokens env w2 w3 → fresh_tokens env w1 w3.
Proof.
  intros (Ht1 & a1 & Hc1 & H1) (Ht2 & a2 & Hc2 & H2).
  split; [lia|]. exists (a1 ++ a2)%list. split.
  - by rewrite Hc2, Hc1, app_assoc.
  - intros c h [Hc|Hc]%elem_of_app Hh.
    + destruct (H1 c h Hc Hh) as (k & Hk & Hi). exists k. split; [lia|done].
    + destruct (H2 c h Hc Hh) as (k & Hk & Hi). exists k. split; [lia|done].
Qed.

(** A step that leaves the calls alone and does not turn the clock back. *)
Lemma fresh_same_calls (w w' : world) :
  calls w' = calls w → (ticks w ≤ ticks w')%nat → fresh_tokens env w w'.
Proof.
  intros Hc Ht. split; [done|]. exists []. split; [by rewrite Hc, app_nil_r|].
  intros c h Hin. by apply elem_of_nil in Hin.
Qed.

Context {L : Type}.

Lemma keeps_ret {A} (a : A) : keeps_fresh env (ret a : M L A).
Proof. intros s. apply fresh_refl. Qed.

Lemma keeps_throw {A} (e : error) : keeps_fresh env (throw e : M L A).
Proof. intros s. apply fresh_refl. Qed.

Lemma keeps_lift {A} (c : completion string A) : keeps_fresh env (lift c : M L A).
Proof. destruct c; [apply keeps_ret|apply keeps_throw]. Qed.

Lemma keeps_bind {A B} (m : M L A) (k : A → M L B) :
  keeps_fresh env m → (∀ a, keeps_fresh env (k a)) → keeps_fresh env (x ← m; k x).
Proof.
  intros Hm Hk s. unfold mbind, M_bind, bind.
  specialize (Hm s). destruct (m s) as [[a|e] s']; simpl in *; [|done].
  eapply fresh_trans; [exact Hm|apply Hk].
Qed.

Lemma keeps_try_catch {A} (m : M L A) (h : error → M L A) :
  keeps_fresh env m → (∀ e, keeps_fresh env (h e)) → keeps_fresh env (try_catch m h).
Proof.
  intros Hm Hh s. unfold try_catch.
  specialize (Hm s). destruct (m s) as [[a|e] s']; simpl in *; [done|].
  eapply fresh_trans; [exact Hm|apply Hh].
Qed.

Lemma keeps_for_of {A} (xs : list A) (body : A → M L unit) :
  (∀ x, keeps_fresh env (body x)) → keeps_fresh env (for_of xs body).
Proof.
  intros Hb. induction xs as [|x xs IH]; simpl; [apply keeps_ret|].
  apply (keeps_bind (body x) (λ _, for_of xs body)); [apply Hb|intros _; apply IH].
Qed.

Lemma keeps_get_world : keeps_fresh env (get_world : M L world).
Proof. intros s. apply fresh_refl. Qed.

Lemma keeps_get_local : keeps_fresh env (get_local : M L L).
Proof. intros s. apply fresh_refl. Qed.

Lemma keeps_set_local (l : L) : keeps_fresh env (set_local l).
Proof. intros s. apply fresh_refl. Qed.

Lemma keeps_set_disk (d : gset string) : keeps_fresh env (set_disk d : M L unit).
Proof. intros s. by apply fresh_same_calls. Qed.

Lemma keeps_tick : keeps_fresh env (tick : M L nat).
Proof. intros s. apply fresh_same_calls; simpl; [done|lia]. Qed.

Lemma keeps_record (c : call) :
  kling_headers c = None → keeps_fresh env (record c : M L unit).
Proof.
  intros Hc s. split; [done|]. exists [c]. split; [done|].
  intros c' h ->%list_elem_of_singleton Hh. congruence.
Qed.

End Fresh.

Section Signing.
Import Js Eff Server.
Variable cfg : config.
Variable env : environment.
Context {L : Type}.

(** Math.floor(ms / 1000) is the second the reading falls into. *)
Lemma in_second_seconds (ms : N) : in_second ms (Jwt.seconds ms).
Proof.
  unfold in_second, Jwt.seconds.
  pose proof (Z.div_mod (Z.of_N ms) 1000 ltac:(lia)) as Hdiv.
  pose proof (Z.mod_pos_bound (Z.of_N ms) 1000 ltac:(lia)) as Hmod.
  lia.
Qed.

Lemma in_second_unique (ms : N) (t t' : Z) : in_second ms t → in_second ms t' → t = t'.
Proof. unfold in_second. lia. Qed.

(** Signing reads the clock once for the payload and, when the key is
    accepted, once more for the issued-at claim; it touches nothing
    else, whether it returns a token or throws. *)
Lemma generateJwtToken_state (s : L * world) :
  snd (generateJwtToken cfg env s)
  = (fst s, match fst (generateJwtToken cfg env s) with
            | Normal _ => ticked (ticked (snd s))
            | Throw _ => ticked (snd s)
            end).
Proof.
  destruct s as [l w].
  unfold generateJwtToken, jwt_sign, Date_now, tick, mbind, M_bind, bind, ret, lift. simpl.
  destruct (KLING_ACCESS_KEY cfg); simpl; [|reflexivity].
  destruct (KLING_SECRET_KEY cfg); simpl; [|reflexivity].
  destruct (Jwt.check_key _ _); reflexivity.
Qed.

Lemma check_key_accepts (key : string) :
  Jwt.check_key (createPrivateKey env) key = Normal ()
  ↔ key ≠ "" ∧ createPrivateKey env key = false.
Proof.
  unfold Jwt.check_key.
  destruct (String.eqb_spec key "") as [->|Hne]; [split; [discriminate|by intros [[] _]]|].
  destruct (createPrivateKey env key); split; try discriminate; try done.
  by intros [_ [=]].
Qed.

(** The token that signing returns, when it returns one. *)
Lemma generateJwtToken_token (s s' : L * world) (tok : Jwt.token) :
  generateJwtToken cfg env s = (Normal tok, s') →
  ∃ access secret,
    KLING_ACCESS_KEY cfg = Some access ∧ KLING_SECRET_KEY cfg = Some secret ∧
    Jwt.trim secret ≠ "" ∧ createPrivateKey env (Jwt.trim secret) = false ∧
    tok = {| Jwt.alg := "HS256"; Jwt.typ := "JWT";
             Jwt.claims :=
               {| Jwt.iss := Jwt.trim access;
                  Jwt.exp := Jwt.currentTime (date_now env (ticks (snd s))) + 1800;
                  Jwt.nbf := Jwt.currentTime (date_now env (ticks (snd s))) - 5 |};
             Jwt.iat := Jwt.seconds (date_now env (S (ticks (snd s))));
             Jwt.signing_key := Jwt.trim secret |}.
Proof.
  destruct s as [l w].
  unfold generateJwtToken, jwt_sign, Date_now, tick, mbind, M_bind, bind, ret, lift. simpl.
  destruct (KLING_ACCESS_KEY cfg) as [access|]; simpl; [|discriminate].
  destruct (KLING_SECRET_KEY cfg) as [secret|]; simpl; [|discriminate].
  destruct (Jwt.check_key _ _) as [[]|msg] eqn:Hkey; simpl; [|discriminate].
  apply check_key_accepts in Hkey as [Hne Hpem].
  intros [= <- _]. exists access, secret. done.
Qed.

(** With both credentials set and a secret that is not blank and is
    not taken for a private key, signing returns a token. *)
Lemma generateJwtToken_returns (s : L * world) (access secret : string) :
  KLING_ACCESS_KEY cfg = Some access → KLING_SECRET_KEY cfg = Some secret →
  Jwt.trim secret ≠ "" → createPrivateKey env (Jwt.trim secret) = false →
  ∃ tok, generateJwtToken cfg env s = (Normal tok, (fst s, ticked (ticked (snd s)))).
Proof.
  intros Ha Hk Hne Hpem. destruct s as [l w].
  unfold generateJwtToken, jwt_sign, Date_now, tick, mbind, M_bind, bind, ret, lift. simpl.
  rewrite Ha, Hk. simpl.
  rewrite (proj2 (check_key_accepts (Jwt.trim secret)) (conj Hne Hpem)). simpl.
  by eexists.
Qed.

Lemma getAuthHeaders_state (s : L * world) :
  snd (getAuthHeaders cfg env s)
  = (fst s, match fst (getAuthHeaders cfg env s) with
            | Normal _ => ticked (ticked (snd s))
            | Throw _ => ticked (snd s)
            end).
Proof.
  unfold getAuthHeaders, mbind, M_bind, bind.
  pose proof (generateJwtToken_state s) as Hs.
  destruct (generateJwtToken cfg env s) as [[tok|e] s']; simpl in *; by rewrite Hs.
Qed.

Lemma getAuthHeaders_token (s s' : L * world) (h : headers) :
  getAuthHeaders cfg env s = (Normal h, s') →
  content_type h = "application/json" ∧
  generateJwtToken cfg env s = (Normal (bearer h), s').
Proof.
  unfold getAuthHeaders, mbind, M_bind, bind.
  destruct (generateJwtToken cfg env s) as [[tok|e] s1]; simpl; [|discriminate].
  unfold ret. intros [= <- <-]. done.
Qed.

(** An error thrown while the headers are built carries no response of
    a peer. *)
Lemma getAuthHeaders_error (s s' : L * world) (e : error) :
  getAuthHeaders cfg env s = (Throw e, s') → response e = None.
Proof.
  destruct s as [l w].
  unfold getAuthHeaders, generateJwtToken, jwt_sign, Date_now, tick, lift,
    mbind, M_bind, bind, ret, throw. simpl.
  destruct (KLING_ACCESS_KEY cfg); simpl; [|by intros [= <- _]].
  destruct (KLING_SECRET_KEY cfg); simpl; [|by intros [= <- _]].
  destruct (Jwt.check_key _ _); simpl; [discriminate|by intros [= <- _]].
Qed.

Lemma issued_at_signed (k : nat) (tok : Jwt.token) :
  Jwt.exp (Jwt.claims tok) = Jwt.currentTime (date_now env k) + 1800 →
  Jwt.nbf (Jwt.claims tok) = Jwt.currentTime (date_now env k) - 5 →
  Jwt.iat tok = Jwt.seconds (date_now env (S k)) →
  issued_at env k tok.
Proof.
  intros Hexp Hnbf Hiat. exists (Jwt.seconds (date_now env k)), (Jwt.seconds (date_now env (S k))).
  split; [apply in_second_seconds|]. split; [apply in_second_seconds|]. done.
Qed.

Lemma keeps_getAuthHeaders : keeps_fresh env (getAuthHeaders cfg env : M L headers).
Proof.
  intros s. rewrite getAuthHeaders_state. simpl.
  destruct (fst (getAuthHeaders cfg env s)); apply fresh_same_calls; simpl; (done || lia).
Qed.

(** Headers built and handed to a call of the external API at once, as
    every call site does. *)
Lemma keeps_signed_call {A} (c : headers → call) (k : headers → M L A) :
  (∀ h, kling_headers (c h) = Some h) →
  (∀ h, keeps_fresh env (k h)) →
  keeps_fresh env (h ← getAuthHeaders cfg env; record (c h);; k h).
Proof.
  intros Hc Hk s. unfold mbind, M_bind, bind.
  pose proof (getAuthHeaders_state s) as Hs.
  destruct (getAuthHeaders cfg env s) as [[h|e] s1] eqn:Hrun; simpl in Hs; subst s1.
  - apply getAuthHeaders_token in Hrun as [_ Hrun].
    apply generateJwtToken_token in Hrun as (access & secret & _ & _ & _ & _ & Htok).
    simpl. eapply fresh_trans; [|apply Hk].
    split; [simpl; lia|]. exists [c h]. split; [done|].
    intros c' h' ->%list_elem_of_singleton Hh. rewrite Hc in Hh. injection Hh as <-.
    exists (ticks (snd s)). split; [simpl; lia|].
    rewrite Htok. by apply issued_at_signed.
  - simpl. apply fresh_same_calls; simpl; [done|lia].
Qed.

End Signing.

Create HintDb keeps discriminated.

#[export] Hint Resolve keeps_ret keeps_throw keeps_lift keeps_get_world keeps_get_local
  keeps_set_local keeps_set_disk keeps_tick keeps_getAuthHeaders : keeps.

(** Walks through a computation built from the monad's operations. *)
Ltac keeps_step :=
  first
    [ progress intros
    | apply keeps_signed_call; [intros; reflexivity|]
    | apply keeps_record; reflexivity
    | solve [auto with keeps]
    | apply keeps_bind
    | apply keeps_try_catch
    | apply keeps_for_of
    | match goal with
      | |- keeps_fresh _ (match ?x with _ => _ end) => destruct x
      | |- keeps_fresh _ (if ?x then _ else _) => destruct x
      end ].

Ltac keeps := repeat keeps_step.

Section FreshHandlers.
Import Js Eff Server.
Variable cfg : config.
Variable env : environment.

Lemma keeps_unlink {L} (p : string) : keeps_fresh env (unlink cfg p : M L unit).
Proof. unfold unlink. keeps. Qed.

Lemma keeps_readFile {L} (p : string) : keeps_fresh env (readFile cfg p : M L unit).
Proof. unfold readFile. keeps. Qed.

Lemma keeps_stat {L} (p : string) : keeps_fresh env (stat cfg p : M L unit).
Proof. unfold stat. keeps. Qed.

Lemma keeps_existsSync {L} (p : string) : keeps_fresh env (existsSync cfg env p : M L bool).
Proof. unfold existsSync. keeps. Qed.

Lemma keeps_writeFile {L} (p : string) : keeps_fresh env (writeFile cfg env p : M L unit).
Proof. unfold writeFile. keeps. Qed.

Lemma keeps_Date_now {L} : keeps_fresh env (Date_now env : M L N).
Proof. unfold Date_now. keeps. Qed.

Lemma keeps_Math_random {L} : keeps_fresh env (Math_random env : M L N).
Proof. unfold Math_random. keeps. Qed.

Lemma keeps_await_axios {L} : keeps_fresh env (await_axios env : M L value).
Proof. unfold await_axios. keeps. Qed.

Hint Resolve keeps_unlink keeps_readFile keeps_stat keeps_existsSync keeps_writeFile
  keeps_Date_now keeps_Math_random keeps_await_axios : keeps.

Lemma keeps_uploadToS3 {L} (filePath fileName contentType : string) :
  keeps_fresh env (uploadToS3 cfg env filePath fileName contentType : M L string).
Proof. unfold uploadToS3. keeps. Qed.

Lemma keeps_cleanupFiles {L} (fs : list file) : keeps_fresh env (cleanupFiles cfg fs : M L unit).
Proof. unfold cleanupFiles. keeps. Qed.

Hint Resolve keeps_uploadToS3 keeps_cleanupFiles : keeps.

Lemma keeps_generate_handler (req : request) : keeps_fresh env (generate_handler cfg env req).
Proof. unfold generate_handler, generate_try, generate_catch. keeps. Qed.

Lemma keeps_task_handler (taskId : string) : keeps_fresh env (task_handler cfg env taskId).
Proof. unfold task_handler. keeps. Qed.

Lemma keeps_unlink_all (fs : list string) : keeps_fresh env (unlink_all cfg fs).
Proof. unfold unlink_all. keeps. Qed.

Lemma keeps_run_ffmpeg (i o : string) : keeps_fresh env (run_ffmpeg cfg env i o).
Proof. unfold run_ffmpeg. keeps. Qed.

Hint Resolve keeps_unlink_all keeps_run_ffmpeg : keeps.

Lemma keeps_download_handler (taskId : string) : keeps_fresh env (download_handler cfg env taskId).
Proof. unfold download_handler, download_try, download_catch. keeps. Qed.

Lemma keeps_listeners (ev : stream_event) : keeps_fresh env (listeners cfg ev).
Proof. destruct ev; unfold listeners, on_end, on_error; keeps. Qed.

Lemma keeps_upload_fields {L} (i : incoming) : keeps_fresh env (upload_fields cfg env i : M L upload_result).
Proof.
  unfold upload_fields. destruct (in_parts i) as [parts|]; [|keeps].
  apply keeps_bind; [|keeps].
  generalize ({| image := None; video := None |}) ([] : list file).
  induction parts as [|[p|msg] parts IH]; intros acc stored; simpl;
    [keeps| |unfold abort_upload; keeps].
  destruct (String.eqb (part_originalname p) ""); [apply IH|].
  destruct (negb _); [unfold abort_upload; keeps|].
  apply keeps_bind; [unfold store_part; keeps|]. intros [msg|f].
  - unfold abort_upload; keeps.
  - destruct (part_size p >=? fileSize); [unfold abort_upload; keeps|apply IH].
Qed.

End FreshHandlers.

Section Routes.
Import Js Eff Server.
Variable cfg : config.
Variable env : environment.

Lemma fresh_post_generate (i : incoming) (w : world) :
  fresh_tokens env w (snd (post_generate cfg env i w)).
Proof.
  unfold post_generate.
  destruct (express_json i); [apply fresh_refl|].
  pose proof (keeps_upload_fields cfg env (L:=unit) i ((), w)) as H1. simpl in H1.
  destruct (upload_fields cfg env i ((), w)) as [[[req|msg]|e] [u w1]]; simpl in *; try done.
  pose proof (keeps_generate_handler cfg env req ([], w1)) as H2. simpl in H2.
  destruct (generate_handler cfg env req ([], w1)) as [[r|e] [l w2]]; simpl in *;
    by eapply fresh_trans.
Qed.

Lemma fresh_get_download (taskId : string) (ev : stream_event) (w : world) :
  fresh_tokens env w (snd (get_download cfg env taskId ev w)).
Proof.
  unfold get_download.
  pose proof (keeps_download_handler cfg env taskId ([], w)) as H1. simpl in H1.
  destruct (download_handler cfg env taskId ([], w)) as [[[r|f d]|e] [l w1]]; simpl in *;
    try done.
  eapply fresh_trans; [exact H1|]. apply (keeps_listeners cfg env ev (l, w1)).
Qed.

End Routes.

(** C4, as stated, fails.  The signer reads the clock for expiry and
    not-before, and jwt.sign reads it again for the issued-at claim.
    With the first reading at 1700000000.999 s and the second one
    millisecond later, the token says: issued at 1700000001, expires at
    1700001800, not valid before 1699999995; its expiry is 1799 seconds
    after its issuance and its not-before 6 seconds before it. *)
Lemma issuance_in_the_next_second :
  ∃ (tok : Jwt.token) (s' : unit * Eff.world),
    Server.generateJwtToken sample_config second_boundary ((), empty_world)
    = (Js.Normal tok, s') ∧
    Jwt.iat tok = 1700000001 ∧
    Jwt.exp (Jwt.claims tok) = 1700001800 ∧
    Jwt.nbf (Jwt.claims tok) = 1699999995 ∧
    Jwt.exp (Jwt.claims tok) ≠ Jwt.iat tok + 1800 ∧
    Jwt.nbf (Jwt.claims tok) ≠ Jwt.iat tok - 5.
Proof.
  eexists _, _. split; [vm_compute; reflexivity|].
  vm_compute. repeat split; discriminate.
Qed.

(** C4, amended.  Every token that signing returns expires 1800 seconds
    after the second into which the signer's own clock reading falls,
    and is valid from 5 seconds before that second; its issued-at claim
    is the second of the next clock reading, which jwt.sign takes.  So
    the expiry is at most 1800 seconds after the issued-at claim and
    the not-before at least 5 seconds before it whenever the clock did
    not go back between the two readings, and exactly so when both fall
    into the same second.  Signing keeps no state besides the two
    readings, and it does return a token when both credentials are set
    and the secret, once trimmed, is not empty and is not a text that
    crypto.createPrivateKey reads as a private key.  Every call that a request makes to the external API —
    submitting a generation, polling a task, the status query of a
    download — carries a token made at a clock reading taken while
    that request was being served: none is kept from an earlier call. *)
Theorem fresh_signed_credentials (cfg : Eff.config) (env : Eff.environment) :
  (∀ (L : Type) (s s' : L * Eff.world) (tok : Jwt.token),
     Server.generateJwtToken cfg env s = (Js.Normal tok, s') →
     let first := Eff.date_now env (Eff.ticks (snd s)) in
     let second := Eff.date_now env (S (Eff.ticks (snd s))) in
     s' = (fst s, ticked (ticked (snd s))) ∧
     (∃ t : Z, 1000 * t ≤ Z.of_N first < 1000 * t + 1000 ∧
               Jwt.exp (Jwt.claims tok) = t + 1800 ∧
               Jwt.nbf (Jwt.claims tok) = t - 5) ∧
     1000 * Jwt.iat tok ≤ Z.of_N second < 1000 * Jwt.iat tok + 1000 ∧
     ((first ≤ second)%N →
      Jwt.exp (Jwt.claims tok) ≤ Jwt.iat tok + 1800 ∧
      Jwt.nbf (Jwt.claims tok) ≤ Jwt.iat tok - 5) ∧
     ((first `div` 1000 = second `div` 1000)%N →
      Jwt.exp (Jwt.claims tok) = Jwt.iat tok + 1800 ∧
      Jwt.nbf (Jwt.claims tok) = Jwt.iat tok - 5)) ∧
  (∀ (L : Type) (s : L * Eff.world) (access secret : string),
     Eff.KLING_ACCESS_KEY cfg = Some access → Eff.KLING_SECRET_KEY cfg = Some secret →
     Jwt.trim secret ≠ "" → Eff.createPrivateKey env (Jwt.trim secret) = false →
     ∃ tok, Server.generateJwtToken cfg env s
            = (Js.Normal tok, (fst s, ticked (ticked (snd s))))) ∧
  (∀ i w, fresh_tokens env w (snd (Server.post_generate cfg env i w))) ∧
  (∀ taskId w,
     fresh_tokens env w (snd (snd (Server.task_handler cfg env taskId ((), w))))) ∧
  (∀ taskId ev w, fresh_tokens env w (snd (Server.get_download cfg env taskId ev w))).
Proof.
  split; [|split; [|split; [|split]]].
  - intros L s s' tok Hrun. cbv zeta.
    pose proof (generateJwtToken_state cfg env s) as Hs. rewrite Hrun in Hs. simpl in Hs.
    apply generateJwtToken_token in Hrun as (access & secret & _ & _ & _ & _ & ->).
    simpl. unfold Jwt.currentTime.
    pose proof (in_second_seconds (Eff.date_now env (Eff.ticks (snd s)))) as H1.
    pose proof (in_second_seconds (Eff.date_now env (S (Eff.ticks (snd s))))) as H2.
    unfold in_second in H1, H2.
    split; [exact Hs|]. split; [by eexists|]. split; [exact H2|]. split.
    + intros Hle. lia.
    + intros Hsame.
      assert (Jwt.seconds (Eff.date_now env (Eff.ticks (snd s)))
              = Jwt.seconds (Eff.date_now env (S (Eff.ticks (snd s))))) as ->.
      { unfold Jwt.seconds. rewrite <-!(N2Z.inj_div _ 1000%N). by rewrite Hsame. }
      done.
  - intros L s access secret. apply generateJwtToken_returns.
  - apply fresh_post_generate.
  - intros taskId w. apply (keeps_task_handler cfg env taskId ((), w)).
  - apply fresh_get_download.
Qed.

Lemma fresh_signed_credentials_witness :
  let tok :=
    {| Jwt.alg := "HS256"; Jwt.typ := "JWT";
       Jwt.claims := {| Jwt.iss := "access-key"; Jwt.exp := 1700001800; Jwt.nbf := 1699999995 |};
       Jwt.iat := 1700000000;
       Jwt.signing_key := "secret-key" |} in
  Server.generateJwtToken sample_config same_millisecond ((), empty_world)
  = (Js.Normal tok, ((), ticked (ticked empty_world))) ∧
  Jwt.exp (Jwt.claims tok) = Jwt.iat tok + 1800 ∧
  Jwt.nbf (Jwt.claims tok) = Jwt.iat tok - 5.
Proof.
  assert (Server.generateJwtToken sample_config same_millisecond ((), empty_world)
          = (Js.Normal
               {| Jwt.alg := "HS256"; Jwt.typ := "JWT";
                  Jwt.claims :=
                    {| Jwt.iss := "access-key"; Jwt.exp := 1700001800; Jwt.nbf := 1699999995 |};
                  Jwt.iat := 1700000000;
                  Jwt.signing_key := "secret-key" |},
             ((), ticked (ticked empty_world)))) as Hrun by (vm_compute; reflexivity).
  split; [exact Hrun|].
  refine (proj2 (proj2 (proj2 (proj2
    (proj1 (fresh_signed_credentials sample_config same_millisecond) unit _ _ _ Hrun)))) _).
  reflexivity.
Defined.

(** C5, as stated, fails: with the issuer credential set to the empty
    string and a usable secret, signing returns a token whose issuer
    claim is empty. *)
Lemma empty_issuer_is_signed :
  ∃ (tok : Jwt.token) (s' : unit * Eff.world),
    Server.generateJwtToken (with_credentials (Some "") (Some "secret-key"))
      same_millisecond ((), empty_world) = (Js.Normal tok, s') ∧
    Jwt.iss (Jwt.claims tok) = "".
Proof. eexists _, _. split; [vm_compute; reflexivity|reflexivity]. Qed.

(** C5, amended.  When the issuer credential or the shared secret is
    not set, or the secret is empty once trimmed, signing throws: it
    returns no token and, having only read the clock, leaves the disk
    and the outbound calls as they were.  A token that signing returns
    has a defined issuer claim, the trimmed issuer credential, which may
    be the empty string. *)
Theorem signing_needs_credentials
    (cfg : Eff.config) (env : Eff.environment) (L : Type) (s : L * Eff.world) :
  (Eff.KLING_ACCESS_KEY cfg = None ∨ Eff.KLING_SECRET_KEY cfg = None ∨
   (∃ secret, Eff.KLING_SECRET_KEY cfg = Some secret ∧ Jwt.trim secret = "") →
   (∃ e, fst (Server.generateJwtToken cfg env s) = Js.Throw e) ∧
   snd (Server.generateJwtToken cfg env s) = (fst s, ticked (snd s))) ∧
  (∀ tok s', Server.generateJwtToken cfg env s = (Js.Normal tok, s') →
     ∃ access, Eff.KLING_ACCESS_KEY cfg = Some access ∧
               Jwt.iss (Jwt.claims tok) = Jwt.trim access).
Proof.
  split.
  - intros Hcred.
    assert (∃ e, fst (Server.generateJwtToken cfg env s) = Js.Throw e) as [e He].
    { destruct (Server.generateJwtToken cfg env s) as [[tok|e] s'] eqn:Hrun; [|by exists e].
      apply generateJwtToken_token in Hrun as (access & secret & Ha & Hk & Hne & _).
      destruct Hcred as [Hcred|[Hcred|(k & Hcred & Hempty)]]; congruence. }
    split; [by exists e|]. rewrite generateJwtToken_state. by rewrite He.
  - intros tok s' Hrun.
    apply generateJwtToken_token in Hrun as (access & secret & Ha & _ & _ & _ & ->).
    by exists access.
Qed.

Lemma signing_needs_credentials_witness :
  ∃ e, fst (Server.generateJwtToken (with_credentials None (Some "secret-key"))
              same_millisecond ((), empty_world)) = Js.Throw e.
Proof.
  exact (proj1 (proj1 (signing_needs_credentials
                         (with_credentials None (Some "secret-key"))
                         same_millisecond unit ((), empty_world))
                  (or_introl eq_refl))).
Defined.

(** ** Temporary files *)

Section Unlinking.
Import Js Eff Server.
Variable cfg : config.
Context {L : Type}.

Lemma with_disk_same (w : world) (d : gset string) : d = disk w → with_disk d w = w.
Proof. intros ->. by destruct w. Qed.

(** Removing a path, with the failure swallowed: afterwards the path is
    not on the disk, and nothing else changed. *)
Lemma unlink_swallowed (p : string) (l : L) (w : world) :
  try_catch (unlink cfg p) (λ _, ret ()) (l, w)
  = (Normal (), (l, with_disk (disk w ∖ {[resolve cfg p]}) w)).
Proof.
  unfold try_catch, unlink, on_disk, mbind, M_bind, bind, get_world. simpl.
  case_bool_decide as Hin; simpl; [reflexivity|].
  unfold ret. rewrite with_disk_same; [done|]. set_solver.
Qed.

Lemma unlink_each_run {A} (paths : A → string) (xs : list A) (l : L) (w : world) :
  for_of xs (λ x, try_catch (unlink cfg (paths x)) (λ _, ret ())) (l, w)
  = (Normal (),
     (l, with_disk (disk w ∖ list_to_set ((λ x, resolve cfg (paths x)) <$> xs)) w)).
Proof.
  revert w. induction xs as [|x xs IH]; intros w; simpl.
  - unfold ret. rewrite with_disk_same; [done|]. set_solver.
  - unfold bind. rewrite unlink_swallowed, IH. unfold with_disk. simpl.
    do 3 f_equal. set_solver.
Qed.

Lemma cleanupFiles_run (fs : list file) (l : L) (w : world) :
  cleanupFiles cfg fs (l, w)
  = (Normal (),
     (l, with_disk (disk w ∖ list_to_set ((λ f, resolve cfg (path f)) <$> fs)) w)).
Proof. apply unlink_each_run. Qed.

End Unlinking.

(** ** Submitting a generation *)

Section Generate.
Import Js Eff Server.
Variable cfg : config.
Variable env : environment.

Lemma truthy_field (o : option string) :
  truthy (str_or_undefined o) = false ↔ blank o.
Proof.
  unfold blank. destruct o as [s|]; simpl; [|naive_solver].
  destruct (String.eqb_spec s ""); naive_solver.
Qed.

(** One file part through the storage engine, its failure caught. *)
Lemma store_part_run {L} (p : part) (l : L) (w : world) :
  ∃ r w',
    try_catch (f ← store_part cfg env p; ret (inr f)) (λ e, ret (inl (message e))) (l, w)
    = (Normal r, (l, w')) ∧
    calls w' = calls w ∧
    match r with
    | inl _ => disk w' = disk w
    | inr f =>
        disk w' = disk w ∪ {[resolve cfg (path f)]} ∧
        fieldname f = part_field p ∧ size f = part_size p ∧
        originalname f = part_originalname p ∧ mimetype f = part_mimetype p ∧
        ∃ now rnd, path f = "uploads/" +:+
                            Naming.filename (extname env) now rnd (part_originalname p)
    end.
Proof.
  unfold try_catch, store_part, Date_now, Math_random, tick, get_world, set_disk, throw,
    mbind, M_bind, bind, ret. simpl.
  destruct (is_directory cfg env "uploads" _); simpl.
  - eexists (inr _), _. split; [reflexivity|]. split; [reflexivity|]. simpl.
    repeat (split; [reflexivity|]). by eexists _, _.
  - eexists (inl _), _. split; [reflexivity|]. split; reflexivity.
Qed.

Lemma multer_parts_calls {L} (parts : list entry) (acc : files) (stored : list file)
    (l : L) (w : world) :
  calls (snd (snd (multer_parts cfg env parts acc stored (l, w)))) = calls w.
Proof.
  revert acc stored w.
  induction parts as [|[p|msg] parts IH]; intros acc stored w; [reflexivity| |].
  2:{ simpl. unfold abort_upload, mbind, M_bind, bind. by rewrite unlink_each_run. }
  simpl. destruct (String.eqb (part_originalname p) ""); [apply IH|].
  destruct (negb _).
  - unfold abort_upload, mbind, M_bind, bind. by rewrite unlink_each_run.
  - unfold mbind at 1, M_bind at 1, bind at 1.
    destruct (store_part_run p l w) as ([msg|f] & w1 & -> & Hcalls & _).
    + unfold abort_upload, mbind, M_bind, bind. by rewrite unlink_each_run.
    + destruct (part_size p >=? fileSize).
      * unfold abort_upload, mbind, M_bind, bind. by rewrite unlink_each_run.
      * by rewrite IH.
Qed.

(** The multer stage makes no outbound call. *)
Lemma upload_fields_calls {L} (i : incoming) (l : L) (w : world) :
  calls (snd (snd (upload_fields cfg env i (l, w)))) = calls w.
Proof.
  unfold upload_fields. destruct (in_parts i) as [parts|]; [|reflexivity].
  unfold mbind, M_bind, bind.
  pose proof (multer_parts_calls parts {| image := None; video := None |} [] l w) as H.
  destruct (multer_parts _ _ _ _ _ _) as [[[r|fs]|e] s']; exact H.
Qed.

(** A request that fails a check of the handler is answered 400 at
    once: the handler returns from inside the try block, with the world
    as it found it. *)
Lemma generate_violation (req : request) (w : world) :
  violates req →
  ∃ msg l, generate_handler cfg env req ([], w) = (Normal (bad_request msg), (l, w)).
Proof.
  unfold violates, generate_handler, generate_try, try_catch.
  destruct (req_files req) as [[[i|] [v|]]|]; simpl; try (intros _; by eexists _, _).
  intros Hv. unfold mbind, M_bind, bind. simpl.
  destruct (Z.gtb_spec (size i) (10 * 1024 * 1024)); [by eexists _, _|].
  destruct (Z.gtb_spec (size v) (100 * 1024 * 1024)); [by eexists _, _|].
  unfold MiB in Hv. destruct Hv as [?|[?|Hv]]; [lia|lia|].
  assert (negb (truthy (str_or_undefined (character_orientation (req_body req))))
          || negb (truthy (str_or_undefined (mode (req_body req)))) = true) as ->.
  { destruct Hv as [Hb|Hb]; apply truthy_field in Hb; rewrite Hb; simpl;
      [reflexivity|apply orb_true_r]. }
  by eexists _, _.
Qed.

(** With the remote store disabled, a request that passes the checks
    gets no further than the first upload. *)
Lemma generate_s3_disabled (req : request) (i v : file) (w : world) :
  S3_ENABLED cfg = false → passes req i v →
  generate_handler cfg env req ([], w)
  = (Normal {| status := 500;
               json := Obj [("success", Bool false);
                            ("message", Str "S3 is not configured");
                            ("error", match env_NODE_ENV cfg with
                                      | Some "development" => Str "Error: S3 is not configured"
                                      | _ => Undefined
                                      end)] |},
     ([i; v], with_disk (disk w ∖ {[resolve cfg (path i); resolve cfg (path v)]}) w)).
Proof.
  intros Hs3 (Hfiles & Hi & Hv & Ho & Hm).
  unfold generate_handler, generate_try, try_catch. rewrite Hfiles. simpl.
  unfold mbind, M_bind, bind. simpl. unfold MiB in *.
  destruct (Z.gtb_spec (size i) (10 * 1024 * 1024)); [lia|].
  destruct (Z.gtb_spec (size v) (100 * 1024 * 1024)); [lia|].
  assert (truthy (str_or_undefined (character_orientation (req_body req))) = true) as ->.
  { apply not_false_iff_true. by rewrite truthy_field. }
  assert (truthy (str_or_undefined (mode (req_body req))) = true) as ->.
  { apply not_false_iff_true. by rewrite truthy_field. }
  simpl. unfold uploadToS3. rewrite Hs3. simpl.
  unfold generate_catch, mbind, M_bind, bind. simpl.
  rewrite cleanupFiles_run. simpl.
  do 3 f_equal. unfold with_disk. f_equal. set_solver.
Qed.

End Generate.

(** ** Running a computation step by step *)

Section Steps.
Import Js Eff Server.
Variable env : environment.

Lemma bind_run {L A B} (m : M L A) (k : A → M L B) (s s' : L * world) (c : completion error A) :
  m s = (c, s') →
  (x ← m; k x) s = match c with
                   | Normal a => k a s'
                   | Throw e => (Throw e, s')
                   end.
Proof. intros H. unfold mbind, M_bind, bind. by rewrite H. Qed.

Lemma await_axios_state {L} (l : L) (w : world) :
  ∃ c, await_axios env (l, w) = (c, (l, w)).
Proof.
  unfold await_axios, get_world, mbind, M_bind, bind, ret, throw. simpl.
  destruct (axios env (calls w)); by eexists.
Qed.

End Steps.

Section GenerateCleans.
Import Js Eff Server.
Variable cfg : config.
Variable env : environment.

(** An upload to the remote store reads the file and leaves the disk
    and the handler's local alone. *)
Lemma uploadToS3_state {L} (filePath fileName contentType : string) (l : L) (w : world) :
  ∃ c w', uploadToS3 cfg env filePath fileName contentType (l, w) = (c, (l, w')) ∧
          disk w' = disk w.
Proof.
  unfold uploadToS3, try_catch, readFile, Date_now, tick, record, get_world, lift,
    mbind, M_bind, bind, ret, throw. simpl.
  destruct (S3_ENABLED cfg); simpl; [|eexists _, _; split; reflexivity].
  destruct (on_disk cfg filePath w); simpl; [|eexists _, _; split; reflexivity].
  destruct (s3_send env _); simpl; [eexists _, _; split; reflexivity|].
  destruct (getSignedUrl env _); simpl; eexists _, _; split; reflexivity.
Qed.

Lemma generate_catch_run (e : error) (l : list file) (w : world) :
  ∃ r, generate_catch cfg e (l, w)
       = (Normal r,
          (l, with_disk (disk w ∖ list_to_set ((λ f, resolve cfg (path f)) <$> l)) w)).
Proof.
  unfold generate_catch, get_local, mbind, M_bind, bind. simpl.
  rewrite cleanupFiles_run.
  destruct (response e) as [[st data]|]; [destruct (truthy data)|]; by eexists.
Qed.

(** The try block of a request that passes the checks: when it
    returns, the two stored files have been removed; when it throws,
    nothing was added to the disk and both files are in
    [uploadedFiles]. *)
Lemma generate_try_run (req : request) (i v : file) (w : world) :
  passes req i v →
  ∃ c w', generate_try cfg env req ([], w) = (c, ([i; v], w')) ∧
          match c with
          | Normal _ => disk w' = disk w ∖ {[resolve cfg (path i); resolve cfg (path v)]}
          | Throw _ => disk w' ⊆ disk w
          end.
Proof.
  intros (Hfiles & Hi & Hv & Ho & Hm).
  unfold generate_try. rewrite Hfiles. simpl.
  unfold mbind at 1, M_bind at 1, bind at 1. simpl.
  unfold mbind at 1, M_bind at 1, bind at 1. simpl. unfold MiB in *.
  destruct (Z.gtb_spec (size i) (10 * 1024 * 1024)); [lia|].
  destruct (Z.gtb_spec (size v) (100 * 1024 * 1024)); [lia|].
  assert (truthy (str_or_undefined (character_orientation (req_body req))) = true) as ->.
  { apply not_false_iff_true. by rewrite truthy_field. }
  assert (truthy (str_or_undefined (mode (req_body req))) = true) as ->.
  { apply not_false_iff_true. by rewrite truthy_field. }
  simpl.
  destruct (uploadToS3_state (path i) (originalname i) (mimetype i) [i; v] w)
    as ([imageUrl|e1] & w1 & Hrun1 & Hd1);
    rewrite (bind_run _ _ _ _ _ Hrun1); [|eexists _, _; split; [reflexivity|set_solver]].
  destruct (uploadToS3_state (path v) (originalname v) (mimetype v) [i; v] w1)
    as ([videoUrl|e2] & w2 & Hrun2 & Hd2);
    rewrite (bind_run _ _ _ _ _ Hrun2); [|eexists _, _; split; [reflexivity|set_solver]].
  pose proof (getAuthHeaders_state cfg env ([i; v], w2)) as Hauth.
  destruct (getAuthHeaders cfg env ([i; v], w2)) as [[h|e3] s3] eqn:Hrun3;
    simpl in Hauth; subst s3; rewrite (bind_run _ _ _ _ _ Hrun3);
    [|eexists _, _; split; [reflexivity|simpl; set_solver]].
  unfold mbind at 1, M_bind at 1, bind at 1. simpl.
  match goal with |- context [(await_axios env ≫= _) (?l, ?w)] =>
    destruct (await_axios_state env l w) as ([data|e4] & Hrun4) end;
    rewrite (bind_run _ _ _ _ _ Hrun4);
    [|eexists _, _; split; [reflexivity|simpl; set_solver]].
  unfold mbind at 1, M_bind at 1, bind at 1. simpl.
  unfold mbind at 1, M_bind at 1, bind at 1. rewrite cleanupFiles_run. simpl.
  unfold lift, mbind, M_bind, bind, ret, throw.
  repeat (match goal with
          | |- context [match get ?x ?k with _ => _ end] => destruct (get x k); simpl
          end);
    eexists _, _; (split; [reflexivity|simpl; set_solver]).
Qed.

(** A submission that passes the checks leaves neither stored file
    behind, whether the generation request succeeds or any step fails. *)
Lemma generate_passed_cleans (req : request) (i v : file) (w : world) :
  passes req i v →
  ∃ r w', generate_handler cfg env req ([], w) = (Normal r, ([i; v], w')) ∧
          (resolve cfg (path i) ∉ disk w') ∧ (resolve cfg (path v) ∉ disk w') ∧
          disk w' ⊆ disk w.
Proof.
  intros Hpass. unfold generate_handler, try_catch.
  destruct (generate_try_run req i v w Hpass) as ([r|e] & w1 & -> & Hd).
  - eexists _, _. split; [reflexivity|]. set_solver.
  - destruct (generate_catch_run e [i; v] w1) as (r & ->).
    eexists _, _. split; [reflexivity|]. simpl. set_solver.
Qed.

End GenerateCleans.

(** A request that the upload stage hands on with files is multipart,
    so express.json() has let it pass. *)
Lemma passed_files_multipart (cfg : Eff.config) (env : Eff.environment) {L : Type}
    (i : Server.incoming) (s s' : L * Eff.world) (req : Server.request) (fs : Server.files) :
  Server.upload_fields cfg env i s = (Js.Normal (Server.Passed req), s') →
  Server.req_files req = Some fs →
  Server.express_json i = None.
Proof.
  unfold Server.upload_fields, Server.express_json.
  destruct (Server.in_parts i); [done|].
  unfold Eff.ret. intros [= <- _] H. discriminate H.
Qed.

Lemma S3_ENABLED_false (cfg : Eff.config) :
  Eff.env_S3_ENABLED cfg ≠ Some "true" → Server.S3_ENABLED cfg = false.
Proof.
  unfold Server.S3_ENABLED. destruct (Eff.env_S3_ENABLED cfg) as [s|]; [|done].
  destruct (String.eqb_spec s "true") as [->|]; done.
Qed.

(** C10.  When process.env.S3_ENABLED is anything but the string
    'true', a submission that the upload stage lets through and that
    passes every check of the handler is answered 500 with the message
    'S3 is not configured', and no outbound call is made for it: nothing
    is put into the remote store and no generation request is sent. *)
Theorem s3_disabled_generation_fails
    (cfg : Eff.config) (env : Eff.environment) (i : Server.incoming)
    (w w1 : Eff.world) (req : Server.request) (img vid : Server.file) :
  Eff.env_S3_ENABLED cfg ≠ Some "true" →
  Server.upload_fields cfg env i ((), w) = (Js.Normal (Server.Passed req), ((), w1)) →
  passes req img vid →
  ∃ r w2, Server.post_generate cfg env i w = (Some r, w2) ∧
          Server.status r = 500 ∧
          Js.get_opt (Server.json r) "message" = Js.Str "S3 is not configured" ∧
          Eff.calls w2 = Eff.calls w.
Proof.
  intros Hs3%S3_ENABLED_false Hup Hpass.
  pose proof (upload_fields_calls cfg env i () w) as Hcalls. rewrite Hup in Hcalls.
  simpl in Hcalls.
  unfold Server.post_generate.
  rewrite (passed_files_multipart cfg env i _ _ req _ Hup (proj1 Hpass)), Hup.
  rewrite (generate_s3_disabled cfg env req img vid w1 Hs3 Hpass).
  eexists _, _. split; [reflexivity|]. split; [reflexivity|]. split; [reflexivity|].
  exact Hcalls.
Qed.

Lemma s3_disabled_generation_fails_witness :
  ∃ r w2, Server.post_generate store_disabled same_millisecond (submission 1000 2000) empty_world
          = (Some r, w2) ∧
          Server.status r = 500 ∧
          Js.get_opt (Server.json r) "message" = Js.Str "S3 is not configured" ∧
          Eff.calls w2 = Eff.calls empty_world.
Proof.
  eapply (s3_disabled_generation_fails store_disabled same_millisecond
            (submission 1000 2000) empty_world).
  - discriminate.
  - vm_compute. reflexivity.
  - unfold passes, blank. split; [reflexivity|]. simpl. unfold Server.MiB.
    split; [lia|]. split; [lia|].
    split; intros [H|H]; discriminate H.
Defined.

(** C3, at an oversized video.  A video of 100 MiB and one byte is
    refused by the upload stage, whose limit is the handler's own, so the
    handler and its check never run: the request is answered by
    Express's error response, status 500, and not with 400.  No
    outbound call is made.  The handler, were it handed this video,
    would answer 400. *)
Theorem oversized_video_answered_500 :
  let run := Server.post_generate sample_config same_millisecond
               (submission 1000 (100 * Server.MiB + 1)) empty_world in
  let handed := Server.generate_handler sample_config same_millisecond
                  (oversized_request (100 * Server.MiB + 1)) ([], empty_world) in
  fst run = Some (Server.express_error "File too large") ∧
  Server.status (Server.express_error "File too large") = 500 ∧
  Eff.calls (snd run) = [] ∧
  fst handed = Js.Normal (Server.bad_request "Video file must be less than 100MB").
Proof. vm_compute. repeat split; reflexivity. Qed.

(** C1, at an oversized image.  An image of 11 MiB is stored by the
    upload stage together with the video; the handler answers 400 from
    inside its try block, where no clean-up runs, and both stored files
    are still on the disk afterwards. *)
Theorem rejected_upload_stays_on_disk :
  let run := Server.post_generate sample_config same_millisecond
               (submission (11 * Server.MiB) 2000) empty_world in
  fst run = Some (Server.bad_request "Image file must be less than 10MB") ∧
  Server.on_disk sample_config "uploads/1700000000000-1.png" (snd run) = true ∧
  Server.on_disk sample_config "uploads/1700000000000-3.mp4" (snd run) = true.
Proof. vm_compute. repeat split; reflexivity. Qed.

(** ** Downloading a watermarked video *)

Section Download.
Import Js Eff Server.
Variable cfg : config.
Variable env : environment.

Lemma strict_ne_str_true (v : value) (lit : string) :
  strict_ne_str v lit = true ↔ v ≠ Str lit.
Proof.
  destruct v; simpl; try (split; [discriminate|reflexivity]).
  destruct (String.eqb_spec s lit) as [->|Hne]; simpl.
  - split; [discriminate|]. intros H. by destruct H.
  - split; [|reflexivity]. intros _ [= ->]. by destruct Hne.
Qed.

Lemma strict_ne_str_false (v : value) (lit : string) :
  strict_ne_str v lit = false → v = Str lit.
Proof.
  destruct v; simpl; try discriminate.
  destruct (String.eqb_spec s lit) as [->|Hne]; simpl; [reflexivity|discriminate].
Qed.

(** The handler up to the point where the status of the task is known. *)
Lemma download_try_status (taskId : string) (w : world) (l : list string)
    (h : headers) (body taskData st : value) :
  fst (getAuthHeaders cfg env (l, w)) = Normal h →
  axios env (calls w ++ [KlingGet h taskId]) = Answer body →
  get body "data" = Normal taskData →
  get taskData "task_status" = Normal st →
  download_try cfg env taskId (l, w)
  = (if strict_ne_str st "succeed" then ret (failure 400 "Video is not ready yet")
     else if negb (truthy (video_url taskData)) then
       ret (failure 404 "No video URL found for this task")
     else
       logo ← existsSync cfg env (LOGO_PATH cfg);
       if negb logo then ret (failure 500 "Logo file not found on server")
       else
         t1 ← Date_now env;
         let tempInput :=
           path_join (uploadsDir cfg)
             ("temp-input-" +:+ taskId +:+ "-" +:+ Naming.num_to_string t1 +:+ ".mp4") in
         t2 ← Date_now env;
         let tempOutput :=
           path_join (uploadsDir cfg)
             ("temp-output-" +:+ taskId +:+ "-" +:+ Naming.num_to_string t2 +:+ ".mp4") in
         tempFiles ← get_local;
         set_local (tempFiles ++ [tempInput; tempOutput])%list;;
         record (VideoGet (video_url taskData));;
         _ ← await_axios env;
         writeFile cfg env tempInput;;
         run_ffmpeg cfg env tempInput tempOutput;;
         stat cfg tempOutput;;
         let disposition :=
           "attachment; filename=" +:+ quoted ("eros-universe-" +:+ take_chars 8 taskId +:+ ".mp4") in
         if setHeader_ok env disposition then ret (Stream tempOutput disposition)
         else throw (Error "Invalid character in header content"))
      (l, after_status_query h taskId w).
Proof.
  intros Hauth Haxios Hdata Hstatus.
  pose proof (getAuthHeaders_state cfg env (l, w)) as Hstate.
  destruct (getAuthHeaders cfg env (l, w)) as [c s1] eqn:Hrun.
  simpl in Hauth, Hstate. subst c s1.
  unfold download_try. unfold mbind at 1, M_bind at 1, bind at 1. rewrite Hrun.
  unfold mbind at 1, M_bind at 1, bind at 1. simpl.
  unfold mbind at 1, M_bind at 1, bind at 1.
  unfold await_axios at 1. unfold mbind at 1, M_bind at 1, bind at 1. simpl.
  rewrite Haxios. simpl.
  unfold mbind at 1, M_bind at 1, bind at 1. rewrite Hdata. simpl.
  unfold mbind at 1, M_bind at 1, bind at 1. rewrite Hstatus. simpl.
  reflexivity.
Qed.

End Download.

Section DownloadCleans.
Import Js Eff Server.
Variable cfg : config.
Variable env : environment.

Lemma unlink_all_run (l' l : list string) (w : world) :
  unlink_all cfg l' (l, w) = (Normal (), (l, with_disk (disk w ∖ named cfg l') w)).
Proof. unfold unlink_all, named. exact (unlink_each_run cfg id l' l w). Qed.

(** The try block of a download: a file it leaves on the disk is one of
    the two temporary files it has put into [tempFiles]; when it
    answers in JSON it has left none. *)
Lemma download_try_run (taskId : string) (w : world) :
  ∃ c l w', download_try cfg env taskId ([], w) = (c, (l, w')) ∧
            disk w' ⊆ disk w ∪ named cfg l ∧
            match c with
            | Normal (Json _) => disk w' ⊆ disk w
            | _ => True
            end.
Proof.
  unfold download_try.
  pose proof (getAuthHeaders_state cfg env (([] : list string), w)) as Hauth.
  destruct (getAuthHeaders cfg env (([] : list string), w)) as [[h|e] s1] eqn:Hrun1;
    simpl in Hauth; subst s1; rewrite (bind_run _ _ _ _ _ Hrun1);
    [|eexists _, _, _; split; [reflexivity|simpl; set_solver]].
  unfold mbind at 1, M_bind at 1, bind at 1. simpl.
  match goal with |- context [(await_axios env ≫= _) (?l, ?w)] =>
    destruct (await_axios_state env l w) as ([body|e] & Hrun2) end;
    rewrite (bind_run _ _ _ _ _ Hrun2);
    [|eexists _, _, _; split; [reflexivity|simpl; set_solver]].
  unfold mbind at 1, M_bind at 1, bind at 1.
  destruct (get body "data") as [taskData|msg]; simpl;
    [|eexists _, _, _; split; [reflexivity|simpl; set_solver]].
  unfold mbind at 1, M_bind at 1, bind at 1.
  destruct (get taskData "task_status") as [st|msg]; simpl;
    [|eexists _, _, _; split; [reflexivity|simpl; set_solver]].
  destruct (strict_ne_str st "succeed");
    [eexists _, _, _; split; [reflexivity|simpl; set_solver]|].
  match goal with |- context [truthy ?u] => generalize u; intros videoUrl end.
  destruct (truthy videoUrl); simpl;
    [|eexists _, _, _; split; [reflexivity|simpl; set_solver]].
  unfold mbind at 1, M_bind at 1, bind at 1.
  unfold existsSync, mbind at 1, M_bind at 1, bind at 1, get_world, ret. simpl.
  destruct (on_disk cfg (LOGO_PATH cfg) _ || is_directory cfg env (LOGO_PATH cfg) _); simpl;
    [|eexists _, _, _; split; [reflexivity|simpl; set_solver]].
  unfold Date_now, tick, get_local, set_local, record, mbind, M_bind, bind, ret. simpl.
  match goal with |- context [path_join (uploadsDir cfg) ?n] =>
    generalize (path_join (uploadsDir cfg) n); intros tempInput end.
  match goal with |- context [path_join (uploadsDir cfg) ?n] =>
    generalize (path_join (uploadsDir cfg) n); intros tempOutput end.
  match goal with |- context [await_axios env (?l, ?w)] =>
    destruct (await_axios_state env l w) as ([bytes|e] & ->) end;
    [|eexists _, _, _; split; [reflexivity|unfold named; simpl; set_solver]].
  unfold writeFile, get_world, set_disk, throw, mbind, M_bind, bind. simpl.
  destruct (writeFile_ok env tempInput); simpl;
    [|eexists _, _, _; split; [reflexivity|unfold named; simpl; set_solver]].
  unfold run_ffmpeg, record, get_world, set_disk, throw, ret, mbind, M_bind, bind. simpl.
  destruct (execFile env _) as [|msg [|]]; simpl;
    [|eexists _, _, _; split; [reflexivity|unfold named; simpl; set_solver]..].
  unfold stat, get_world, throw, ret, mbind, M_bind, bind. simpl.
  destruct (on_disk cfg tempOutput _); simpl;
    [|eexists _, _, _; split; [reflexivity|unfold named; simpl; set_solver]].
  destruct (setHeader_ok env _);
    eexists _, _, _; (split; [reflexivity|unfold named; simpl; set_solver]).
Qed.

(** A download that answers in JSON, or whose stream reaches its end,
    leaves no file on the disk that was not there before. *)
Lemma download_leaves_nothing (taskId : string) (ev : stream_event) (w : world) :
  (ev = StreamEnd ∨ ∃ r, fst (get_download cfg env taskId ev w) = Some (Json r)) →
  disk (snd (get_download cfg env taskId ev w)) ⊆ disk w.
Proof.
  unfold get_download, download_handler, try_catch.
  destruct (download_try_run taskId w) as (c & l & w1 & -> & Hd & Hjson).
  destruct c as [[r|f d]|e].
  - intros _. simpl. exact Hjson.
  - intros [->|[r Hr]]; [|discriminate Hr].
    unfold listeners, on_end, get_local, mbind, M_bind, bind. simpl.
    rewrite unlink_all_run. simpl. set_solver.
  - intros _. unfold download_catch, get_local, mbind, M_bind, bind. simpl.
    rewrite unlink_all_run. simpl. set_solver.
Qed.

End DownloadCleans.

(** C6, as stated, fails.  With the logo file absent and a task that
    is still being processed, the download is not answered with a
    server error: the status query is sent first, and the answer is
    400. *)
Lemma missing_logo_answered_400 :
  let run := Server.get_download sample_config (answering task_in_progress) "task-1"
               Server.StreamEnd empty_world in
  logo_absent sample_config (answering task_in_progress) empty_world ∧
  answered run 400 "Video is not ready yet" ∧
  Eff.calls (snd run) = [Eff.KlingGet sample_headers "task-1"].
Proof.
  cbv zeta. split; [split; vm_compute; reflexivity|].
  split; [|vm_compute; reflexivity].
  eexists. split; [vm_compute; reflexivity|]. repeat split; reflexivity.
Qed.

(** C6, amended.  The checks of a download come after the status
    query, in this order.  Once the query has answered with a task
    payload: if the task status is not 'succeed' the request is
    answered 400; if it is 'succeed' and the payload holds no video URL
    the request is answered 404; if there is a URL and the logo file
    does not exist the request is answered 500.  In each case the
    status query is the only call made (no video is fetched, the
    external tool is not run) and the disk is left as it was; so it is
    whenever the logo file does not exist, whatever the task payload,
    the answer then being 400, 404 or 500. *)
Theorem download_preconditions
    (cfg : Eff.config) (env : Eff.environment) (taskId : string)
    (ev : Server.stream_event) (w : Eff.world)
    (h : Eff.headers) (body taskData st : Js.value) :
  fst (Server.getAuthHeaders cfg env (([] : list string), w)) = Js.Normal h →
  Eff.axios env (Eff.calls w ++ [Eff.KlingGet h taskId]) = Eff.Answer body →
  Js.get body "data" = Js.Normal taskData →
  Js.get taskData "task_status" = Js.Normal st →
  let run := Server.get_download cfg env taskId ev w in
  let only_the_query :=
    Eff.calls (snd run) = (Eff.calls w ++ [Eff.KlingGet h taskId])%list ∧
    Eff.disk (snd run) = Eff.disk w in
  (st ≠ Js.Str "succeed" →
   answered run 400 "Video is not ready yet" ∧ only_the_query) ∧
  (st = Js.Str "succeed" → Js.truthy (video_url taskData) = false →
   answered run 404 "No video URL found for this task" ∧ only_the_query) ∧
  (st = Js.Str "succeed" → Js.truthy (video_url taskData) = true →
   logo_absent cfg env w →
   answered run 500 "Logo file not found on server" ∧ only_the_query) ∧
  (logo_absent cfg env w →
   only_the_query ∧
   ∃ r, fst run = Some (Server.Json r) ∧
        (Server.status r = 400 ∨ Server.status r = 404 ∨ Server.status r = 500)).
Proof.
  intros Hauth Haxios Hdata Hstatus. cbv zeta.
  pose proof (download_try_status cfg env taskId w [] h body taskData st
                Hauth Haxios Hdata Hstatus) as Htry.
  assert (st ≠ Js.Str "succeed" →
          Server.get_download cfg env taskId ev w
          = (Some (Server.failure 400 "Video is not ready yet"),
             after_status_query h taskId w)) as Hnotready.
  { intros Hne. unfold Server.get_download, Server.download_handler, Eff.try_catch.
    rewrite Htry. apply strict_ne_str_true in Hne. rewrite Hne. reflexivity. }
  assert (st = Js.Str "succeed" → Js.truthy (video_url taskData) = false →
          Server.get_download cfg env taskId ev w
          = (Some (Server.failure 404 "No video URL found for this task"),
             after_status_query h taskId w)) as Hnourl.
  { intros -> Hurl. unfold Server.get_download, Server.download_handler, Eff.try_catch.
    rewrite Htry. simpl. rewrite Hurl. reflexivity. }
  assert (st = Js.Str "succeed" → Js.truthy (video_url taskData) = true →
          logo_absent cfg env w →
          Server.get_download cfg env taskId ev w
          = (Some (Server.failure 500 "Logo file not found on server"),
             after_status_query h taskId w)) as Hnologo.
  { intros -> Hurl [Hfile Hdir].
    unfold Server.get_download, Server.download_handler, Eff.try_catch.
    rewrite Htry. simpl. rewrite Hurl. simpl.
    unfold mbind at 1, Eff.M_bind at 1, Eff.bind at 1.
    unfold Server.existsSync, mbind, Eff.M_bind, Eff.bind, Eff.get_world. simpl.
    unfold after_status_query, Server.on_disk, Server.is_directory in *. simpl.
    rewrite Hfile, Hdir. reflexivity. }
  split; [|split; [|split]].
  - intros Hne. rewrite (Hnotready Hne). split; [|by split].
    eexists. split; [reflexivity|]. repeat split; reflexivity.
  - intros Hst Hurl. rewrite (Hnourl Hst Hurl). split; [|by split].
    eexists. split; [reflexivity|]. repeat split; reflexivity.
  - intros Hst Hurl Hlogo. rewrite (Hnologo Hst Hurl Hlogo). split; [|by split].
    eexists. split; [reflexivity|]. repeat split; reflexivity.
  - intros Hlogo.
    destruct (Js.strict_ne_str st "succeed") eqn:Hst.
    { apply strict_ne_str_true in Hst. rewrite (Hnotready Hst).
      split; [by split|]. eexists. split; [reflexivity|]. by left. }
    apply strict_ne_str_false in Hst.
    destruct (Js.truthy (video_url taskData)) eqn:Hurl.
    + rewrite (Hnologo Hst eq_refl Hlogo).
      split; [by split|]. eexists. split; [reflexivity|]. by right; right.
    + rewrite (Hnourl Hst eq_refl).
      split; [by split|]. eexists. split; [reflexivity|]. by right; left.
Qed.

Lemma download_preconditions_witness :
  let run := Server.get_download sample_config (answering task_succeeded) "task-1"
               Server.StreamEnd empty_world in
  answered run 500 "Logo file not found on server" ∧
  Eff.calls (snd run) = (Eff.calls empty_world ++ [Eff.KlingGet sample_headers "task-1"])%list ∧
  Eff.disk (snd run) = Eff.disk empty_world.
Proof.
  refine (proj1 (proj2 (proj2
            (download_preconditions sample_config (answering task_succeeded) "task-1"
               Server.StreamEnd empty_world sample_headers task_succeeded
               _ (Js.Str "succeed") _ _ _ _))) _ _ _).
  - vm_compute. reflexivity.
  - vm_compute. reflexivity.
  - vm_compute. reflexivity.
  - vm_compute. reflexivity.
  - reflexivity.
  - vm_compute. reflexivity.
  - split; vm_compute; reflexivity.
Defined.

(** C2, at a failing stream.  A download whose watermarking succeeded
    and whose read stream then emits [error], or is abandoned by the
    client before its end, leaves both temporary files on the disk: the
    [error] listener only ends the response, and no listener follows
    the client.  The same download with a stream that emits [end]
    removes both. *)
Theorem stream_error_leaves_temp_files :
  let input := "/srv/backend/uploads/temp-input-task-1-1700000000000.mp4" in
  let output := "/srv/backend/uploads/temp-output-task-1-1700000000000.mp4" in
  let download ev :=
    Server.get_download sample_config (answering task_succeeded) "task-1" ev logo_only in
  (∃ d, fst (download Server.StreamError) = Some (Server.Stream output d)) ∧
  Server.on_disk sample_config input (snd (download Server.StreamError)) = true ∧
  Server.on_disk sample_config output (snd (download Server.StreamError)) = true ∧
  Server.on_disk sample_config input (snd (download Server.Abandoned)) = true ∧
  Server.on_disk sample_config output (snd (download Server.Abandoned)) = true ∧
  Server.on_disk sample_config input (snd (download Server.StreamEnd)) = false ∧
  Server.on_disk sample_config output (snd (download Server.StreamEnd)) = false.
Proof.
  cbv zeta. split; [eexists; vm_compute; reflexivity|].
  vm_compute. repeat split; reflexivity.
Qed.

(** ** The static route *)

Section PlainNames.
Import Naming Server.

Lemma no_slash_append (a b : string) :
  no_slash (a +:+ b) = no_slash a && no_slash b.
Proof.
  induction a as [|c a IH]; [reflexivity|].
  rewrite append_cons. simpl. rewrite IH. by rewrite andb_assoc.
Qed.

Lemma digits_no_slash (s : string) : all_digits s = true → no_slash s = true.
Proof.
  induction s as [|c s IH]; [reflexivity|]. simpl.
  intros [Hc Hs]%andb_prop. rewrite (IH Hs), andb_true_r.
  destruct (Ascii.eqb_spec c "/") as [->|_]; [discriminate Hc|reflexivity].
Qed.

(** Within one path segment nothing starts with a dot any more. *)
Lemma dot_segment_inside (s : string) : no_slash s = true → dot_segment false s = false.
Proof.
  induction s as [|c s IH]; [reflexivity|]. simpl.
  intros [Hc Hs]%andb_prop. apply negb_true_iff in Hc. rewrite Hc. by apply IH.
Qed.

Lemma dot_segment_plain (c : ascii) (s : string) :
  Ascii.eqb c "." = false → no_slash (String c s) = true →
  dot_segment true (String c s) = false.
Proof.
  simpl. intros Hdot [Hc Hs]%andb_prop. apply negb_true_iff in Hc.
  rewrite Hc, Hdot. simpl. by apply dot_segment_inside.
Qed.

Lemma pretty_N_go_grows (x : N) (s : string) : ∃ p, pretty_N_go x s = p +:+ s.
Proof.
  revert s. induction (N.lt_wf_0 x) as [x _ IH]; intros s.
  destruct (decide (x = 0)%N) as [->|Hx]; [by exists ""|].
  rewrite pretty_N_go_step by lia.
  destruct (IH (x `div` 10)%N ltac:(apply N.div_lt; lia)
              (String (pretty_N_char (x `mod` 10)) s)) as [p ->].
  exists (p +:+ String (pretty_N_char (x `mod` 10)) ""). by rewrite append_assoc.
Qed.

(** A number is printed with a digit in front. *)
Lemma num_to_string_head (n : N) :
  ∃ c rest, num_to_string n = String c rest ∧ is_digit c = true.
Proof.
  pose proof (num_to_string_digits n) as Hd.
  destruct (num_to_string n) as [|c rest] eqn:Hn.
  - exfalso. unfold num_to_string, pretty, pretty_N in Hn.
    case_decide; [discriminate Hn|].
    rewrite pretty_N_go_step in Hn by lia.
    destruct (pretty_N_go_grows (n `div` 10)%N
                (String (pretty_N_char (n `mod` 10)) "")) as [p Hp].
    rewrite Hp in Hn. destruct p; discriminate Hn.
  - exists c, rest. split; [reflexivity|]. simpl in Hd. by apply andb_prop in Hd as [? _].
Qed.

(** The names the server gives to stored uploads and to temporary
    videos have no segment that starts with a dot. *)
Lemma generated_names_plain (ext : string → string) (now rnd : N) (o taskId : string) :
  (∀ p, no_slash (ext p) = true) → no_slash taskId = true →
  let stored := filename ext now rnd o in
  let temp_input := "temp-input-" +:+ taskId +:+ "-" +:+ num_to_string now +:+ ".mp4" in
  let temp_output := "temp-output-" +:+ taskId +:+ "-" +:+ num_to_string now +:+ ".mp4" in
  (stored ≠ "" ∧ dot_segment true stored = false) ∧
  (temp_input ≠ "" ∧ dot_segment true temp_input = false) ∧
  (temp_output ≠ "" ∧ dot_segment true temp_output = false).
Proof.
  intros Hext Htask. cbv zeta. split; [|split].
  - rewrite filename_unfold.
    destruct (num_to_string_head now) as (c & rest & Hnow & Hc).
    assert (no_slash (num_to_string now +:+ "-" +:+ num_to_string rnd +:+ ext o) = true) as Hns.
    { rewrite !no_slash_append.
      rewrite (digits_no_slash (num_to_string now)) by apply num_to_string_digits.
      rewrite (digits_no_slash (num_to_string rnd)) by apply num_to_string_digits.
      rewrite Hext. reflexivity. }
    rewrite Hnow in *. rewrite append_cons in *. split; [discriminate|].
    apply dot_segment_plain; [|exact Hns].
    destruct (Ascii.eqb_spec c ".") as [->|_]; [discriminate Hc|reflexivity].
  - split; [discriminate|].
    apply (dot_segment_plain "t").
    + reflexivity.
    + change (no_slash ("temp-input-" +:+ taskId +:+ "-" +:+ num_to_string now +:+ ".mp4") = true).
      rewrite !no_slash_append, Htask.
      rewrite (digits_no_slash (num_to_string now)) by apply num_to_string_digits.
      reflexivity.
  - split; [discriminate|].
    apply (dot_segment_plain "t").
    + reflexivity.
    + change (no_slash ("temp-output-" +:+ taskId +:+ "-" +:+ num_to_string now +:+ ".mp4") = true).
      rewrite !no_slash_append, Htask.
      rewrite (digits_no_slash (num_to_string now)) by apply num_to_string_digits.
      reflexivity.
Qed.

End PlainNames.

Section Static.
Import Js Eff Server.
Variable cfg : config.
Variable env : environment.

Lemma append_empty_r (x : string) : x +:+ "" = x.
Proof. induction x as [|c x IH]; [reflexivity|]. by rewrite append_cons, IH. Qed.

Lemma mount_uploads (enc : string) :
  starts_with_slash enc = false →
  below_mount ("/uploads/" +:+ enc) = Some ("/" +:+ enc).
Proof.
  destruct enc as [|c enc]; [reflexivity|]. intros Hc.
  change (below_mount ("/uploads/" +:+ String c enc))
    with (match String "/" (String c enc) with
          | String "/"%char (String "/"%char rest) => Some (String "/"%char rest)
          | String "/"%char rest => Some (String "/"%char rest)
          | _ => None
          end).
  destruct c as [[] [] [] [] [] [] [] []]; first [reflexivity|discriminate Hc].
Qed.

(** What decodes to a name without separator does not start with one. *)
Lemma decoded_no_slash (enc name : string) :
  decodeURIComponent enc = Some name → no_slash name = true →
  starts_with_slash enc = false.
Proof.
  unfold decodeURIComponent. destruct enc as [|c enc]; [reflexivity|].
  destruct (Ascii.eqb_spec c "/") as [->|Hc].
  - simpl. destruct (decode_from Plain enc); [|discriminate].
    intros [= <-]. discriminate.
  - intros _ _. destruct c as [[] [] [] [] [] [] [] []]; first [reflexivity|by destruct Hc].
Qed.

Lemma ends_with_slash_cons (c : ascii) (s : string) :
  s ≠ "" → ends_with_slash (String c s) = ends_with_slash s.
Proof. by destruct s. Qed.

Lemma ends_with_slash_nonempty (s : string) : ends_with_slash s = true → s ≠ "".
Proof. by destruct s. Qed.

Lemma ends_with_slash_append (a b : string) :
  ends_with_slash b = true → ends_with_slash (a +:+ b) = true.
Proof.
  intros Hb. induction a as [|c a IH]; [by rewrite append_empty_l|].
  rewrite append_cons, ends_with_slash_cons; [exact IH|].
  apply ends_with_slash_nonempty, IH.
Qed.

Lemma no_slash_ends (s : string) : no_slash s = true → ends_with_slash s = false.
Proof.
  induction s as [|c s IH]; [reflexivity|]. simpl.
  intros [Hc Hs]%andb_prop. apply negb_true_iff in Hc.
  destruct s; [exact Hc|by apply IH].
Qed.

(** What decodeURIComponent makes of a string that ends with a slash
    ends with a slash. *)
Lemma decode_keeps_last_slash (n : nat) :
  ∀ (s : string) (st : decoding) (d : string),
    (String.length s ≤ n)%nat → decode_from st s = Some d →
    ends_with_slash s = true → ends_with_slash d = true.
Proof.
  induction n as [|n IH]; intros s st d Hlen Hd Hs.
  { destruct s; [discriminate Hs|simpl in Hlen; lia]. }
  destruct s as [|c rest]; [discriminate Hs|]. simpl in Hd, Hlen.
  destruct (Ascii.eqb_spec c "%") as [->|Hc].
  - destruct rest as [|h1 [|h2 rest']]; try discriminate Hd.
    destruct (hex_digit h1) as [a|]; [|discriminate Hd].
    destruct (hex_digit h2) as [b|] eqn:Hh2; [|discriminate Hd].
    assert (ends_with_slash rest' = true) as Hrest.
    { destruct rest' as [|c' r']; [|exact Hs].
      simpl in Hs. apply Ascii.eqb_eq in Hs. subst h2. discriminate Hh2. }
    assert (∀ st' d', decode_from st' rest' = Some d' → ends_with_slash d' = true) as Hrec.
    { intros st' d' Hd'. apply (IH rest' st' d'); [simpl in Hlen; lia|exact Hd'|exact Hrest]. }
    destruct st as [|need lo hi cp].
    + destruct (_ <? 128)%N.
      * destruct (decode_from Plain rest') as [d'|] eqn:Hd'; [|discriminate Hd].
        injection Hd as <-. rewrite ends_with_slash_cons.
        -- by apply (Hrec Plain).
        -- apply ends_with_slash_nonempty. by apply (Hrec Plain).
      * destruct (lead _) as [st'|]; [|discriminate Hd]. by apply (Hrec st').
    + destruct (_ && _); [|discriminate Hd].
      destruct need as [|[|need']]; [discriminate Hd| |by eapply Hrec].
      destruct (decode_from Plain rest') as [d'|] eqn:Hd'; [|discriminate Hd].
      injection Hd as <-. apply ends_with_slash_append. by apply (Hrec Plain).
  - destruct st; [|discriminate Hd].
    destruct (decode_from Plain rest) as [d'|] eqn:Hd'; [|discriminate Hd].
    injection Hd as <-.
    destruct rest as [|c' r'].
    + simpl in Hd'. injection Hd' as <-. exact Hs.
    + rewrite ends_with_slash_cons.
      * apply (IH (String c' r') Plain d'); [lia|exact Hd'|exact Hs].
      * apply ends_with_slash_nonempty.
        apply (IH (String c' r') Plain d'); [lia|exact Hd'|exact Hs].
Qed.

Lemma decode_after_slash (enc name : string) :
  decodeURIComponent enc = Some name →
  decodeURIComponent ("/" +:+ enc) = Some ("/" +:+ name).
Proof. unfold decodeURIComponent. intros H. rewrite append_cons, append_empty_l. simpl. by rewrite H. Qed.

(** The escaped name decodes to the name. *)
Lemma escape_percent_decodes (name : string) :
  decodeURIComponent (escape_percent name) = Some name.
Proof.
  unfold decodeURIComponent. induction name as [|c name IH]; [reflexivity|]. simpl.
  destruct (Ascii.eqb_spec c "%") as [->|Hc].
  - rewrite !append_cons, append_empty_l. simpl. by rewrite IH.
  - simpl. apply Ascii.eqb_neq in Hc. by rewrite Hc, IH.
Qed.

Lemma split_slash_plain (name : string) : no_slash name = true → split_slash name = [name].
Proof.
  induction name as [|c name IH]; [reflexivity|]. simpl.
  intros [Hc Hs]%andb_prop. apply negb_true_iff in Hc. by rewrite Hc, IH.
Qed.

Lemma normalize_plain (name : string) :
  name ≠ "" → starts_with_dot name = false →
  normalize_segments [""; name] = [name].
Proof.
  intros Hne Hdot. unfold normalize_segments. simpl. unfold normalize_step at 1. simpl.
  unfold normalize_step.
  destruct name as [|c rest]; [done|]. simpl in Hdot.
  assert (Ascii.eqb c "." = false) as Hc.
  { destruct (Ascii.eqb_spec c ".") as [->|]; [discriminate Hdot|reflexivity]. }
  simpl. rewrite Hc. reflexivity.
Qed.

(** The directory the server creates and writes temporary videos to is
    the directory the static route reads, when the server runs from its
    own directory. *)
Lemma uploadsDir_is_static_root (name : string) :
  cwd cfg = dirname cfg → starts_with_slash (dirname cfg) = true →
  path_join (uploadsDir cfg) name = resolve cfg ("uploads/" +:+ name).
Proof.
  intros Hcwd Habs. unfold resolve, uploadsDir, path_join.
  assert (starts_with_slash ("uploads/" +:+ name) = false) as -> by reflexivity.
  rewrite Hcwd. rewrite !append_assoc. reflexivity.
Qed.

(** A request for a plain name below the mount point, whatever else it
    carries, is answered from the file of that name under uploads/. *)
Lemma static_serves (r : http_request) (w : world) (enc name : string) :
  Cors.origin (origin r) = Cors.Allow →
  method r = "GET" ∨ method r = "HEAD" →
  json_error r = None →
  url_path r = "/uploads/" +:+ enc →
  decodeURIComponent enc = Some name →
  plain_name name →
  on_disk cfg ("uploads/" +:+ name) w = true →
  app cfg env r w = Served (resolve cfg ("uploads/" +:+ name)).
Proof.
  intros Hcors Hmethod Hjson Hurl Hdec (Hne & Hslash & Hnul & Hdot & Hup) Hdisk.
  unfold app. rewrite Hcors, Hjson, Hurl, (mount_uploads enc (decoded_no_slash enc name Hdec Hslash)).
  assert (String.eqb (method r) "OPTIONS" = false) as ->.
  { destruct Hmethod as [-> | ->]; reflexivity. }
  assert (String.eqb (method r) "GET" || String.eqb (method r) "HEAD" = true) as ->.
  { destruct Hmethod as [-> | ->]; reflexivity. }
  assert (has_nul ("/" +:+ name) = false) as Hnul' by exact Hnul.
  assert (String.eqb ("/" +:+ name) "" = false) as Hempty by reflexivity.
  assert (split_slash ("/" +:+ name) = [""; name]) as Hsplit.
  { rewrite append_cons, append_empty_l. simpl. by rewrite split_slash_plain. }
  assert (ends_with_slash ("/" +:+ name) = false) as Hlast.
  { rewrite append_cons, append_empty_l, ends_with_slash_cons by exact Hne.
    by apply no_slash_ends. }
  assert (ends_with_slash ("/" +:+ enc) = false) as Henc.
  { destruct (ends_with_slash ("/" +:+ enc)) eqn:Henc; [|reflexivity].
    rewrite <-Hlast. symmetry.
    apply (decode_keeps_last_slash (String.length ("/" +:+ enc)) ("/" +:+ enc) Plain);
      [lia|by apply decode_after_slash|exact Henc]. }
  assert ("uploads" +:+ join_segments [name] = "uploads/" +:+ name) as Hjoin.
  { cbn [join_segments]. by rewrite append_empty_r. }
  unfold express_static.
  rewrite (decode_after_slash enc name Hdec), Hnul', Hempty, Hsplit,
    (normalize_plain name Hne Hdot), Hlast, Henc, Hjoin.
  change (default "" (last [name])) with name. cbn [existsb].
  rewrite Hup, Hdot, Hdisk. reflexivity.
Qed.

End Static.

(** C9, as stated, fails for the temporary videos when the server is
    started from another directory than its own: they are written
    below __dirname/uploads, while the static route reads uploads below
    the working directory.  Here a download whose stream fails leaves
    its watermarked video behind, and a request for it under /uploads/
    is not answered by the static route. *)
Lemma temp_video_not_served_from_elsewhere :
  let name := "temp-output-task-1-1700000000000.mp4" in
  let left_behind :=
    snd (Server.get_download started_elsewhere (answering task_succeeded) "task-1"
           Server.StreamError logo_only) in
  Server.path_join (Server.uploadsDir started_elsewhere) name ∈ Eff.disk left_behind ∧
  Server.app started_elsewhere (answering task_succeeded) (anonymous_fetch name) left_behind
  = Server.Routed.
Proof. cbv zeta. split; vm_compute; reflexivity. Qed.

(** C9, amended.  A file under uploads/ of the working directory is
    handed out to any GET or HEAD request for /uploads/<name> that
    passes the CORS stage (in particular to every request without
    Origin header) and express.json(), whatever its Authorization
    header: no check of the caller stands before the static route.
    This holds for the files multer stores there and, only when the
    server runs from its own directory, for the temporary videos
    written under __dirname/uploads, when that directory is given by
    an absolute POSIX path.  The name is one path segment without NUL
    that does not start with a dot and holds no .. next to a backslash,
    and the request carries it in any form that decodeURIComponent
    turns into it. *)
Theorem uploads_are_served
    (cfg : Eff.config) (env : Eff.environment) (r : Server.http_request) (w : Eff.world)
    (enc name : string) :
  Cors.origin (Server.origin r) = Cors.Allow →
  Server.method r = "GET" ∨ Server.method r = "HEAD" →
  Server.json_error r = None →
  Server.url_path r = "/uploads/" +:+ enc →
  Server.decodeURIComponent enc = Some name →
  plain_name name →
  (Server.on_disk cfg ("uploads/" +:+ name) w = true →
   Server.app cfg env r w = Server.Served (Server.resolve cfg ("uploads/" +:+ name))) ∧
  (Eff.cwd cfg = Eff.dirname cfg → Server.starts_with_slash (Eff.dirname cfg) = true →
   Server.path_join (Server.uploadsDir cfg) name ∈ Eff.disk w →
   Server.app cfg env r w = Server.Served (Server.path_join (Server.uploadsDir cfg) name)).
Proof.
  intros Hcors Hmethod Hjson Hurl Hdec Hplain. split.
  - intros Hdisk. by apply (static_serves cfg env r w enc name).
  - intros Hcwd Habs Hdisk.
    rewrite (uploadsDir_is_static_root cfg name Hcwd Habs) in *.
    apply (static_serves cfg env r w enc name); try done.
    unfold Server.on_disk. apply bool_decide_eq_true.
    assert (Server.resolve cfg (Server.resolve cfg ("uploads/" +:+ name))
            = Server.resolve cfg ("uploads/" +:+ name)) as Hidem.
    { unfold Server.resolve at 1.
      assert (Server.starts_with_slash (Server.resolve cfg ("uploads/" +:+ name)) = true) as ->;
        [|reflexivity].
      unfold Server.resolve.
      assert (Server.starts_with_slash ("uploads/" +:+ name) = false) as -> by reflexivity.
      rewrite Hcwd. destruct (Eff.dirname cfg) as [|c rest]; [discriminate Habs|].
      exact Habs. }
    exact Hdisk.
Qed.

Lemma uploads_are_served_witness :
  let name := "temp-output-task-1-1700000000000.mp4" in
  let left_behind :=
    snd (Server.get_download sample_config (answering task_succeeded) "task-1"
           Server.StreamError logo_only) in
  Server.app sample_config same_millisecond (anonymous_fetch "1700000000000-1.png") one_upload
  = Server.Served "/srv/backend/uploads/1700000000000-1.png" ∧
  Server.app sample_config same_millisecond (anonymous_fetch name) left_behind
  = Server.Served (Server.path_join (Server.uploadsDir sample_config) name).
Proof.
  cbv zeta. split.
  - refine (proj1 (uploads_are_served sample_config same_millisecond
                     (anonymous_fetch "1700000000000-1.png")
                     one_upload "1700000000000-1.png" "1700000000000-1.png" _ _ _ _ _ _) _).
    + reflexivity.
    + left. reflexivity.
    + reflexivity.
    + reflexivity.
    + vm_compute. reflexivity.
    + unfold plain_name. split; [discriminate|]. repeat split; reflexivity.
    + vm_compute. reflexivity.
  - refine (proj2 (uploads_are_served sample_config same_millisecond
                     (anonymous_fetch "temp-output-task-1-1700000000000.mp4") _
                     "temp-output-task-1-1700000000000.mp4"
                     "temp-output-task-1-1700000000000.mp4" _ _ _ _ _ _) _ _ _).
    + reflexivity.
    + left. reflexivity.
    + reflexivity.
    + reflexivity.
    + vm_compute. reflexivity.
    + unfold plain_name. split; [discriminate|]. repeat split; reflexivity.
    + reflexivity.
    + reflexivity.
    + vm_compute. reflexivity.
Defined.

(** ** Uploads to the remote store, in full *)

Section Uploading.
Import Js Eff Server.
Variable cfg : config.
Variable env : environment.
Context {L : Type}.

(** Every way an upload to the remote store can end. *)
Lemma uploadToS3_outcome (filePath fileName contentType : string) (l : L) (w : world) :
  let key := Naming.s3_key (date_now env (ticks w)) fileName in
  ∃ c w', uploadToS3 cfg env filePath fileName contentType (l, w) = (c, (l, w')) ∧
    match c with
    | Normal url =>
        S3_ENABLED cfg = true ∧ on_disk cfg filePath w = true ∧
        w' = after_put key contentType w ∧
        s3_send env (calls w') = None ∧ getSignedUrl env key = Normal url
    | Throw e =>
        response e = None ∧
        (w' = w ∨ w' = after_put key contentType w) ∧
        (on_disk cfg filePath w = false → calls w' = calls w) ∧
        (if S3_ENABLED cfg
         then ∃ cause, message e = "Failed to upload to S3: " +:+ cause
         else e = Error "S3 is not configured" ∧ w' = w)
    end.
Proof.
  cbv zeta.
  unfold uploadToS3, try_catch, readFile, Date_now, tick, record, get_world, lift,
    mbind, M_bind, bind, ret, throw. simpl.
  destruct (S3_ENABLED cfg) eqn:Hs3; simpl.
  2:{ eexists _, _. split; [reflexivity|]. simpl. auto 10. }
  destruct (on_disk cfg filePath w) eqn:Hdisk; simpl.
  2:{ eexists _, _. split; [reflexivity|]. simpl. eauto 10. }
  destruct (s3_send env _) eqn:Hsend; simpl.
  { eexists _, _. split; [reflexivity|]. simpl.
    split; [done|]. split; [by right|]. split; [done|]. by eexists. }
  destruct (getSignedUrl env _) eqn:Hsign; simpl.
  - eexists _, _. split; [reflexivity|]. done.
  - eexists _, _. split; [reflexivity|]. simpl.
    split; [done|]. split; [by right|]. split; [done|]. by eexists.
Qed.

End Uploading.

(** ** Submissions, in full *)

Section GenerateDetail.
Import Js Eff Server.
Variable cfg : config.
Variable env : environment.

Lemma describes_payload (b : body) (imageUrl videoUrl : string) :
  describes
    (Obj [("prompt", or_else (Str (default "" (prompt b))) Undefined);
          ("image_url", Str imageUrl);
          ("video_url", Str videoUrl);
          ("character_orientation", str_or_undefined (character_orientation b));
          ("mode", str_or_undefined (mode b));
          ("keep_original_sound", Str (default "yes" (keep_original_sound b)))])
    b imageUrl videoUrl.
Proof.
  repeat split; try reflexivity.
  unfold get_opt, lookup_member, or_else. simpl.
  destruct (prompt b) as [s|]; simpl; [|reflexivity].
  destruct (String.eqb s ""); reflexivity.
Qed.

(** The try block of a submission that passes the checks, in full. *)
Lemma generate_try_detail (req : request) (i v : file) (w : world) :
  passes req i v →
  ∃ c w' added,
    generate_try cfg env req ([], w) = (c, ([i; v], w')) ∧
    calls w' = (calls w ++ added)%list ∧
    submission_calls env (req_body req) i v added ∧
    match c with
    | Normal r =>
        status r = 200 ∧ get_opt (json r) "success" = Bool true ∧
        is_generation_request (last added) ∧
        (∃ answer data, axios env (calls w') = Answer answer ∧
                        get answer "data" = Normal data ∧
                        get_opt (json r) "task_id" = get_opt data "task_id" ∧
                        get_opt (json r) "task_status" = get_opt data "task_status") ∧
        disk w' = disk w ∖ {[resolve cfg (path i); resolve cfg (path v)]}
    | Throw e =>
        disk w' ⊆ disk w ∧
        ∀ st data, response e = Some (st, data) →
          is_generation_request (last added) ∧ axios env (calls w') = HttpError st data
    end.
Proof.
  intros (Hfiles & Hi & Hv & Ho & Hm).
  unfold generate_try. rewrite Hfiles. simpl.
  unfold mbind at 1, M_bind at 1, bind at 1. simpl.
  unfold mbind at 1, M_bind at 1, bind at 1. simpl. unfold MiB in *.
  destruct (Z.gtb_spec (size i) (10 * 1024 * 1024)); [lia|].
  destruct (Z.gtb_spec (size v) (100 * 1024 * 1024)); [lia|].
  assert (truthy (str_or_undefined (character_orientation (req_body req))) = true) as ->.
  { apply not_false_iff_true. by rewrite truthy_field. }
  assert (truthy (str_or_undefined (mode (req_body req))) = true) as ->.
  { apply not_false_iff_true. by rewrite truthy_field. }
  simpl.
  destruct (uploadToS3_outcome cfg env (path i) (originalname i) (mimetype i) [i; v] w)
    as ([imageUrl|e1] & w1 & Hrun1 & H1); rewrite (bind_run _ _ _ _ _ Hrun1).
  2:{ destruct H1 as (Hresp & [->| ->] & _ & _).
      - eexists _, _, []. split; [reflexivity|]. split; [by rewrite app_nil_r|].
        split; [constructor|]. split; [done|]. intros ??. congruence.
      - eexists _, _, [_]. split; [reflexivity|]. split; [reflexivity|].
        split; [constructor|]. split; [done|]. intros ??. congruence. }
  destruct H1 as (_ & _ & -> & _ & Hurl1).
  match goal with |- context [(uploadToS3 cfg env ?a ?b ?c ≫= _) (?l, ?w0)] =>
    destruct (uploadToS3_outcome cfg env a b c l w0) as ([videoUrl|e2] & w2 & Hrun2 & H2) end;
    rewrite (bind_run _ _ _ _ _ Hrun2).
  2:{ destruct H2 as (Hresp & [->| ->] & _ & _).
      - eexists _, _, [_]. split; [reflexivity|]. split; [reflexivity|].
        split; [constructor|]. split; [done|]. intros ??. congruence.
      - eexists _, _, [_; _]. split; [reflexivity|]. split; [simpl; by rewrite <-app_assoc|].
        split; [constructor|]. split; [done|]. intros ??. congruence. }
  destruct H2 as (_ & _ & -> & _ & Hurl2).
  match goal with |- context [(getAuthHeaders cfg env ≫= _) (?l, ?w0)] =>
    pose proof (getAuthHeaders_state cfg env (l, w0)) as Hauth;
    destruct (getAuthHeaders cfg env (l, w0)) as [[h|e3] s3] eqn:Hrun3 end;
    simpl in Hauth; subst s3; rewrite (bind_run _ _ _ _ _ Hrun3).
  2:{ eexists _, _, [_; _]. split; [reflexivity|]. split; [simpl; by rewrite <-app_assoc|].
      split; [constructor|]. split; [done|]. intros st data Hresp. exfalso.
      rewrite (getAuthHeaders_error cfg env _ _ _ Hrun3) in Hresp. discriminate Hresp. }
  unfold mbind at 1, M_bind at 1, bind at 1. simpl.
  unfold mbind at 1, M_bind at 1, bind at 1.
  unfold await_axios at 1, get_world, mbind at 1, M_bind at 1, bind at 1. simpl.
  set (p := Obj _).
  assert (describes p (req_body req) imageUrl videoUrl) as Hp by apply describes_payload.
  clearbody p.
  set (cs := (_ ++ [KlingPost h p])%list).
  assert (cs = (calls w ++ [S3Put (Naming.s3_key (date_now env (ticks w)) (originalname i)) (mimetype i);
                            S3Put (Naming.s3_key (date_now env (S (ticks w))) (originalname v)) (mimetype v);
                            KlingPost h p])%list) as Hcs.
  { unfold cs. simpl. by rewrite <-!app_assoc. }
  assert (submission_calls env (req_body req) i v
            [S3Put (Naming.s3_key (date_now env (ticks w)) (originalname i)) (mimetype i);
             S3Put (Naming.s3_key (date_now env (S (ticks w))) (originalname v)) (mimetype v);
             KlingPost h p]) as Hshape.
  { by eapply request_sent. }
  destruct (axios env cs) as [answer|st data|msg] eqn:Haxios; simpl.
  2:{ eexists _, _, _. split; [reflexivity|]. split; [exact Hcs|]. split; [exact Hshape|].
      split; [done|]. intros st' data' [= <- <-]. split; [by eexists _, _|exact Haxios]. }
  2:{ eexists _, _, _. split; [reflexivity|]. split; [exact Hcs|]. split; [exact Hshape|].
      split; [done|]. intros ??. discriminate. }
  unfold mbind at 1, M_bind at 1, bind at 1. simpl.
  unfold mbind at 1, M_bind at 1, bind at 1. rewrite cleanupFiles_run. simpl.
  unfold lift, mbind, M_bind, bind, ret, throw.
  destruct (get answer "data") as [data|?] eqn:Hdata; simpl.
  2:{ eexists _, _, _. split; [reflexivity|]. split; [exact Hcs|]. split; [exact Hshape|].
      split; [simpl; set_solver|]. intros ??. discriminate. }
  destruct (get data "task_id") as [task_id|?] eqn:Htid; simpl.
  2:{ eexists _, _, _. split; [reflexivity|]. split; [exact Hcs|]. split; [exact Hshape|].
      split; [simpl; set_solver|]. intros ??. discriminate. }
  assert (∀ k, get data k = Normal (get_opt data k)) as Hget.
  { intros k. destruct data; try discriminate Htid; reflexivity. }
  rewrite !Hget. simpl. rewrite Hget in Htid. injection Htid as <-.
  eexists _, _, _. split; [reflexivity|]. split; [exact Hcs|]. split; [exact Hshape|].
  split; [reflexivity|]. split; [reflexivity|]. split; [by eexists _, _|].
  split; [|simpl; set_solver].
  exists answer, data. split; [exact Haxios|]. split; [exact Hdata|]. split; reflexivity.
Qed.

End GenerateDetail.

Section GenerateRoute.
Import Js Eff Server.
Variable cfg : config.
Variable env : environment.

Lemma blank_dec (o : option string) : blank o ∨ ¬ blank o.
Proof.
  unfold blank. destruct o as [s|]; [|by left; left].
  destruct (String.eqb_spec s "") as [->|Hne]; [by left; right|].
  right. intros [H|H]; [discriminate H|]. injection H as ->. by destruct Hne.
Qed.

Lemma violates_or_passes (req : request) :
  violates req ∨ ∃ i v, passes req i v.
Proof.
  unfold violates, passes. destruct (req_files req) as [[[i|] [v|]]|]; simpl; auto.
  destruct (Z_gt_le_dec (size i) (10 * MiB)); [auto|].
  destruct (Z_gt_le_dec (size v) (100 * MiB)); [auto|].
  destruct (blank_dec (character_orientation (req_body req))); [auto|].
  destruct (blank_dec (mode (req_body req))); [auto 6|].
  right. exists i, v. done.
Qed.

Lemma generate_catch_detail (e : error) (l : list file) (w : world) :
  ∃ r, generate_catch cfg e (l, w)
       = (Normal r,
          (l, with_disk (disk w ∖ list_to_set ((λ f, resolve cfg (path f)) <$> l)) w)) ∧
       get_opt (json r) "success" = Bool false ∧
       (status r = 500 ∨ ∃ data, response e = Some (status r, data)).
Proof.
  unfold generate_catch, get_local, mbind, M_bind, bind. simpl.
  rewrite cleanupFiles_run.
  destruct (response e) as [[st data]|]; [destruct (truthy data)|];
    eexists; (split; [reflexivity|]); (split; [reflexivity|]); simpl; auto.
  destruct (Z.eqb_spec st 0); [by left|right; by eexists].
Qed.

End GenerateRoute.

Section UploadStage.
Import Js Eff Server.
Variable cfg : config.
Variable env : environment.
Context {L : Type}.

Lemma well_stored_more (field : string) (f : file) (w w' : world) :
  disk w ⊆ disk w' → well_stored cfg env field f w → well_stored cfg env field f w'.
Proof.
  intros Hsub (Hf & Hs & Hp & Hd). split; [done|]. split; [done|]. split; [done|].
  unfold on_disk in *. apply bool_decide_eq_true. apply bool_decide_eq_true in Hd. set_solver.
Qed.

Lemma multer_parts_outcome (all parts : list entry) (acc : files) (stored : list file)
    (l : L) (w : world) :
  (∀ p, p ∈ parts → p ∈ all) →
  slots_well_stored cfg env acc w → slots_from all acc →
  ∃ c w', multer_parts cfg env parts acc stored (l, w) = (Normal c, (l, w')) ∧
          match c with
          | inl r => ∃ msg, r = Failed msg
          | inr fs => slots_well_stored cfg env fs w' ∧ slots_from all fs
          end.
Proof.
  revert acc stored w.
  induction parts as [|[p|broken] parts IH]; intros acc stored w Hall Hacc Hfrom.
  { eexists _, _. split; [reflexivity|]. by split. }
  2:{ simpl. unfold abort_upload, mbind, M_bind, bind. rewrite unlink_each_run.
      eexists _, _. split; [reflexivity|]. by eexists. }
  assert (∀ q, q ∈ parts → q ∈ all) as Hall'.
  { intros q Hq. apply Hall. by right. }
  simpl. destruct (String.eqb (part_originalname p) ""); [by apply IH|].
  destruct (negb _) eqn:Hexp.
  { unfold abort_upload, mbind, M_bind, bind. rewrite unlink_each_run.
    eexists _, _. split; [reflexivity|]. by eexists. }
  apply negb_false_iff in Hexp.
  unfold mbind at 1, M_bind at 1, bind at 1.
  destruct (store_part_run cfg env p l w) as ([msg|f] & w1 & -> & Hcalls & Hstored).
  { unfold abort_upload, mbind, M_bind, bind. rewrite unlink_each_run.
    eexists _, _. split; [reflexivity|]. by eexists. }
  destruct Hstored as (Hdisk & Hfield & Hsize & Hname & Hmime & now & rnd & Hpath).
  destruct (Z.geb_spec (part_size p) fileSize) as [Hbig|Hfit].
  { unfold abort_upload, mbind, M_bind, bind. rewrite unlink_each_run.
    eexists _, _. split; [reflexivity|]. by eexists. }
  match goal with |- context [multer_parts cfg env parts ?a ?st (l, w1)] =>
    destruct (IH a st w1 Hall') as (c & w' & Hrec & Hc) end.
  3:{ eexists _, _. split; [exact Hrec|exact Hc]. }
  - assert (well_stored cfg env (part_field p) f w1) as Hf.
    { split; [done|]. split; [lia|]. split; [exists now, rnd; by rewrite Hname|].
      unfold on_disk. apply bool_decide_eq_true. rewrite Hdisk. set_solver. }
    destruct Hacc as [Himg Hvid].
    assert (∀ field g, well_stored cfg env field g w → well_stored cfg env field g w1) as Hkeep.
    { intros field g. apply well_stored_more. rewrite Hdisk. set_solver. }
    destruct (String.eqb_spec (part_field p) "image") as [Heq|Hne].
    + rewrite Heq in Hf. split; simpl.
      * intros g [= <-]. exact Hf.
      * intros g Hg. apply Hkeep. by apply Hvid.
    + destruct (String.eqb_spec (part_field p) "video") as [Heq|Hne']; [|discriminate Hexp].
      rewrite Heq in Hf. split; simpl.
      * intros g Hg. apply Hkeep. by apply Himg.
      * intros g [= <-]. exact Hf.
  - assert (from_part all f) as Hf.
    { exists p. split; [apply Hall; by left|done]. }
    destruct Hfrom as [Himg Hvid].
    destruct (String.eqb (part_field p) "image"); split; simpl.
    + intros g [= <-]. exact Hf.
    + exact Hvid.
    + exact Himg.
    + intros g [= <-]. exact Hf.
Qed.

(** The upload stage never throws.  When it lets a request through, the
    text fields are the request's own and every file it hands over is
    well stored and made of a part of the request; a request that is
    not multipart comes through without files. *)
Lemma upload_fields_outcome (inc : incoming) (l : L) (w : world) :
  ∃ c w', upload_fields cfg env inc (l, w) = (Normal c, (l, w')) ∧
          match c with
          | Failed _ => True
          | Passed req =>
              req_body req = in_body inc ∧
              match req_files req with
              | Some fs =>
                  slots_well_stored cfg env fs w' ∧
                  ∃ parts, in_parts inc = Some parts ∧ slots_from parts fs
              | None => in_parts inc = None
              end
          end.
Proof.
  unfold upload_fields. destruct (in_parts inc) as [parts|].
  - unfold mbind, M_bind, bind.
    destruct (multer_parts_outcome parts parts {| image := None; video := None |} [] l w)
      as ([r|fs] & w' & -> & Hc).
    + done.
    + by split; intros ? [=].
    + by split; intros ? [=].
    + destruct Hc as [msg ->]. by eexists _, _.
    + eexists _, _. split; [reflexivity|]. split; [reflexivity|].
      destruct Hc as [Hstored Hfrom]. split; [exact Hstored|]. by exists parts.
  - eexists _, _. split; [reflexivity|]. by split.
Qed.

End UploadStage.

Section GenerateRouteDetail.
Import Js Eff Server.
Variable cfg : config.
Variable env : environment.

(** Every way the handler of a submission can end. *)
Lemma generate_handler_detail (req : request) (w : world) :
  ∃ r l w' added,
    generate_handler cfg env req ([], w) = (Normal r, (l, w')) ∧
    calls w' = (calls w ++ added)%list ∧
    (added = [] ∨ ∃ i v, passes req i v ∧ submission_calls env (req_body req) i v added) ∧
    (get_opt (json r) "success" = Bool true →
       status r = 200 ∧ is_generation_request (last added) ∧
       ∃ answer data, axios env (calls w') = Answer answer ∧
                      get answer "data" = Normal data ∧
                      get_opt (json r) "task_id" = get_opt data "task_id" ∧
                      get_opt (json r) "task_status" = get_opt data "task_status") ∧
    (status r = 200 ∨ status r = 400 ∨ status r = 500 ∨
     ∃ data, is_generation_request (last added) ∧
             axios env (calls w') = HttpError (status r) data).
Proof.
  destruct (violates_or_passes req) as [Hv|(i & v & Hp)].
  - destruct (generate_violation cfg env req w Hv) as (msg & l & ->).
    exists (bad_request msg), l, w, []. split; [reflexivity|].
    split; [by rewrite app_nil_r|]. split; [by left|].
    split; [discriminate|]. by right; left.
  - unfold generate_handler, try_catch.
    destruct (generate_try_detail cfg env req i v w Hp)
      as ([r|e] & w1 & added & -> & Hcalls & Hshape & Hc).
    + destruct Hc as (Hst & Hsucc & Hlast & Hans & _).
      exists r, [i; v], w1, added. split; [reflexivity|]. split; [exact Hcalls|].
      split; [right; by exists i, v|]. split; [done|]. by left.
    + destruct Hc as (_ & Hresp).
      destruct (generate_catch_detail cfg e [i; v] w1) as (r & -> & Hfalse & Hstatus).
      eexists r, [i; v], _, added. split; [reflexivity|]. split; [exact Hcalls|].
      split; [right; by exists i, v|].
      split; [intros Htrue; congruence|].
      destruct Hstatus as [->|[data Hdata]]; [by right; right; left|].
      right; right; right. exists data. by apply Hresp.
Qed.

(** Every way a submission can end, express.json() and the upload
    stage included. *)
Lemma post_generate_detail (inc : incoming) (w : world) :
  ∃ r w' added,
    post_generate cfg env inc w = (Some r, w') ∧
    calls w' = (calls w ++ added)%list ∧
    (added = [] ∨
     ∃ parts i v,
       in_parts inc = Some parts ∧
       (from_part parts i ∧ fieldname i = "image") ∧
       (from_part parts v ∧ fieldname v = "video") ∧
       submission_calls env (in_body inc) i v added) ∧
    (get_opt (json r) "success" = Bool true →
       status r = 200 ∧ is_generation_request (last added) ∧
       ∃ answer data, axios env (calls w') = Answer answer ∧
                      get answer "data" = Normal data ∧
                      get_opt (json r) "task_id" = get_opt data "task_id" ∧
                      get_opt (json r) "task_status" = get_opt data "task_status") ∧
    (status r = 200 ∨ status r = 400 ∨ status r = 500 ∨
     (in_parts inc = None ∧ (status r = 413 ∨ status r = 415)) ∨
     ∃ data, is_generation_request (last added) ∧
             axios env (calls w') = HttpError (status r) data).
Proof.
  assert (∃ r w' added,
            match upload_fields cfg env inc ((), w) with
            | (Normal (Passed req), (_, w1)) =>
                match generate_handler cfg env req ([], w1) with
                | (Normal r, (_, w2)) => (Some r, w2)
                | (Throw _, (_, w2)) => (None, w2)
                end
            | (Normal (Failed msg), (_, w1)) => (Some (express_error msg), w1)
            | (Throw _, (_, w1)) => (None, w1)
            end = (Some r, w') ∧
            calls w' = (calls w ++ added)%list ∧
            (added = [] ∨
             ∃ parts i v,
               in_parts inc = Some parts ∧
               (from_part parts i ∧ fieldname i = "image") ∧
               (from_part parts v ∧ fieldname v = "video") ∧
               submission_calls env (in_body inc) i v added) ∧
            (get_opt (json r) "success" = Bool true →
               status r = 200 ∧ is_generation_request (last added) ∧
               ∃ answer data, axios env (calls w') = Answer answer ∧
                              get answer "data" = Normal data ∧
                              get_opt (json r) "task_id" = get_opt data "task_id" ∧
                              get_opt (json r) "task_status" = get_opt data "task_status") ∧
            (status r = 200 ∨ status r = 400 ∨ status r = 500 ∨
             ∃ data, is_generation_request (last added) ∧
                     axios env (calls w') = HttpError (status r) data)) as Hroute.
  { pose proof (upload_fields_calls cfg env inc () w) as Hcalls0.
    destruct (upload_fields_outcome cfg env inc () w) as ([req|msg] & w0 & Hup & Hc);
      rewrite Hup in *; simpl in Hcalls0.
    2:{ exists (express_error msg), w0, []. split; [reflexivity|].
        split; [by rewrite app_nil_r|]. split; [by left|]. split; [discriminate|].
        by right; right; left. }
    destruct Hc as [Hbody Hfiles].
    destruct (generate_handler_detail req w0)
      as (r & l & w' & added & -> & Hcalls & Hshape & Hs & Hst).
    exists r, w', added. split; [reflexivity|]. rewrite <-Hcalls0, <-Hbody.
    split; [exact Hcalls|]. split; [|by split].
    destruct Hshape as [->|(i & v & Hpass & Hshape)]; [by left|right].
    destruct Hpass as (Hreq & _). rewrite Hreq in Hfiles.
    destruct Hfiles as ([Himg Hvid] & parts & Hparts & [Hfi Hfv]).
    exists parts, i, v. split; [exact Hparts|].
    split; [split; [by apply Hfi|by apply (Himg i)]|].
    split; [split; [by apply Hfv|by apply (Hvid v)]|]. exact Hshape. }
  unfold post_generate, express_json.
  destruct (in_parts inc) as [parts|] eqn:Hparts; [|destruct (in_json inc) as [err|]].
  - destruct Hroute as (r & w' & added & Hrun & Hcalls & Hshape & Hs & Hst).
    exists r, w', added. repeat (split; [done|]).
    destruct Hst as [?|[?|[?|?]]]; auto 10.
  - exists (express_body_error err), w, []. split; [reflexivity|].
    split; [by rewrite app_nil_r|]. split; [by left|].
    split; [destruct err; discriminate|].
    destruct err; simpl; auto 10.
  - destruct Hroute as (r & w' & added & Hrun & Hcalls & Hshape & Hs & Hst).
    exists r, w', added. repeat (split; [done|]).
    destruct Hst as [?|[?|[?|?]]]; auto 10.
Qed.

End GenerateRouteDetail.

Section GenerateAnswers.
Import Js Eff Server.
Variable cfg : config.
Variable env : environment.

Lemma generate_catch_members (e : error) (s : list file * world) (r : res) (s' : list file * world) :
  generate_catch cfg e s = (Normal r, s') → (3 ≤ members_count r)%nat.
Proof.
  destruct s as [l w].
  unfold generate_catch, get_local, mbind, M_bind, bind. simpl.
  rewrite cleanupFiles_run.
  destruct (response e) as [[st data]|]; [destruct (truthy data)|];
    intros [= <- _]; unfold members_count; simpl; lia.
Qed.

(** The handler answers that the video is too large only for a video
    above 100 MiB. *)
Lemma video_message_needs_large_video (req : request) (w : world) (s' : list file * world) :
  generate_handler cfg env req ([], w)
  = (Normal (bad_request "Video file must be less than 100MB"), s') →
  ∃ fs v, req_files req = Some fs ∧ video fs = Some v ∧ size v > 100 * MiB.
Proof.
  unfold generate_handler, try_catch.
  destruct (generate_try cfg env req ([], w)) as [[r|e] s1] eqn:Htry.
  - intros [= -> _]. revert Htry. unfold generate_try.
    destruct (req_files req) as [[[i|] [v|]]|]; simpl;
      try (unfold ret, bad_request; intros Heq; discriminate Heq).
    unfold mbind at 1, M_bind at 1, bind at 1. simpl.
    unfold mbind at 1, M_bind at 1, bind at 1. simpl.
    destruct (Z.gtb_spec (size i) (10 * 1024 * 1024));
      [unfold ret, bad_request; intros Heq; discriminate Heq|].
    destruct (Z.gtb_spec (size v) (100 * 1024 * 1024)) as [Hbig|Hfit].
    { intros _. eexists _, v. split; [reflexivity|]. split; [reflexivity|]. unfold MiB. lia. }
    destruct (negb _ || negb _) eqn:Hblank;
      [unfold ret, bad_request; intros Heq; discriminate Heq|].
    intros Hrun. exfalso.
    assert (passes
              {| req_files := Some {| image := Some i; video := Some v |};
                 req_body := req_body req |} i v) as Hp.
    { apply orb_false_elim in Hblank as [Ho Hm].
      apply negb_false_iff in Ho, Hm.
      split; [reflexivity|]. unfold MiB. split; [lia|]. split; [lia|].
      split; intros Hb%truthy_field; simpl in *; congruence. }
    destruct (generate_try_detail cfg env _ i v w Hp) as (c & w1 & added & Hrun' & _ & _ & Hc).
    unfold generate_try in Hrun'. simpl in Hrun'.
    unfold mbind at 1, M_bind at 1, bind at 1 in Hrun'. simpl in Hrun'.
    unfold mbind at 1, M_bind at 1, bind at 1 in Hrun'. simpl in Hrun'.
    destruct (Z.gtb_spec (size i) (10 * 1024 * 1024)); [lia|].
    destruct (Z.gtb_spec (size v) (100 * 1024 * 1024)); [lia|].
    rewrite Hblank in Hrun'. rewrite Hrun in Hrun'. injection Hrun' as <- _.
    destruct Hc as [Hst _]. discriminate Hst.
  - intros Hcatch. apply generate_catch_members in Hcatch.
    unfold members_count in Hcatch. simpl in Hcatch. lia.
Qed.

End GenerateAnswers.

(** ** Status queries and downloads, in full *)

Section TaskRoute.
Import Js Eff Server.
Variable cfg : config.
Variable env : environment.

(** Every way a status query can end. *)
Lemma task_handler_detail (taskId : string) (w : world) :
  ∃ r w', task_handler cfg env taskId ((), w) = (Normal r, ((), w')) ∧
          disk w' = disk w ∧
          match fst (getAuthHeaders cfg env ((), w)) with
          | Normal h =>
              w' = after_status_query h taskId w ∧
              task_answer (axios env (calls w')) r
          | Throw _ => w' = ticked w ∧ status r = 500
          end.
Proof.
  unfold task_handler, try_catch.
  pose proof (getAuthHeaders_state cfg env ((), w)) as Hauth.
  destruct (getAuthHeaders cfg env ((), w)) as [[h|e] s1] eqn:Hrun; simpl in Hauth; subst s1;
    rewrite (bind_run _ _ _ _ _ Hrun); simpl.
  2:{ destruct (response e) as [[st data]|] eqn:Hresp.
      - exfalso. rewrite (getAuthHeaders_error cfg env _ _ _ Hrun) in Hresp.
        discriminate Hresp.
      - eexists _, _. split; [reflexivity|]. repeat split; reflexivity. }
  unfold mbind at 1, M_bind at 1, bind at 1. simpl.
  unfold await_axios, get_world, mbind at 1, M_bind at 1, bind at 1. simpl.
  unfold mbind at 1, M_bind at 1, bind at 1. simpl.
  fold (after_status_query h taskId w).
  change (calls w ++ [KlingGet h taskId])%list with (calls (after_status_query h taskId w)).
  destruct (axios env (calls (after_status_query h taskId w))) as [answer|st data|msg] eqn:Hax;
    simpl.
  - unfold lift, mbind, M_bind, bind.
    destruct (get answer "data") as [data|m] eqn:Hdata; simpl;
      eexists _, _; (split; [reflexivity|]); (split; [reflexivity|]);
      (split; [reflexivity|]); unfold task_answer; rewrite Hax, Hdata;
      repeat split; reflexivity.
  - destruct (truthy data) eqn:Hdata; eexists _, _; (split; [reflexivity|]);
      (split; [reflexivity|]); (split; [reflexivity|]); unfold task_answer;
      rewrite Hax, Hdata; repeat split; reflexivity.
  - eexists _, _. split; [reflexivity|]. do 2 (split; [reflexivity|]).
    unfold task_answer. rewrite Hax. do 2 (split; [reflexivity|]).
    unfold or_else, get_opt, lookup_member. simpl.
    destruct (String.eqb msg ""); reflexivity.
Qed.

End TaskRoute.

Section DownloadDetail.
Import Js Eff Server.
Variable cfg : config.
Variable env : environment.


End DownloadDetail.

(** ** Removing files *)

(** X1.  cleanupFiles never throws, starts no outbound call and reads
    no clock.  Afterwards the disk holds exactly the files it held
    before that are not the path of a listed file: a listed file that
    is absent is passed over, and nothing else is removed. *)
Theorem cleanupFiles_removes_listed
    (cfg : Eff.config) (L : Type) (fs : list Server.file) (l : L) (w : Eff.world) :
  ∃ w', Server.cleanupFiles cfg fs (l, w) = (Js.Normal (), (l, w')) ∧
        Eff.calls w' = Eff.calls w ∧ Eff.ticks w' = Eff.ticks w ∧
        ∀ p, p ∈ Eff.disk w' ↔
             p ∈ Eff.disk w ∧ ∀ f, f ∈ fs → Server.resolve cfg (Server.path f) ≠ p.
Proof.
  rewrite cleanupFiles_run. eexists. split; [reflexivity|]. split; [reflexivity|].
  split; [reflexivity|]. intros p. simpl.
  rewrite elem_of_difference, elem_of_list_to_set, list_elem_of_fmap.
  split.
  - intros [Hp Hnot]. split; [done|]. intros f Hf Heq. apply Hnot. by exists f.
  - intros [Hp Hnot]. split; [done|]. intros (f & -> & Hf). by apply (Hnot f).
Qed.

(** ** Uploads to the remote store *)

(** X2.  uploadToS3 returns a URL exactly when the store is enabled
    (S3_ENABLED is the string true), the file is on the disk, the PUT
    that is sent succeeds and presigning its key yields this URL.  It
    then has read the clock once and started one call, the PUT of the
    key kling-uploads/<now>-<fileName> with the given content type; the
    disk is as it was. *)
Theorem uploadToS3_returns_iff
    (cfg : Eff.config) (env : Eff.environment) (L : Type)
    (filePath fileName contentType url : string) (l : L) (w : Eff.world) :
  let key := "kling-uploads/" +:+ Naming.num_to_string (Eff.date_now env (Eff.ticks w))
             +:+ "-" +:+ fileName in
  let run := Server.uploadToS3 cfg env filePath fileName contentType (l, w) in
  (fst run = Js.Normal url
   ↔ Eff.env_S3_ENABLED cfg = Some "true" ∧
     Server.on_disk cfg filePath w = true ∧
     Eff.s3_send env (Eff.calls w ++ [Eff.S3Put key contentType]) = None ∧
     Eff.getSignedUrl env key = Js.Normal url) ∧
  (fst run = Js.Normal url →
   snd run = (l, {| Eff.disk := Eff.disk w;
                    Eff.calls := Eff.calls w ++ [Eff.S3Put key contentType];
                    Eff.ticks := S (Eff.ticks w) |})).
Proof.
  cbv zeta. fold (Naming.s3_key (Eff.date_now env (Eff.ticks w)) fileName).
  destruct (uploadToS3_outcome cfg env filePath fileName contentType l w)
    as (c & w' & Hrun & Hc).
  split; [split|].
  - rewrite Hrun. simpl. intros ->.
    destruct Hc as (Hs3 & Hdisk & -> & Hsend & Hurl).
    split; [|done].
    unfold Server.S3_ENABLED in Hs3. destruct (Eff.env_S3_ENABLED cfg) as [s|]; [|discriminate].
    apply String.eqb_eq in Hs3. by subst.
  - intros (Hs3 & Hdisk & Hsend & Hurl). clear Hrun Hc.
    unfold Server.uploadToS3, Server.S3_ENABLED. rewrite Hs3. simpl.
    unfold Eff.try_catch, Server.readFile, Server.Date_now, Eff.tick, Eff.record,
      Eff.get_world, Eff.lift, mbind, Eff.M_bind, Eff.bind, Eff.ret, Eff.throw. simpl.
    rewrite Hdisk. simpl. rewrite Hsend. simpl. rewrite Hurl. reflexivity.
  - rewrite Hrun. simpl. intros ->. by destruct Hc as (_ & _ & -> & _).
Qed.

(** X3.  An upload to the store that throws leaves the disk as it was
    and throws an error without a response of a peer.  When the file is
    absent no call has been started.  With the store enabled the
    message starts with "Failed to upload to S3: "; with the store
    disabled it is "S3 is not configured" and nothing at all has
    happened. *)
Theorem uploadToS3_failure
    (cfg : Eff.config) (env : Eff.environment) (L : Type)
    (filePath fileName contentType : string) (l : L) (w : Eff.world)
    (e : Eff.error) (s' : L * Eff.world) :
  Server.uploadToS3 cfg env filePath fileName contentType (l, w) = (Js.Throw e, s') →
  fst s' = l ∧ Eff.disk (snd s') = Eff.disk w ∧ Eff.response e = None ∧
  (Server.on_disk cfg filePath w = false → Eff.calls (snd s') = Eff.calls w) ∧
  (if Server.S3_ENABLED cfg
   then ∃ cause, Eff.message e = "Failed to upload to S3: " +:+ cause
   else Eff.message e = "S3 is not configured" ∧ snd s' = w).
Proof.
  intros Hrun.
  destruct (uploadToS3_outcome cfg env filePath fileName contentType l w)
    as (c & w' & Hrun' & Hc).
  rewrite Hrun in Hrun'. injection Hrun' as <- ->. simpl.
  destruct Hc as (Hresp & Hw & Hmissing & Hmsg).
  split; [done|]. split; [by destruct Hw as [-> | ->]|]. split; [done|]. split; [done|].
  destruct (Server.S3_ENABLED cfg); [done|]. by destruct Hmsg as [-> ->].
Qed.

Lemma uploadToS3_failure_witness :
  ∃ e s', Server.uploadToS3 sample_config same_millisecond
            "uploads/missing.png" "face.png" "image/png" ((), empty_world) = (Js.Throw e, s') ∧
          Eff.calls (snd s') = Eff.calls empty_world.
Proof.
  eexists _, _. split; [vm_compute; reflexivity|].
  refine (proj1 (proj2 (proj2 (proj2
    (uploadToS3_failure sample_config same_millisecond unit
       "uploads/missing.png" "face.png" "image/png" () empty_world _ _ _)))) _).
  - vm_compute. reflexivity.
  - vm_compute. reflexivity.
Defined.

Lemma last_added {A} (l added : list A) (x : A) :
  last added = Some x → last (l ++ added) = Some x.
Proof. intros H. rewrite last_app, H. reflexivity. Qed.

(** ** Submissions *)

(** X4.  The outbound calls of a submission, in order: nothing; or the
    PUT of the image; or the PUT of the image and the PUT of the video;
    or both followed by the generation request, whose payload carries
    the two presigned URLs and the form fields.  The image is the file
    of the part that came in the field image of this request, the video
    the file of the part that came in its field video, each put under
    its own name and content type.  The generation request is never
    sent before both uploads returned. *)
Theorem uploads_precede_generation_request
    (cfg : Eff.config) (env : Eff.environment) (inc : Server.incoming) (w : Eff.world) :
  ∃ added,
    Eff.calls (snd (Server.post_generate cfg env inc w)) = (Eff.calls w ++ added)%list ∧
    (added = [] ∨
     ∃ parts image video,
       Server.in_parts inc = Some parts ∧
       Server.FilePart image ∈ parts ∧ Server.part_field image = "image" ∧
       Server.FilePart video ∈ parts ∧ Server.part_field video = "video" ∧
       ∃ t1 t2,
         let image_put :=
           Eff.S3Put (Naming.s3_key t1 (Server.part_originalname image))
             (Server.part_mimetype image) in
         let video_put :=
           Eff.S3Put (Naming.s3_key t2 (Server.part_originalname video))
             (Server.part_mimetype video) in
         added = [image_put] ∨
         added = [image_put; video_put] ∨
         ∃ imageUrl videoUrl h p,
           Eff.getSignedUrl env (Naming.s3_key t1 (Server.part_originalname image))
           = Js.Normal imageUrl ∧
           Eff.getSignedUrl env (Naming.s3_key t2 (Server.part_originalname video))
           = Js.Normal videoUrl ∧
           describes p (Server.in_body inc) imageUrl videoUrl ∧
           added = [image_put; video_put; Eff.KlingPost h p]).
Proof.
  destruct (post_generate_detail cfg env inc w) as (r & w' & added & -> & Hcalls & Hshape & _).
  exists added. split; [exact Hcalls|].
  destruct Hshape as [->|(parts & i & v & Hparts & [Hi Hfi] & [Hv Hfv] & Hshape)]; [by left|].
  destruct Hi as (pi & Hpi & Hi1 & Hi2 & Hi3 & _).
  destruct Hv as (pv & Hpv & Hv1 & Hv2 & Hv3 & _).
  destruct Hshape as [|t1|t1 t2|t1 t2 imageUrl videoUrl h p Hu1 Hu2 Hp]; [by left|right..].
  all: exists parts, pi, pv.
  all: split; [exact Hparts|]; split; [exact Hpi|]; split; [congruence|].
  all: split; [exact Hpv|]; split; [congruence|].
  all: rewrite <-?Hi2, <-?Hi3, <-?Hv2, <-?Hv3.
  - exists t1, 0%N. by left.
  - exists t1, t2. by right; left.
  - exists t1, t2. right; right. by exists imageUrl, videoUrl, h, p.
Qed.

(** X5.  An answer of the submission route with success true has status
    200; the last call made is the generation request, the external API
    answered it, and task_id and task_status of the answer are those of
    the data member of what the API said. *)
Theorem success_means_submitted
    (cfg : Eff.config) (env : Eff.environment) (inc : Server.incoming) (w : Eff.world)
    (r : Server.res) :
  fst (Server.post_generate cfg env inc w) = Some r →
  Js.get_opt (Server.json r) "success" = Js.Bool true →
  let w' := snd (Server.post_generate cfg env inc w) in
  Server.status r = 200 ∧
  is_generation_request (last (Eff.calls w')) ∧
  ∃ answer data,
    Eff.axios env (Eff.calls w') = Eff.Answer answer ∧
    Js.get answer "data" = Js.Normal data ∧
    Js.get_opt (Server.json r) "task_id" = Js.get_opt data "task_id" ∧
    Js.get_opt (Server.json r) "task_status" = Js.get_opt data "task_status".
Proof.
  destruct (post_generate_detail cfg env inc w)
    as (r' & w' & added & -> & Hcalls & _ & Hsucc & _).
  simpl. intros [= <-] Htrue. destruct (Hsucc Htrue) as (Hst & (h & p & Hlast) & Hans).
  split; [done|]. split; [|done].
  exists h, p. rewrite Hcalls. by apply last_added.
Qed.

Lemma success_means_submitted_witness :
  ∃ r, fst (Server.post_generate sample_config same_millisecond
              (submission 1000 2000) empty_world) = Some r ∧
       Server.status r = 200 ∧ Js.get_opt (Server.json r) "task_id" = Js.Str "t-1".
Proof.
  eexists. split; [vm_compute; reflexivity|].
  destruct (success_means_submitted sample_config same_millisecond
              (submission 1000 2000) empty_world _
              ltac:(vm_compute; reflexivity) ltac:(vm_compute; reflexivity))
    as (Hst & _ & _).
  split; [exact Hst|]. vm_compute. reflexivity.
Defined.

(** X6.  The submission route behind the CORS stage always answers:
    with status 200, 400 or 500; or, for a request that is not
    multipart, with the 413 or 415 of express.json(); or with the status
    of the error answer the external API gave to the generation
    request. *)
Theorem submission_status_codes
    (cfg : Eff.config) (env : Eff.environment) (inc : Server.incoming) (w : Eff.world) :
  let w' := snd (Server.post_generate cfg env inc w) in
  ∃ r, fst (Server.post_generate cfg env inc w) = Some r ∧
       (Server.status r = 200 ∨ Server.status r = 400 ∨ Server.status r = 500 ∨
        (Server.in_parts inc = None ∧ (Server.status r = 413 ∨ Server.status r = 415)) ∨
        ∃ data, is_generation_request (last (Eff.calls w')) ∧
                Eff.axios env (Eff.calls w') = Eff.HttpError (Server.status r) data).
Proof.
  destruct (post_generate_detail cfg env inc w)
    as (r & w' & added & -> & Hcalls & _ & _ & Hst).
  simpl. exists r. split; [reflexivity|].
  destruct Hst as [?|[?|[?|[?|(data & (h & p & Hlast) & Hax)]]]]; auto.
  right; right; right; right. exists data. split; [|done].
  exists h, p. rewrite Hcalls. by apply last_added.
Qed.

(** generate_passed_cleans at a submission with two stored files. *)
Lemma generate_passed_cleans_witness :
  ∃ r s', Server.generate_handler sample_config same_millisecond stored_submission
            ([], two_uploads)
          = (Js.Normal r, s') ∧
          Eff.disk (snd s') ⊆ Eff.disk two_uploads.
Proof.
  destruct (generate_passed_cleans sample_config same_millisecond stored_submission
              stored_image stored_video two_uploads) as (r & w' & Hrun & _ & _ & Hsub).
  - unfold passes, blank. split; [reflexivity|]. simpl. unfold Server.MiB.
    split; [lia|]. split; [lia|]. split; intros [H|H]; discriminate H.
  - eexists r, _. split; [exact Hrun|exact Hsub].
Defined.

(** X8.  What the upload stage hands to the handler: the text fields
    of the request as they came, and in each slot of req.files a file
    of that field, below the limit of 100 MiB, stored on the disk under
    uploads/ with a generated name. *)
Theorem accepted_files_well_stored
    (cfg : Eff.config) (env : Eff.environment) (L : Type) (inc : Server.incoming)
    (l : L) (w : Eff.world) (req : Server.request) (s' : L * Eff.world)
    (fs : Server.files) :
  Server.upload_fields cfg env inc (l, w) = (Js.Normal (Server.Passed req), s') →
  Server.req_files req = Some fs →
  Server.req_body req = Server.in_body inc ∧
  slots_well_stored cfg env fs (snd s').
Proof.
  intros Hrun Hfs.
  destruct (upload_fields_outcome cfg env inc l w) as (c & w' & Hrun' & Hc).
  rewrite Hrun in Hrun'. injection Hrun' as <- ->.
  destruct Hc as [Hbody Hfiles]. rewrite Hfs in Hfiles. by destruct Hfiles as [Hstored _].
Qed.

Lemma accepted_files_well_stored_witness :
  ∃ req fs s',
    Server.upload_fields sample_config same_millisecond (submission 1000 2000) ((), empty_world)
    = (Js.Normal (Server.Passed req), s') ∧
    Server.req_files req = Some fs ∧
    slots_well_stored sample_config same_millisecond fs (snd s').
Proof.
  eexists _, _, _. split; [vm_compute; reflexivity|]. split; [reflexivity|].
  refine (proj2 (accepted_files_well_stored sample_config same_millisecond unit
                   (submission 1000 2000) () empty_world _ _ _ _ _)).
  - vm_compute. reflexivity.
  - reflexivity.
Defined.

(** X9.  The submission route never answers "Video file must be less
    than 100MB": the upload stage lets no file through that reaches its
    own limit of 100 MiB, so the check of the handler for a video above
    100 MiB cannot fire. *)
Theorem video_size_answer_unreachable
    (cfg : Eff.config) (env : Eff.environment) (inc : Server.incoming) (w : Eff.world) :
  fst (Server.post_generate cfg env inc w)
  ≠ Some (Server.bad_request "Video file must be less than 100MB").
Proof.
  unfold Server.post_generate.
  destruct (Server.express_json inc) as [err|].
  { simpl. unfold Server.express_body_error, Server.bad_request. intros H. discriminate H. }
  destruct (upload_fields_outcome cfg env inc () w) as ([req|msg] & w0 & -> & Hc).
  - destruct (Server.generate_handler cfg env req ([], w0)) as [[r|e] [l w1]] eqn:Hrun;
      simpl; [|discriminate].
    intros [= ->].
    apply video_message_needs_large_video in Hrun as (fs & v & Hfs & Hv & Hbig).
    destruct Hc as [_ Hfiles]. rewrite Hfs in Hfiles.
    destruct Hfiles as [[_ Hvid] _]. destruct (Hvid v Hv) as (_ & Hsize & _).
    unfold Server.fileSize, Server.MiB in *. lia.
  - simpl. unfold Server.express_error, Server.bad_request. intros H. discriminate H.
Qed.

(** ** Status queries *)

(** X10.  The status route always answers, never touches the disk, and
    starts at most one call, the status query of the task with signed
    headers. *)
Theorem task_query_effects
    (cfg : Eff.config) (env : Eff.environment) (taskId : string) (w : Eff.world) :
  ∃ r w', Server.task_handler cfg env taskId ((), w) = (Js.Normal r, ((), w')) ∧
          Eff.disk w' = Eff.disk w ∧
          (Eff.calls w' = Eff.calls w ∨
           ∃ h, Eff.calls w' = (Eff.calls w ++ [Eff.KlingGet h taskId])%list).
Proof.
  destruct (task_handler_detail cfg env taskId w) as (r & w' & Hrun & Hdisk & Hc).
  exists r, w'. split; [exact Hrun|]. split; [exact Hdisk|].
  destruct (fst (Server.getAuthHeaders cfg env ((), w))) as [h|e].
  - destruct Hc as [-> _]. right. by exists h.
  - destruct Hc as [-> _]. by left.
Qed.

(** X11.  With signed headers at hand the status route sends the query
    and answers by what the external API said: status 200 with the
    data member passed through; on an error answer, the status, message
    and code of the API; on a network error, status 500 with the
    message of the error. *)
Theorem task_answer_passthrough
    (cfg : Eff.config) (env : Eff.environment) (taskId : string) (w : Eff.world)
    (h : Eff.headers) :
  fst (Server.getAuthHeaders cfg env ((), w)) = Js.Normal h →
  ∃ r, Server.task_handler cfg env taskId ((), w)
       = (Js.Normal r, ((), after_status_query h taskId w)) ∧
       task_answer (Eff.axios env (Eff.calls w ++ [Eff.KlingGet h taskId])) r.
Proof.
  intros Hauth.
  destruct (task_handler_detail cfg env taskId w) as (r & w' & Hrun & _ & Hc).
  rewrite Hauth in Hc. destruct Hc as [-> Hanswer]. by exists r.
Qed.

Lemma task_answer_passthrough_witness :
  ∃ r, Server.task_handler sample_config (answering task_in_progress) "task-1" ((), empty_world)
       = (Js.Normal r, ((), after_status_query sample_headers "task-1" empty_world)) ∧
       Js.get_opt (Js.get_opt (Server.json r) "data") "task_status" = Js.Str "processing".
Proof.
  destruct (task_answer_passthrough sample_config (answering task_in_progress) "task-1"
              empty_world sample_headers ltac:(vm_compute; reflexivity)) as (r & Hrun & Hans).
  exists r. split; [exact Hrun|].
  vm_compute in Hans. rewrite Hans. vm_compute. reflexivity.
Defined.

(** ** Downloads *)

Section DownloadRoute.
Import Js Eff Server.
Variable cfg : config.
Variable env : environment.




End DownloadRoute.







(** download_leaves_nothing at a download whose stream reaches its
    end. *)
Lemma download_leaves_nothing_witness :
  Eff.disk (snd (Server.get_download sample_config (answering task_succeeded) "task-1"
                   Server.StreamEnd logo_only)) ⊆ Eff.disk logo_only.
Proof.
  apply (download_leaves_nothing sample_config (answering task_succeeded) "task-1"
           Server.StreamEnd logo_only).
  left. reflexivity.
Defined.

(** ** What the static route hands out *)

Section StaticOnly.
Import Js Eff Server.

Lemma split_slash_no_slash (s : string) :
  Forall (λ seg, no_slash seg = true) (split_slash s).
Proof.
  induction s as [|c s IH]; simpl; [by repeat constructor|].
  destruct (Ascii.eqb_spec c "/") as [->|Hc]; [by constructor|].
  destruct (split_slash s) as [|seg segs].
  - repeat constructor. simpl. apply Ascii.eqb_neq in Hc. by rewrite Hc.
  - inversion IH as [|? ? Hseg Hsegs]; subst. constructor; [|exact Hsegs].
    simpl. apply Ascii.eqb_neq in Hc. by rewrite Hc, Hseg.
Qed.

Lemma normalize_step_kept (kept : list string) (seg : string) :
  no_slash seg = true → Forall kept_segment kept →
  Forall kept_segment (normalize_step kept seg).
Proof.
  intros Hseg Hkept. unfold normalize_step.
  destruct (String.eqb_spec seg "") as [->|Hne]; [exact Hkept|].
  destruct (String.eqb_spec seg ".") as [->|Hdot]; [exact Hkept|]. simpl.
  destruct (String.eqb_spec seg "..") as [->|Hup].
  - destruct kept as [|before others]; [by repeat constructor|].
    inversion Hkept; subst.
    destruct (String.eqb before ".."); [|done]. constructor; [by repeat split|exact Hkept].
  - constructor; [by repeat split|exact Hkept].
Qed.

Lemma normalize_segments_kept (segs : list string) :
  Forall (λ seg, no_slash seg = true) segs →
  Forall kept_segment (normalize_segments segs).
Proof.
  intros Hsegs. unfold normalize_segments. apply Forall_rev.
  assert (Forall kept_segment []) as Hkept by constructor.
  revert Hkept. generalize ([] : list string).
  induction Hsegs as [|seg segs Hseg Hsegs IH]; intros kept Hkept; [exact Hkept|].
  simpl. apply IH. by apply normalize_step_kept.
Qed.

Lemma no_up_marker_proper (segs : list string) :
  Forall kept_segment segs → existsb up_marker segs = false →
  Forall proper_segment segs.
Proof.
  induction 1 as [|seg segs (Hne & Hdot & Hslash) Hsegs IH]; [constructor|].
  simpl. intros [Hup Hrest]%orb_false_elim.
  constructor; [|by apply IH].
  split; [exact Hne|]. split; [exact Hdot|]. split; [|exact Hslash].
  intros ->. discriminate Hup.
Qed.

Lemma join_segments_app (a b : list string) :
  join_segments (a ++ b) = join_segments a +:+ join_segments b.
Proof.
  induction a as [|seg a IH]; simpl; [by rewrite append_empty_l|].
  by rewrite IH, !append_assoc.
Qed.

(** What the static route answers from a file: the file lies at or
    below uploads in the working directory and is on the disk. *)
Lemma express_static_file (cfg : config) (env : environment) (rest : string) (w : world)
    (f : string) :
  express_static cfg env rest w = StaticFile f →
  f ∈ disk w ∧
  ∃ segs, f = resolve cfg ("uploads" +:+ join_segments segs) ∧
          Forall proper_segment segs ∧
          starts_with_dot (default "" (last segs)) = false.
Proof.
  unfold express_static.
  destruct (decodeURIComponent rest) as [decoded|]; [|discriminate].
  destruct (has_nul decoded); [discriminate|].
  set (segs := if String.eqb decoded "" then [] else normalize_segments (split_slash decoded)).
  assert (Forall kept_segment segs) as Hkept.
  { unfold segs. destruct (String.eqb decoded ""); [constructor|].
    apply normalize_segments_kept, split_slash_no_slash. }
  destruct (existsb up_marker segs) eqn:Hup; [discriminate|].
  pose proof (no_up_marker_proper segs Hkept Hup) as Hproper.
  destruct (negb (ends_with_slash decoded) && starts_with_dot (default "" (last segs)))
    eqn:Hdot; [discriminate|].
  destruct (ends_with_slash rest).
  - destruct (on_disk cfg (("uploads" +:+ join_segments segs) +:+ "/index.html") w) eqn:Hdisk;
      [|discriminate].
    intros [= <-]. split; [by apply bool_decide_eq_true in Hdisk|].
    exists (segs ++ ["index.html"])%list. split; [|split].
    + rewrite join_segments_app, append_assoc. reflexivity.
    + apply Forall_app. split; [exact Hproper|].
      repeat constructor; discriminate.
    + by rewrite last_snoc.
  - destruct (negb (ends_with_slash decoded)) eqn:Htrail; simpl in *.
    + destruct (on_disk cfg ("uploads" +:+ join_segments segs) w) eqn:Hdisk.
      * intros [= <-]. split; [by apply bool_decide_eq_true in Hdisk|].
        by exists segs.
      * destruct (is_directory _ _ _ _); discriminate.
    + destruct (is_directory _ _ _ _); discriminate.
Qed.

End StaticOnly.

(** X16.  The static route answers from a file only a GET or HEAD
    request that passed the CORS stage and express.json() and whose
    path starts, in whatever case, with the mount point /uploads.  The
    file is on the disk, at or below uploads in the working directory:
    its path is that directory followed by segments none of which is
    empty, . or .. or holds a separator, and the last of which does not
    start with a dot. *)
Theorem static_serves_only_uploads
    (cfg : Eff.config) (env : Eff.environment) (r : Server.http_request) (w : Eff.world)
    (f : string) :
  Server.app cfg env r w = Server.Served f →
  (Server.method r = "GET" ∨ Server.method r = "HEAD") ∧
  Cors.origin (Server.origin r) = Cors.Allow ∧
  Server.json_error r = None ∧
  (∃ rest, Server.strip_mount "/uploads" (Server.url_path r) = Some rest) ∧
  f ∈ Eff.disk w ∧
  ∃ segs, f = Server.resolve cfg ("uploads" +:+ Server.join_segments segs) ∧
          Forall proper_segment segs ∧
          Server.starts_with_dot (default "" (last segs)) = false.
Proof.
  unfold Server.app.
  destruct (Cors.origin (Server.origin r)) as [|msg] eqn:Hcors; [|discriminate].
  destruct (String.eqb (Server.method r) "OPTIONS"); [discriminate|].
  destruct (Server.json_error r) as [err|] eqn:Hjson; [discriminate|].
  destruct (String.eqb (Server.method r) "GET" || String.eqb (Server.method r) "HEAD")
    eqn:Hmethod; [|discriminate].
  destruct (Server.below_mount (Server.url_path r)) as [rest|] eqn:Hmount; [|discriminate].
  destruct (Server.express_static cfg env rest w) as [f'| |] eqn:Hstatic; try discriminate.
  intros [= ->].
  destruct (express_static_file cfg env rest w f Hstatic) as (Hdisk & Hsegs).
  split.
  { apply orb_prop in Hmethod as [H|H]; apply String.eqb_eq in H; [by left|by right]. }
  split; [reflexivity|]. split; [reflexivity|]. split; [|by split].
  unfold Server.below_mount in Hmount.
  destruct (Server.strip_mount "/uploads" (Server.url_path r)) as [left_over|]; [|discriminate].
  by exists left_over.
Qed.

Lemma static_serves_only_uploads_witness :
  (Server.method (anonymous_fetch "1700000000000-1.png") = "GET" ∨
   Server.method (anonymous_fetch "1700000000000-1.png") = "HEAD") ∧
  Cors.origin (Server.origin (anonymous_fetch "1700000000000-1.png")) = Cors.Allow ∧
  Server.json_error (anonymous_fetch "1700000000000-1.png") = None ∧
  (∃ rest, Server.strip_mount "/uploads"
             (Server.url_path (anonymous_fetch "1700000000000-1.png")) = Some rest) ∧
  "/srv/backend/uploads/1700000000000-1.png" ∈ Eff.disk one_upload ∧
  ∃ segs, "/srv/backend/uploads/1700000000000-1.png"
          = Server.resolve sample_config ("uploads" +:+ Server.join_segments segs) ∧
          Forall proper_segment segs ∧
          Server.starts_with_dot (default "" (last segs)) = false.
Proof.
  apply (static_serves_only_uploads sample_config same_millisecond
           (anonymous_fetch "1700000000000-1.png")
           one_upload "/srv/backend/uploads/1700000000000-1.png").
  vm_compute. reflexivity.
Defined.

(** generated_names_plain at a stored upload and the temporary files
    of a task. *)
Lemma generated_names_plain_witness :
  let stored := Naming.filename (λ _, ".png") 1700000000000 1 "photo.png" in
  let temp_input := "temp-input-" +:+ "task-1" +:+ "-" +:+ Naming.num_to_string 1700000000000 +:+ ".mp4" in
  let temp_output := "temp-output-" +:+ "task-1" +:+ "-" +:+ Naming.num_to_string 1700000000000 +:+ ".mp4" in
  (stored ≠ "" ∧ Server.dot_segment true stored = false) ∧
  (temp_input ≠ "" ∧ Server.dot_segment true temp_input = false) ∧
  (temp_output ≠ "" ∧ Server.dot_segment true temp_output = false).
Proof.
  apply (generated_names_plain (λ _, ".png") 1700000000000 1 "photo.png" "task-1").
  - intros _. reflexivity.
  - reflexivity.
Defined.

(** ** The check of the credentials at start-up *)

Section Startup.
Import Js Eff Server.
Variable cfg : config.
Variable env : environment.
Context {L : Type}.

(** X18.  When the check at start-up warns about the credentials,
    signing cannot return a token with an issuer: if it returns one at
    all, the issuer credential is the empty string and so is the issuer
    claim. *)
Theorem warned_credentials_sign_nothing_useful (s s' : L * world) (tok : Jwt.token) :
  Boot.credentials_warning cfg = true →
  generateJwtToken cfg env s = (Normal tok, s') →
  KLING_ACCESS_KEY cfg = Some "" ∧ Jwt.iss (Jwt.claims tok) = "".
Proof.
  unfold Boot.credentials_warning. intros Hwarn Hrun.
  apply generateJwtToken_token in Hrun as (access & secret & Ha & Hk & Hne & _ & ->).
  rewrite Ha, Hk in Hwarn.
  destruct access as [|c access]; [done|].
  destruct secret as [|c' secret]; [by destruct Hne|discriminate Hwarn].
Qed.


End Startup.

Lemma warned_credentials_sign_nothing_useful_witness :
  ∃ (tok : Jwt.token) (s' : unit * Eff.world),
    Server.generateJwtToken (with_credentials (Some "") (Some "secret-key"))
      same_millisecond ((), empty_world) = (Js.Normal tok, s') ∧
    Eff.KLING_ACCESS_KEY (with_credentials (Some "") (Some "secret-key")) = Some "" ∧
    Jwt.iss (Jwt.claims tok) = "".
Proof.
  eexists _, _. split; [vm_compute; reflexivity|].
  eapply (warned_credentials_sign_nothing_useful (with_credentials (Some "") (Some "secret-key"))
            same_millisecond ((), empty_world)).
  - reflexivity.
  - vm_compute. reflexivity.
Defined.

